(** * DeFi position explorer: intent parsing, query compilation, report formatting

    A shallow embedding of the request pipeline of the repository
    ([lib/agent.ts], [lib/allium.ts], [lib/formatters.ts] and the [POST]
    handler of the chat route) together with the properties its
    specification states about it.

    Conventions of the embedding.
    - A JavaScript string is a [string] of 8-bit characters: ASCII text
      character by character, text outside ASCII by its UTF-8 bytes.  Every
      literal the program matches against (the trigger words, the base58
      class, the digits, ["-"], ["T"]) is ASCII, and an index or a length of
      the model is the JavaScript one on ASCII text.
    - [toLowerCase] maps the letters A to Z to a to z and leaves every other
      character as it is: this is the JavaScript method on text of ASCII
      characters.  JavaScript lower-cases the letters outside ASCII as well.
      No character outside ASCII lower-cases into a text that completes a
      trigger word, so the tests of the fallback parser see the same as in
      JavaScript; what is stated about the lower-cased protocol of a query is
      stated for a protocol of ASCII characters.
    - A JavaScript [number] is an IEEE 754 binary64 value, [PrimFloat.float].
    - [undefined] for an optional field is [None].
    - An exception is an explicit [Throw] outcome. *)

From Stdlib Require Import ZArith NArith Bool Arith Lia List String Ascii.
From Stdlib Require Import Floats.PrimFloat Floats.FloatOps Floats.SpecFloat.
From Stdlib Require Import Floats.FloatAxioms.
From Stdlib Require Import Numbers.DecimalString Permutation Sorted.
Import ListNotations.

Open Scope list_scope.
Open Scope string_scope.

(** ** JavaScript string primitives *)

Definition inRange (lo hi c : ascii) : bool :=
  (N_of_ascii lo <=? N_of_ascii c)%N && (N_of_ascii c <=? N_of_ascii hi)%N.

Definition lowerChar (c : ascii) : ascii :=
  if inRange "A" "Z" c then ascii_of_N (N_of_ascii c + 32) else c.

(** [String.prototype.toLowerCase] on text of ASCII characters: the letters A
    to Z become a to z, every other character is kept. *)
Fixpoint toLowerCase (s : string) : string :=
  match s with
  | EmptyString => EmptyString
  | String c s' => String (lowerChar c) (toLowerCase s')
  end.

(** [String.prototype.startsWith]. *)
Fixpoint startsWith (s t : string) {struct t} : bool :=
  match t, s with
  | EmptyString, _ => true
  | String b t', String a s' => Ascii.eqb a b && startsWith s' t'
  | String _ _, EmptyString => false
  end.

(** [String.prototype.includes]: [t] occurs somewhere in [s]. *)
Fixpoint includes (s t : string) : bool :=
  startsWith s t ||
  match s with
  | EmptyString => false
  | String _ s' => includes s' t
  end.

(** [s.slice(0, n)]. *)
Fixpoint sliceTo (n : nat) (s : string) : string :=
  match n, s with
  | S k, String c s' => String c (sliceTo k s')
  | _, _ => EmptyString
  end.

(** [s.slice(n)] for [n >= 0]. *)
Fixpoint sliceFrom (n : nat) (s : string) : string :=
  match n, s with
  | S k, String _ s' => sliceFrom k s'
  | _, _ => s
  end.

(** [s.slice(-n)]: the last [n] characters, the whole string when it is
    shorter. *)
Definition sliceLast (n : nat) (s : string) : string :=
  sliceFrom (String.length s - n) s.

(** [s.split(sep)[0]] for a one-character separator: the part of [s] before
    the first occurrence of [sep], all of [s] when there is none. *)
Fixpoint splitHead (sep : ascii) (s : string) : string :=
  match s with
  | EmptyString => EmptyString
  | String c s' => if Ascii.eqb c sep then EmptyString else String c (splitHead sep s')
  end.

(** [parts.join(sep)]. *)
Definition join (sep : string) (parts : list string) : string :=
  String.concat sep parts.

(** JavaScript truthiness of an optional string: [undefined] and [""] are
    falsy. *)
Definition truthy (v : option string) : bool :=
  match v with
  | Some s => negb (s =? "")
  | None => false
  end.

(** ** The two regular expressions of the fallback parser *)

(** The character class [[1-9A-HJ-NP-Za-km-z]]. *)
Definition isBase58 (c : ascii) : bool :=
  inRange "1" "9" c || inRange "A" "H" c || inRange "J" "N" c ||
  inRange "P" "Z" c || inRange "a" "k" c || inRange "m" "z" c.

(** The class [\d] (without the [u] flag: the ten ASCII digits). *)
Definition isDigit (c : ascii) : bool := inRange "0" "9" c.

(** The longest prefix of [s] made of at most [limit] characters of the
    class [p]: what a greedy [[p]{0,limit}] consumes at the start of [s]. *)
Fixpoint classRun (p : ascii -> bool) (limit : nat) (s : string) : string :=
  match limit, s with
  | S k, String c s' => if p c then String c (classRun p k s') else EmptyString
  | _, _ => EmptyString
  end.

(** [msg.match(/[1-9A-HJ-NP-Za-km-z]{32,44}/)]: the leftmost position where
    at least 32 characters of the class follow each other, and there the
    greedy match of up to 44 of them.  [None] is the [null] result. *)
Fixpoint matchAddress (s : string) : option string :=
  let run := classRun isBase58 44 s in
  if (32 <=? String.length run)%nat then Some run
  else match s with
       | EmptyString => None
       | String _ s' => matchAddress s'
       end.

(** The pattern [\d{4}-\d{2}-\d{2}] anchored at the start of [s]; the result
    is the matched text. *)
Definition matchDateAt (s : string) : option string :=
  match s with
  | String y1 (String y2 (String y3 (String y4 (String h1
      (String m1 (String m2 (String h2 (String d1 (String d2 _))))))))) =>
      if isDigit y1 && isDigit y2 && isDigit y3 && isDigit y4 &&
         Ascii.eqb h1 "-" && isDigit m1 && isDigit m2 &&
         Ascii.eqb h2 "-" && isDigit d1 && isDigit d2
      then Some (sliceTo 10 s)
      else None
  | _ => None
  end.

(** The scan of a global ([/g]) match: [skip] characters are still covered
    by the previous match and cannot start a new one. *)
Fixpoint scanDates (skip : nat) (s : string) : list string :=
  match s with
  | EmptyString => []
  | String _ s' =>
      match skip with
      | S k => scanDates k s'
      | O =>
          match matchDateAt s with
          | Some d => d :: scanDates 9 s'
          | None => scanDates 0 s'
          end
      end
  end.

(** [msg.match(/\d{4}-\d{2}-\d{2}/g) || []]. *)
Definition matchAllDates (s : string) : list string := scanDates 0 s.

(** ** [ParsedQuery] and the regex-based fallback parser (lib/agent.ts) *)

Module ParsedQuery.

Record t : Type := mk {
  type : string;
  address : option string;
  date : option string;
  start_date : option string;
  end_date : option string;
  date1 : option string;
  date2 : option string;
  protocol : option string;
  message : option string
}.

(** The object literal [{ type }] with every other field left out. *)
Definition only (ty : string) : t :=
  mk ty None None None None None None None None.

End ParsedQuery.

Definition helpTrigger (lower : string) : bool :=
  includes lower "help" || includes lower "what can you" ||
  (lower =? "hi") || (lower =? "hello").

Definition comparisonTrigger (lower : string) : bool :=
  includes lower "compare" || includes lower "vs" || includes lower "versus".

Definition rangeTrigger (lower : string) : bool :=
  includes lower "from" || includes lower "history" ||
  includes lower "range" || includes lower "between".

Definition regexParse (msg : string) : ParsedQuery.t :=
  let lower := toLowerCase msg in
  let address := matchAddress msg in
  let dateMatches := matchAllDates msg in
  if helpTrigger lower then ParsedQuery.only "help"
  else if negb (truthy address) then
    ParsedQuery.mk "error" None None None None None None None
      (Some "I need a Solana wallet address. Try: 'Show me positions for `<wallet_address>` on 2025-12-31'")
  else if comparisonTrigger lower && (2 <=? List.length dateMatches)%nat then
    ParsedQuery.mk "comparison" address None None None
      (nth_error dateMatches 0) (nth_error dateMatches 1) None None
  else if rangeTrigger lower && (2 <=? List.length dateMatches)%nat then
    ParsedQuery.mk "range" address None
      (nth_error dateMatches 0) (nth_error dateMatches 1) None None None None
  else if (1 <=? List.length dateMatches)%nat then
    ParsedQuery.mk "snapshot" address (nth_error dateMatches 0)
      None None None None None None
  else
    ParsedQuery.mk "error" None None None None None None None
      (Some "I found a wallet address but need a date. Try: 'Show me positions for `<wallet>` on 2025-12-31'").

(** ** Exceptions and the console *)

Inductive result (A : Type) : Type :=
| Ok (a : A)
| Throw (err : string).
Arguments Ok {A} a.
Arguments Throw {A} err.

Definition bind {A B : Type} (m : result A) (k : A -> result B) : result B :=
  match m with
  | Ok a => k a
  | Throw err => Throw err
  end.

Notation "x <- m ;; k" := (bind m (fun x => k))
  (at level 61, m at next level, right associativity).

(** ** JSON values and [JSON.parse] *)

(** A number keeps its literal: nothing in the pipeline computes with a
    number of the reply.  A string is decoded.  The properties of an object
    are kept in insertion order, one entry per key. *)
#[local] Unset Elimination Schemes.
Inductive JSValue : Type :=
| JNull
| JBool (b : bool)
| JNumber (literal : string)
| JString (s : string)
| JArray (items : list JSValue)
| JObject (props : list (string * JSValue)).
#[local] Set Elimination Schemes.

(** [obj[k] = v] on the property list. *)
Fixpoint setProp (k : string) (v : JSValue) (props : list (string * JSValue))
  : list (string * JSValue) :=
  match props with
  | [] => [(k, v)]
  | (k', v') :: rest =>
      if k' =? k then (k', v) :: rest else (k', v') :: setProp k v rest
  end.

Fixpoint lookupProp (k : string) (props : list (string * JSValue)) : option JSValue :=
  match props with
  | [] => None
  | (k', v') :: rest => if k' =? k then Some v' else lookupProp k rest
  end.

(** [v[k]] for a value that is not [null]; [None] is [undefined]. *)
Definition getProp (k : string) (v : JSValue) : option JSValue :=
  match v with
  | JObject props => lookupProp k props
  | _ => None
  end.

Definition isJsonWs (c : ascii) : bool :=
  Ascii.eqb c " " || Ascii.eqb c "009" || Ascii.eqb c "010" || Ascii.eqb c "013".

Fixpoint skipWs (s : string) : string :=
  match s with
  | String c s' => if isJsonWs c then skipWs s' else s
  | EmptyString => EmptyString
  end.

Definition hexVal (c : ascii) : option N :=
  if inRange "0" "9" c then Some (N_of_ascii c - 48)%N
  else if inRange "a" "f" c then Some (N_of_ascii c - 87)%N
  else if inRange "A" "F" c then Some (N_of_ascii c - 55)%N
  else None.

(** The characters standing for the code unit [n] of a [\uXXXX] escape: the
    unit itself below 128, its UTF-8 bytes above. *)
Definition unitChars (n : N) : string :=
  if (n <? 128)%N then String (ascii_of_N n) ""
  else if (n <? 2048)%N then
    String (ascii_of_N (192 + n / 64)%N) (String (ascii_of_N (128 + n mod 64)%N) "")
  else
    String (ascii_of_N (224 + n / 4096)%N)
      (String (ascii_of_N (128 + (n / 64) mod 64)%N)
         (String (ascii_of_N (128 + n mod 64)%N) "")).

Definition simpleEscape (c : ascii) : option ascii :=
  if Ascii.eqb c "034" then Some "034"%char
  else if Ascii.eqb c "\" then Some "\"%char
  else if Ascii.eqb c "/" then Some "/"%char
  else if Ascii.eqb c "b" then Some "008"%char
  else if Ascii.eqb c "f" then Some "012"%char
  else if Ascii.eqb c "n" then Some "010"%char
  else if Ascii.eqb c "r" then Some "013"%char
  else if Ascii.eqb c "t" then Some "009"%char
  else None.

(** The characters of a string literal after its opening quote, up to and
    including the closing quote. *)
Fixpoint parseChars (s : string) : option (string * string) :=
  match s with
  | EmptyString => None
  | String c s1 =>
      if Ascii.eqb c "034" then Some ("", s1)
      else if Ascii.eqb c "\" then
        match s1 with
        | String e s2 =>
            if Ascii.eqb e "u" then
              match s2 with
              | String h1 (String h2 (String h3 (String h4 s6))) =>
                  match hexVal h1, hexVal h2, hexVal h3, hexVal h4 with
                  | Some a, Some b, Some c', Some d =>
                      match parseChars s6 with
                      | Some (body, rest) =>
                          Some (unitChars (a * 4096 + b * 256 + c' * 16 + d)%N ++ body, rest)
                      | None => None
                      end
                  | _, _, _, _ => None
                  end
              | _ => None
              end
            else
              match simpleEscape e with
              | Some ch =>
                  match parseChars s2 with
                  | Some (body, rest) => Some (String ch body, rest)
                  | None => None
                  end
              | None => None
              end
        | EmptyString => None
        end
      else if (N_of_ascii c <? 32)%N then None
      else
        match parseChars s1 with
        | Some (body, rest) => Some (String c body, rest)
        | None => None
        end
  end.

(** The digits at the start of [s] and what follows them. *)
Fixpoint spanDigits (s : string) : string * string :=
  match s with
  | String c s' =>
      if isDigit c then let (ds, rest) := spanDigits s' in (String c ds, rest)
      else (EmptyString, s)
  | EmptyString => (EmptyString, EmptyString)
  end.

(** A JSON number: an optional minus sign; the integer part, a single zero
    or digits that do not start with zero; an optional fraction, a dot and
    at least one digit; an optional exponent, [e] or [E], an optional sign
    and at least one digit. *)
Definition parseNumber (s : string) : option (string * string) :=
  let (sign, s0) :=
    match s with
    | String "-" s' => ("-", s')
    | _ => ("", s)
    end in
  let (int, s1) := spanDigits s0 in
  let intOk :=
    match int with
    | EmptyString => false
    | String "0" (String _ _) => false
    | _ => true
    end in
  if negb intOk then None
  else
    let fracPart :=
      match s1 with
      | String "." s2 =>
          let (ds, s3) := spanDigits s2 in
          if ds =? "" then None else Some ("." ++ ds, s3)
      | _ => Some ("", s1)
      end in
    match fracPart with
    | None => None
    | Some (frac, s3) =>
        let expPart :=
          match s3 with
          | String e s4 =>
              if Ascii.eqb e "e" || Ascii.eqb e "E" then
                let (esign, s5) :=
                  match s4 with
                  | String "+" s' => ("+", s')
                  | String "-" s' => ("-", s')
                  | _ => ("", s4)
                  end in
                let (ds, s6) := spanDigits s5 in
                if ds =? "" then None else Some (String e esign ++ ds, s6)
              else Some ("", s3)
          | EmptyString => Some ("", s3)
          end in
        match expPart with
        | None => None
        | Some (ex, s6) => Some (sign ++ int ++ frac ++ ex, s6)
        end
    end.

(** One of the three literal names or a number at the start of [s]. *)
Definition parseScalar (s : string) : option (JSValue * string) :=
  if startsWith s "true" then Some (JBool true, sliceFrom 4 s)
  else if startsWith s "false" then Some (JBool false, sliceFrom 5 s)
  else if startsWith s "null" then Some (JNull, sliceFrom 4 s)
  else
    match parseNumber s with
    | Some (lit, rest) => Some (JNumber lit, rest)
    | None => None
    end.

(** The text after the character [c] that [s] starts with. *)
Definition afterChar (c : ascii) (s : string) : option string :=
  match s with
  | String c' rest => if Ascii.eqb c' c then Some rest else None
  | EmptyString => None
  end.

(** One JSON value at the start of [s] (no leading white space), with the
    text that follows it.  [fuel] bounds the chain of nested calls: of two
    calls that follow each other in the chain one at least consumes a
    character, so twice the length of the text is enough
    ([JSON_parse_any_fuel] below). *)
Fixpoint parseValue (fuel : nat) (s : string) : option (JSValue * string) :=
  match fuel with
  | O => None
  | S fuel' =>
      match afterChar "{" s with
      | Some s1 =>
          match afterChar "}" (skipWs s1) with
          | Some rest => Some (JObject [], rest)
          | None => parseMembers fuel' s1 []
          end
      | None =>
          match afterChar "[" s with
          | Some s1 =>
              match afterChar "]" (skipWs s1) with
              | Some rest => Some (JArray [], rest)
              | None => parseElements fuel' s1 []
              end
          | None =>
              match afterChar "034" s with
              | Some s1 =>
                  match parseChars s1 with
                  | Some (str, rest) => Some (JString str, rest)
                  | None => None
                  end
              | None => parseScalar s
              end
          end
      end
  end

(** The elements of an array after the opening bracket or a comma, up to
    and including the closing bracket; [acc] holds the elements read so
    far. *)
with parseElements (fuel : nat) (s : string) (acc : list JSValue)
  : option (JSValue * string) :=
  match fuel with
  | O => None
  | S fuel' =>
      match parseValue fuel' (skipWs s) with
      | Some (v, rest) =>
          match afterChar "," (skipWs rest) with
          | Some rest' => parseElements fuel' rest' (acc ++ [v])%list
          | None =>
              match afterChar "]" (skipWs rest) with
              | Some rest' => Some (JArray (acc ++ [v])%list, rest')
              | None => None
              end
          end
      | None => None
      end
  end

(** The members of an object after the opening brace or a comma, up to and
    including the closing brace. *)
with parseMembers (fuel : nat) (s : string) (acc : list (string * JSValue))
  : option (JSValue * string) :=
  match fuel with
  | O => None
  | S fuel' =>
      match afterChar "034" (skipWs s) with
      | Some s1 =>
          match parseChars s1 with
          | Some (key, s2) =>
              match afterChar ":" (skipWs s2) with
              | Some s3 =>
                  match parseValue fuel' (skipWs s3) with
                  | Some (v, rest) =>
                      match afterChar "," (skipWs rest) with
                      | Some rest' => parseMembers fuel' rest' (setProp key v acc)
                      | None =>
                          match afterChar "}" (skipWs rest) with
                          | Some rest' => Some (JObject (setProp key v acc), rest')
                          | None => None
                          end
                      end
                  | None => None
                  end
              | None => None
              end
          | None => None
          end
      | None => None
      end
  end.

(** [JSON.parse(text)]: one value between optional white space and nothing
    else; a [SyntaxError] otherwise. *)
Definition JSON_parse (text : string) : result JSValue :=
  match parseValue (2 * String.length text + 3) (skipWs text) with
  | Some (v, rest) =>
      if skipWs rest =? "" then Ok v else Throw "SyntaxError"
  | None => Throw "SyntaxError"
  end.

(** ** [String.prototype.trim] *)

Definition isAsciiSpace (c : ascii) : bool :=
  Ascii.eqb c " " || inRange "009" "013" c.

(** The two-byte and three-byte UTF-8 forms of the white space and line
    terminator code points outside ASCII: U+00A0, U+1680, U+2000 to U+200A,
    U+2028, U+2029, U+202F, U+205F, U+3000 and U+FEFF. *)
Definition isSpace2 (c1 c2 : ascii) : bool :=
  Ascii.eqb c1 "194" && Ascii.eqb c2 "160".

Definition isSpace3 (c1 c2 c3 : ascii) : bool :=
  (Ascii.eqb c1 "225" && Ascii.eqb c2 "154" && Ascii.eqb c3 "128") ||
  (Ascii.eqb c1 "226" && Ascii.eqb c2 "128" &&
     (inRange "128" "138" c3 || Ascii.eqb c3 "168" || Ascii.eqb c3 "169" ||
      Ascii.eqb c3 "175")) ||
  (Ascii.eqb c1 "226" && Ascii.eqb c2 "129" && Ascii.eqb c3 "159") ||
  (Ascii.eqb c1 "227" && Ascii.eqb c2 "128" && Ascii.eqb c3 "128") ||
  (Ascii.eqb c1 "239" && Ascii.eqb c2 "187" && Ascii.eqb c3 "191").

Fixpoint trimStart (s : string) : string :=
  match s with
  | String c1 s1 =>
      if isAsciiSpace c1 then trimStart s1
      else
        match s1 with
        | String c2 s2 =>
            if isSpace2 c1 c2 then trimStart s2
            else
              match s2 with
              | String c3 s3 => if isSpace3 c1 c2 c3 then trimStart s3 else s
              | EmptyString => s
              end
        | EmptyString => s
        end
  | EmptyString => EmptyString
  end.

(** [trimStart] read from the end: the argument is the reversed text. *)
Fixpoint trimStartRev (r : string) : string :=
  match r with
  | String c1 r1 =>
      if isAsciiSpace c1 then trimStartRev r1
      else
        match r1 with
        | String c2 r2 =>
            if isSpace2 c2 c1 then trimStartRev r2
            else
              match r2 with
              | String c3 r3 => if isSpace3 c3 c2 c1 then trimStartRev r3 else r
              | EmptyString => r
              end
        | EmptyString => r
        end
  | EmptyString => EmptyString
  end.

Fixpoint reverse (acc s : string) : string :=
  match s with
  | EmptyString => acc
  | String c s' => reverse (String c acc) s'
  end.

Definition trimEnd (s : string) : string :=
  reverse "" (trimStartRev (reverse "" s)).

Definition trim (s : string) : string := trimEnd (trimStart s).

(** ** The intent parser (lib/agent.ts) *)

(** A value of type [ParsedQuery] as the JavaScript object it is: the
    properties that are not [undefined]. *)
Definition optProp (k : string) (v : option string) : list (string * JSValue) :=
  match v with
  | Some s => [(k, JString s)]
  | None => []
  end.

Definition toJS (q : ParsedQuery.t) : JSValue :=
  JObject ([("type", JString (ParsedQuery.type q))] ++
           optProp "address" (ParsedQuery.address q) ++
           optProp "date" (ParsedQuery.date q) ++
           optProp "start_date" (ParsedQuery.start_date q) ++
           optProp "end_date" (ParsedQuery.end_date q) ++
           optProp "date1" (ParsedQuery.date1 q) ++
           optProp "date2" (ParsedQuery.date2 q) ++
           optProp "protocol" (ParsedQuery.protocol q) ++
           optProp "message" (ParsedQuery.message q))%list.

(** One block of [response.content]. *)
Inductive ContentBlock : Type :=
| TextBlock (text : string)
| OtherBlock (kind : string).

(** What the parser reads from the outside: the credential of the process
    environment and the answer of the hosted model to a user message, either
    the content blocks of its reply or a failure of the call. *)
Record World : Type := {
  ANTHROPIC_API_KEY : option string;
  messages_create : string -> result (list ContentBlock)
}.

(** [block.type === "text" ? block.text : ""]. *)
Definition replyText (block : ContentBlock) : string :=
  match block with
  | TextBlock t => t
  | OtherBlock _ => ""
  end.

(** The body of the [try] block.  Reading [content[0].type] of a reply
    without a block is a [TypeError]. *)
Definition primaryPath (w : World) (userMessage : string) : result JSValue :=
  content <- messages_create w userMessage ;;
  match content with
  | [] => Throw "TypeError"
  | block :: _ => JSON_parse (trim (replyText block))
  end.

(** [parseUserQuery]: the lines written with [console.warn], and the outcome
    of the call.  The cast [as ParsedQuery] has no run-time content, so the
    value returned on the primary path is the parsed JSON value as it is. *)
Definition parseUserQuery (w : World) (userMessage : string)
  : list string * result JSValue :=
  let fallback := Ok (toJS (regexParse userMessage)) in
  if truthy (ANTHROPIC_API_KEY w) then
    match primaryPath w userMessage with
    | Ok v => ([], Ok v)
    | Throw err =>
        (["Claude API failed, falling back to regex parser: " ++ err], fallback)
    end
  else ([], fallback).

(** Modelled from the spec: the [QueryIntent] union of section 3, as a test
    on a JSON value.  The value is an object whose [type] is one of the five
    kinds, with a string for every required field of that kind and a string,
    if anything, for every optional one. *)
Definition hasString (k : string) (v : JSValue) : bool :=
  match getProp k v with
  | Some (JString _) => true
  | _ => false
  end.

Definition hasOptString (k : string) (v : JSValue) : bool :=
  match getProp k v with
  | Some (JString _) | None => true
  | _ => false
  end.

Definition conformsQueryIntent (v : JSValue) : bool :=
  match getProp "type" v with
  | Some (JString ty) =>
      if ty =? "snapshot" then
        hasString "address" v && hasString "date" v && hasOptString "protocol" v
      else if ty =? "range" then
        hasString "address" v && hasString "start_date" v &&
        hasString "end_date" v && hasOptString "protocol" v
      else if ty =? "comparison" then
        hasString "address" v && hasString "date1" v &&
        hasString "date2" v && hasOptString "protocol" v
      else if (ty =? "help") || (ty =? "error") then hasOptString "message" v
      else false
  | _ => false
  end.

(** ** The query compiler (lib/allium.ts) *)

Definition selectFrom : string :=
"
    SELECT
      date,
      address,
      project,
      protocol,
      symbol,
      balance,
      usd_balance,
      usd_exchange_rate,
      lending_id,
      mint,
      token_name
    FROM solana.lending.position_holdings_daily
    WHERE ".

(** [if (protocol) conditions.push(...)]. *)
Definition pushProtocol (conditions : list string) (protocol : option string)
  : list string :=
  match protocol with
  | Some p =>
      if truthy protocol
      then (conditions ++ [("project = '" ++ toLowerCase p ++ "'")%string])%list
      else conditions
  | None => conditions
  end.

Definition buildPositionQuery (address date : string) (protocol : option string)
  : string :=
  let conditions :=
    pushProtocol
      ["address = '" ++ address ++ "'";
       "date = '" ++ date ++ "'";
       "balance > 0"] protocol in
  selectFrom ++ join " AND " conditions ++ "
    ORDER BY usd_balance DESC
    LIMIT 50
  ".

Definition buildPositionRangeQuery (address startDate endDate : string)
  (protocol : option string) : string :=
  let conditions :=
    pushProtocol
      ["address = '" ++ address ++ "'";
       "date >= '" ++ startDate ++ "'";
       "date <= '" ++ endDate ++ "'";
       "balance > 0"] protocol in
  selectFrom ++ join " AND " conditions ++ "
    ORDER BY date ASC, usd_balance DESC
    LIMIT 500
  ".

Definition buildComparisonQuery (address date1 date2 : string)
  (protocol : option string) : string :=
  let conditions :=
    pushProtocol
      ["address = '" ++ address ++ "'";
       "date IN ('" ++ date1 ++ "', '" ++ date2 ++ "')";
       "balance > 0"] protocol in
  selectFrom ++ join " AND " conditions ++ "
    ORDER BY date ASC, usd_balance DESC
    LIMIT 100
  ".

(** ** Numbers: [Number.prototype.toFixed] *)

(** The decimal digits of a natural number; ["0"] for zero. *)
Definition decimal (n : Z) : string :=
  NilZero.string_of_uint (N.to_uint (Z.to_N n)).

Fixpoint zeros (n : nat) : string :=
  match n with
  | O => EmptyString
  | S k => String "0" (zeros k)
  end.

(** The digits of the integer [n] with a decimal point before the last [f]
    of them, padded on the left so that a digit stands before the point. *)
Definition fixedDigits (f : nat) (n : Z) : string :=
  let m := decimal n in
  match f with
  | O => m
  | S _ =>
      let m :=
        if (String.length m <=? f)%nat
        then zeros (f + 1 - String.length m) ++ m
        else m in
      let k := String.length m in
      sliceTo (k - f) m ++ "." ++ sliceFrom (k - f) m
  end.

(** The integer nearest to [m * 2^e * 10^f], the larger one of two. *)
Definition roundHalfUp (m : positive) (e : Z) (f : nat) : Z :=
  let scaled := (Zpos m * 10 ^ Z.of_nat f)%Z in
  if (0 <=? e)%Z then (scaled * 2 ^ e)%Z
  else ((2 * scaled + 2 ^ (- e)) / 2 ^ (1 - e))%Z.

(** [m * 2^e >= 10^21]. *)
Definition atLeast1e21 (m : positive) (e : Z) : bool :=
  if (0 <=? e)%Z then (10 ^ 21 <=? Zpos m * 2 ^ e)%Z
  else (10 ^ 21 * 2 ^ (- e) <=? Zpos m)%Z.

(** The decimal [v] converts to the binary64 number [m * 2^e] (of mantissa
    [m] of 53 bits, [e] at least 2): it lies between the midpoints to the
    two neighbours, a midpoint itself going to the even mantissa. *)
Definition roundsTo (m : positive) (e : Z) (v : Z) : bool :=
  let x := (Zpos m * 2 ^ e)%Z in
  let below := if (Zpos m =? 2 ^ 52)%Z then (2 ^ (e - 2))%Z else (2 ^ (e - 1))%Z in
  let lo := (x - below)%Z in
  let hi := (x + 2 ^ (e - 1))%Z in
  ((lo <? v) && (v <? hi))%Z ||
  (Z.even (Zpos m) && ((v =? lo) || (v =? hi))%Z).

(** The pairs [(s, n)] with [s] of [k] digits for which [s * 10^(n-k)]
    converts to [m * 2^e]. *)
Definition candidates (m : positive) (e : Z) (k : Z) : list (Z * Z) :=
  let x := (Zpos m * 2 ^ e)%Z in
  let nx := Z.of_nat (String.length (decimal x)) in
  flat_map
    (fun n =>
       let p := (n - k)%Z in
       let s0 := (x / 10 ^ p)%Z in
       filter
         (fun c : Z * Z =>
            let s := fst c in
            (10 ^ (k - 1) <=? s)%Z && (s <? 10 ^ k)%Z && roundsTo m e (s * 10 ^ p))
         [(s0, n); ((s0 + 1)%Z, n)])
    [(nx - 1)%Z; nx; (nx + 1)%Z].

(** Of two candidates the one nearer to [x], the even one when both are as
    near. *)
Definition nearer (x k : Z) (c1 c2 : Z * Z) : Z * Z :=
  let dist := fun c : Z * Z => Z.abs (fst c * 10 ^ (snd c - k) - x) in
  if (dist c1 <? dist c2)%Z then c1
  else if (dist c2 <? dist c1)%Z then c2
  else if Z.even (fst c1) then c1 else c2.

Definition nearest (x k : Z) (cs : list (Z * Z)) : option (Z * Z) :=
  match cs with
  | [] => None
  | c :: cs' => Some (fold_left (nearer x k) cs' c)
  end.

(** The least number of digits [k], among those listed, that has a
    candidate. *)
Fixpoint shortest (m : positive) (e : Z) (ks : list Z) : option (Z * Z * Z) :=
  match ks with
  | [] => None
  | k :: ks' =>
      match nearest (Zpos m * 2 ^ e) k (candidates m e k) with
      | Some (s, n) => Some (s, n, k)
      | None => shortest m e ks'
      end
  end.

(** [Number::toString] for [m * 2^e >= 10^21]: the shortest digits that
    convert back to the number, in exponent notation.  Seventeen digits are
    always enough. *)
Definition toStringLarge (m : positive) (e : Z) : string :=
  match shortest m e (map Z.of_nat (seq 1 17)) with
  | Some (s, n, k) =>
      let d := decimal s in
      (if (k =? 1)%Z then d else sliceTo 1 d ++ "." ++ sliceFrom 1 d) ++
      "e+" ++ decimal (n - 1)
  | None => EmptyString
  end.

(** [x.toFixed(f)] for [f] from 0 to 100. *)
Definition toFixed (x : float) (f : nat) : string :=
  match Prim2SF x with
  | S754_nan => "NaN"
  | S754_infinity false => "Infinity"
  | S754_infinity true => "-Infinity"
  | S754_zero _ => fixedDigits f 0
  | S754_finite sign m e =>
      (if sign then "-" else "") ++
      (if atLeast1e21 m e then toStringLarge m e
       else fixedDigits f (roundHalfUp m e f))
  end.

(** ** The result formatter (lib/formatters.ts) *)

Module PositionRow.

Record t : Type := mk {
  date : string;
  address : string;
  project : string;
  protocol : string;
  symbol : string;
  balance : float;
  usd_balance : float;
  usd_exchange_rate : float;
  lending_id : string;
  mint : string;
  token_name : string
}.

End PositionRow.

(** The line feed of the template literals. *)
Definition nl : string := String "010" EmptyString.

Definition formatUSD (value : float) : string :=
  if (1000000 <=? value)%float then "$" ++ toFixed (value / 1000000) 2 ++ "M"
  else if (1000 <=? value)%float then "$" ++ toFixed (value / 1000) 2 ++ "K"
  else "$" ++ toFixed value 2.

Definition formatBalance (value : float) : string :=
  if (1000000 <=? value)%float then toFixed (value / 1000000) 4 ++ "M"
  else if (1000 <=? value)%float then toFixed (value / 1000) 4 ++ "K"
  else toFixed value 6.

Definition formatDate (dateStr : string) : string := splitHead "T" dateStr.

Definition shortAddr (address : string) : string :=
  sliceTo 4 address ++ "..." ++ sliceLast 4 address.

Definition dataSource : string :=
  nl ++ "_Data source: Allium `solana.lending.position_holdings_daily`_".

(** [rows.forEach((r) => (totalUSD += r.usd_balance))] from [totalUSD = 0],
    and the same sum written with [reduce]. *)
Definition sumUSD (rows : list PositionRow.t) : float :=
  fold_left (fun sum r => (sum + PositionRow.usd_balance r)%float) rows 0%float.

Definition positionLine (row : PositionRow.t) : string :=
  "| " ++ PositionRow.symbol row ++ " | " ++ PositionRow.project row ++ " (" ++
  PositionRow.protocol row ++ ") | " ++ formatBalance (PositionRow.balance row) ++
  " | " ++ formatUSD (PositionRow.usd_balance row) ++ " | $" ++
  toFixed (PositionRow.usd_exchange_rate row) 4 ++ " |" ++ nl.

Definition formatPositionTable (rows : list PositionRow.t) : string :=
  match rows with
  | [] =>
      "No positions found for this wallet on the specified date. The wallet may not have had any active Kamino lending positions, or the date may be outside the available data range (March 2025 onwards)."
  | row0 :: _ =>
      let date := formatDate (PositionRow.date row0) in
      let address := PositionRow.address row0 in
      let totalUSD := sumUSD rows in
      let md := "### Lending Positions for `" ++ shortAddr address ++ "` on " ++
                date ++ nl ++ nl in
      let md := md ++ "| Token | Protocol | Balance | USD Value | Price |" ++ nl in
      let md := md ++ "|-------|----------|---------|-----------|-------|" ++ nl in
      let md := fold_left (fun md row => md ++ positionLine row) rows md in
      let md := md ++ nl ++ "**Total Portfolio Value: " ++ formatUSD totalUSD ++
                "**" ++ nl in
      md ++ dataSource
  end.

(** *** [Map<string, PositionRow[]>] and [Set<string>], in insertion order *)

Definition RowMap : Type := list (string * list PositionRow.t).

Definition Map_has (k : string) (m : RowMap) : bool :=
  existsb (fun e => fst e =? k) m.

Definition Map_get (k : string) (m : RowMap) : option (list PositionRow.t) :=
  match find (fun e => fst e =? k) m with
  | Some e => Some (snd e)
  | None => None
  end.

(** [m.set(k, [])] for a key that [m] does not have. *)
Definition Map_setEmpty (k : string) (m : RowMap) : RowMap := (m ++ [(k, [])])%list.

(** [m.get(k).push(row)]. *)
Fixpoint Map_push (k : string) (row : PositionRow.t) (m : RowMap) : RowMap :=
  match m with
  | [] => []
  | e :: m' =>
      if fst e =? k then (fst e, (snd e ++ [row])%list) :: m'
      else e :: Map_push k row m'
  end.

Definition Map_keys (m : RowMap) : list string := map fst m.

(** [m.get(k) || []] for a key that may be [undefined]. *)
Definition getOrEmpty (k : option string) (m : RowMap) : list PositionRow.t :=
  match k with
  | Some k' =>
      match Map_get k' m with
      | Some rows => rows
      | None => []
      end
  | None => []
  end.

Definition Set_add (set : list string) (x : string) : list string :=
  if existsb (fun y => y =? x) set then set else (set ++ [x])%list.

(** [[...new Set(xs)]]: the distinct elements in order of first occurrence. *)
Definition unique (xs : list string) : list string := fold_left Set_add xs [].

(** [keys.sort()]: ascending in the order of the code units. *)
Fixpoint insertSorted (x : string) (l : list string) : list string :=
  match l with
  | [] => [x]
  | y :: l' => if (x <=? y)%string then x :: l else y :: insertSorted x l'
  end.

Definition sort (l : list string) : list string := fold_right insertSorted [] l.

(** A value that may be [undefined], as a template literal prints it. *)
Definition orUndefined (v : option string) : string :=
  match v with
  | Some s => s
  | None => "undefined"
  end.

Definition groupByDate (rows : list PositionRow.t) : RowMap :=
  fold_left
    (fun byDate row =>
       let d := formatDate (PositionRow.date row) in
       let byDate := if Map_has d byDate then byDate else Map_setEmpty d byDate in
       Map_push d row byDate)
    rows [].

(** The row of [symbol] on [date], if the range table shows one. *)
Definition symbolRow (byDate : RowMap) (symbol date : string) : option PositionRow.t :=
  find (fun r => PositionRow.symbol r =? symbol) (getOrEmpty (Some date) byDate).

Definition rangeLine (date : string) (row : PositionRow.t) : string :=
  "| " ++ date ++ " | " ++ formatBalance (PositionRow.balance row) ++ " | " ++
  formatUSD (PositionRow.usd_balance row) ++ " | $" ++
  toFixed (PositionRow.usd_exchange_rate row) 4 ++ " |" ++ nl.

(** The inner loop over [dates] for one symbol. *)
Definition symbolLines (byDate : RowMap) (dates : list string) (symbol : string)
  (md : string) : string :=
  fold_left
    (fun md date =>
       match symbolRow byDate symbol date with
       | Some row => md ++ rangeLine date row
       | None => md
       end)
    dates md.

(** The body of the loop over [symbols]. *)
Definition symbolTable (byDate : RowMap) (dates : list string) (md symbol : string)
  : string :=
  let md := md ++ "#### " ++ symbol ++ nl ++ nl in
  let md := md ++ "| Date | Balance | USD Value | Price |" ++ nl in
  let md := md ++ "|------|---------|-----------|-------|" ++ nl in
  let md := symbolLines byDate dates symbol md in
  md ++ nl.

(** The summary that closes the range report: the totals of the first and
    of the last date, their difference and its percentage. *)
Definition periodSummary (byDate : RowMap) (dates : list string) : string :=
  let startDate := nth_error dates 0 in
  let endDate := nth_error dates (List.length dates - 1) in
  let firstDate := getOrEmpty startDate byDate in
  let lastDate := getOrEmpty endDate byDate in
  let firstTotal := sumUSD firstDate in
  let lastTotal := sumUSD lastDate in
  let change := (lastTotal - firstTotal)%float in
  let pctChange :=
    if (0 <? firstTotal)%float
    then toFixed (change / firstTotal * 100) 2
    else "N/A" in
  "**Period Summary:**" ++ nl ++
  "- Start value (" ++ orUndefined startDate ++ "): " ++ formatUSD firstTotal ++ nl ++
  "- End value (" ++ orUndefined endDate ++ "): " ++ formatUSD lastTotal ++ nl ++
  "- Change: " ++ formatUSD change ++ " (" ++ pctChange ++ "%)" ++ nl ++
  dataSource.

Definition formatRangeTable (rows : list PositionRow.t) : string :=
  match rows with
  | [] => "No positions found for this wallet in the specified date range."
  | row0 :: _ =>
      let address := PositionRow.address row0 in
      let byDate := groupByDate rows in
      let symbols := unique (map PositionRow.symbol rows) in
      let dates := sort (Map_keys byDate) in
      let startDate := nth_error dates 0 in
      let endDate := nth_error dates (List.length dates - 1) in
      let md := "### Position History for `" ++ shortAddr address ++ "` (" ++
                orUndefined startDate ++ " to " ++ orUndefined endDate ++ ")" ++
                nl ++ nl in
      let md := fold_left (symbolTable byDate dates) symbols md in
      md ++ periodSummary byDate dates
  end.

(** [base > 0 ? ((change / base) * 100).toFixed(2) + "%" : "N/A"], the
    expression of the per-symbol and of the total percentage. *)
Definition percentChange (change base : float) : string :=
  if (0 <? base)%float then toFixed (change / base * 100) 2 ++ "%" else "N/A".

(** [r?.field ?? 0]. *)
Definition fieldOrZero (field : PositionRow.t -> float) (r : option PositionRow.t)
  : float :=
  match r with
  | Some row => field row
  | None => 0%float
  end.

Fixpoint repeatString (s : string) (n : nat) : string :=
  match n with
  | O => EmptyString
  | S k => s ++ repeatString s k
  end.

(** The state of the loop over [allSymbols]: the text so far and the two
    running totals. *)
Record ComparisonState : Type := {
  md : string;
  totalD1 : float;
  totalD2 : float
}.

Definition comparisonStep (d1Rows d2Rows : list PositionRow.t)
  (st : ComparisonState) (symbol : string) : ComparisonState :=
  let r1 := find (fun r => PositionRow.symbol r =? symbol) d1Rows in
  let r2 := find (fun r => PositionRow.symbol r =? symbol) d2Rows in
  let bal1 := fieldOrZero PositionRow.balance r1 in
  let usd1 := fieldOrZero PositionRow.usd_balance r1 in
  let bal2 := fieldOrZero PositionRow.balance r2 in
  let usd2 := fieldOrZero PositionRow.usd_balance r2 in
  let usdChange := (usd2 - usd1)%float in
  let pctChange := percentChange usdChange usd1 in
  {| md := md st ++ "| " ++ symbol ++ " | " ++ formatBalance bal1 ++ " | " ++
           formatUSD usd1 ++ " | " ++ formatBalance bal2 ++ " | " ++
           formatUSD usd2 ++ " | " ++ formatUSD usdChange ++ " | " ++
           pctChange ++ " |" ++ nl;
     totalD1 := (totalD1 st + usd1)%float;
     totalD2 := (totalD2 st + usd2)%float |}.

Definition formatComparisonTable (rows : list PositionRow.t) (date1 date2 : string)
  : string :=
  match rows with
  | [] => "No positions found for comparison on the specified dates."
  | row0 :: _ =>
      let address := PositionRow.address row0 in
      let d1Rows := filter (fun r => formatDate (PositionRow.date r) =? date1) rows in
      let d2Rows := filter (fun r => formatDate (PositionRow.date r) =? date2) rows in
      let allSymbols :=
        unique (map PositionRow.symbol d1Rows ++ map PositionRow.symbol d2Rows)%list in
      let head := "### Position Comparison for `" ++ shortAddr address ++ "`: " ++
                  date1 ++ " vs " ++ date2 ++ nl ++ nl in
      let head := head ++ "| Token | Balance (" ++ date1 ++ ") | USD (" ++ date1 ++
                  ") | Balance (" ++ date2 ++ ") | USD (" ++ date2 ++
                  ") | Change | % Change |" ++ nl in
      let head := head ++ "|-------|" ++ repeatString "-" 18 ++ "|" ++
                  repeatString "-" 16 ++ "|" ++ repeatString "-" 18 ++ "|" ++
                  repeatString "-" 16 ++ "|--------|----------|" ++ nl in
      let st := fold_left (comparisonStep d1Rows d2Rows) allSymbols
                  {| md := head; totalD1 := 0; totalD2 := 0 |} in
      let totalChange := (totalD2 st - totalD1 st)%float in
      let totalPct := percentChange totalChange (totalD1 st) in
      let out := md st ++ nl ++ "**Total Portfolio:**" ++ nl in
      let out := out ++ "- " ++ date1 ++ ": " ++ formatUSD (totalD1 st) ++ nl in
      let out := out ++ "- " ++ date2 ++ ": " ++ formatUSD (totalD2 st) ++ nl in
      let out := out ++ "- Change: " ++ formatUSD totalChange ++ " (" ++ totalPct ++
                 ")" ++ nl in
      out ++ dataSource
  end.

(** ** The dispatch of a parsed intent (the [POST] handler of the chat route) *)

Definition quote : string := String "034" EmptyString.

Definition helpText : string :=
  "I can help you look up historical DeFi lending positions on Solana (Kamino). Try:" ++
  nl ++ nl ++
  "- **Snapshot:** " ++ quote ++ "Show me positions for `<wallet>` on 2025-12-31" ++
  quote ++ nl ++
  "- **Range:** " ++ quote ++
  "Show me positions for `<wallet>` from 2025-10-01 to 2025-12-31" ++ quote ++ nl ++
  "- **Compare:** " ++ quote ++
  "Compare `<wallet>` positions on 2025-09-30 vs 2025-12-31" ++ quote ++ nl ++ nl ++
  "Available tokens: USDC, SOL, USDG, PYUSD, USDT, USDS" ++ nl ++
  "Date range: March 2025 to present".

(** [v || fallback]. *)
Definition orElse (v : option string) (fallback : string) : string :=
  match v with
  | Some s => if truthy v then s else fallback
  | None => fallback
  end.

(** A call of one of the three query builders, with its arguments. *)
Inductive BuilderCall : Type :=
| CallPositionQuery (address date : string) (protocol : option string)
| CallPositionRangeQuery (address startDate endDate : string)
    (protocol : option string)
| CallComparisonQuery (address date1 date2 : string) (protocol : option string).

Definition runBuilder (call : BuilderCall) : string :=
  match call with
  | CallPositionQuery a d p => buildPositionQuery a d p
  | CallPositionRangeQuery a s e p => buildPositionRangeQuery a s e p
  | CallComparisonQuery a d1 d2 p => buildComparisonQuery a d1 d2 p
  end.

(** What the handler decides from the parsed intent alone: an immediate
    response, or the builder call whose query it goes on to execute and the
    formatter for the rows. *)
Inductive Dispatch : Type :=
| Reply (response query_type : string)
| RunQuery (call : BuilderCall) (format : list PositionRow.t -> string)
    (query_type : string).

(** The three explanations of a missing field. *)
Definition needSnapshotFields : string :=
  "I need both a wallet address and a date. Try: 'Show me positions for `<wallet>` on 2025-12-31'".

Definition needRangeFields : string :=
  "I need a wallet address, start date, and end date. Try: 'Show positions for `<wallet>` from 2025-10-01 to 2025-12-31'".

Definition needComparisonFields : string :=
  "I need a wallet address and two dates to compare. Try: 'Compare `<wallet>` on 2025-09-30 vs 2025-12-31'".

Definition dispatch (parsed : ParsedQuery.t) : Dispatch :=
  let ty := ParsedQuery.type parsed in
  if ty =? "help" then Reply (orElse (ParsedQuery.message parsed) helpText) "help"
  else if ty =? "error" then
    Reply (orElse (ParsedQuery.message parsed) "I couldn't understand that query.")
      "error"
  else if ty =? "snapshot" then
    let missing := Reply needSnapshotFields "error" in
    match ParsedQuery.address parsed, ParsedQuery.date parsed with
    | Some address, Some date =>
        if (address =? "") || (date =? "") then missing
        else RunQuery (CallPositionQuery address date (ParsedQuery.protocol parsed))
               formatPositionTable ty
    | _, _ => missing
    end
  else if ty =? "range" then
    let missing := Reply needRangeFields "error" in
    match ParsedQuery.address parsed, ParsedQuery.start_date parsed,
          ParsedQuery.end_date parsed with
    | Some address, Some start_date, Some end_date =>
        if (address =? "") || (start_date =? "") || (end_date =? "") then missing
        else RunQuery
               (CallPositionRangeQuery address start_date end_date
                  (ParsedQuery.protocol parsed))
               formatRangeTable ty
    | _, _, _ => missing
    end
  else if ty =? "comparison" then
    let missing := Reply needComparisonFields "error" in
    match ParsedQuery.address parsed, ParsedQuery.date1 parsed,
          ParsedQuery.date2 parsed with
    | Some address, Some date1, Some date2 =>
        if (address =? "") || (date1 =? "") || (date2 =? "") then missing
        else RunQuery
               (CallComparisonQuery address date1 date2 (ParsedQuery.protocol parsed))
               (fun rows => formatComparisonTable rows date1 date2) ty
    | _, _, _ => missing
    end
  else Reply "Unsupported query type." "error".

Record ChatResponse : Type := {
  response : string;
  query_type : string;
  sql : option string;
  status : nat
}.

(** The handler from the parsed intent on.  [queryAllium] is the query
    execution service: the rows of its answer, or its failure. *)
Definition handleParsed (queryAllium : string -> result (list PositionRow.t))
  (parsed : ParsedQuery.t) : ChatResponse :=
  match dispatch parsed with
  | Reply r q => {| response := r; query_type := q; sql := None; status := 200 |}
  | RunQuery call format q =>
      let text := runBuilder call in
      match queryAllium text with
      | Ok rows =>
          {| response := format rows; query_type := q; sql := Some text;
             status := 200 |}
      | Throw err =>
          {| response := "Something went wrong: " ++ err; query_type := "error";
             sql := None; status := 500 |}
      end
  end.

(** ** The numbers of a JSON text *)

(** The value of a string of decimal digits after the digits [acc]. *)
Fixpoint digitsValue (acc : Z) (s : string) : Z :=
  match s with
  | EmptyString => acc
  | String c s' => digitsValue (10 * acc + Z.of_N (N_of_ascii c - 48)) s'
  end.

(** A number literal of the JSON grammar as its sign, its digits and its
    decimal exponent: the literal denotes [digits * 10^exponent], negated
    when the sign is set. *)
Definition literalParts (lit : string) : bool * Z * Z :=
  let (neg, s0) :=
    match lit with
    | String "-" s' => (true, s')
    | _ => (false, lit)
    end in
  let (int, s1) := spanDigits s0 in
  let (frac, s2) :=
    match s1 with
    | String "." s' => spanDigits s'
    | _ => (EmptyString, s1)
    end in
  let ex :=
    match s2 with
    | String _ (String "-" ds) => (- digitsValue 0 ds)%Z
    | String _ (String "+" ds) => digitsValue 0 ds
    | String _ ds => digitsValue 0 ds
    | EmptyString => 0%Z
    end in
  (neg, digitsValue 0 (int ++ frac), (ex - Z.of_nat (String.length frac))%Z).

(** The integer part of the binary logarithm of [p / q]. *)
Definition floorLog2 (p q : Z) : Z :=
  let l := (Z.log2 p - Z.log2 q)%Z in
  let reached :=
    if (0 <=? l)%Z then (q * 2 ^ l <=? p)%Z else (q <=? p * 2 ^ (- l))%Z in
  if reached then l else (l - 1)%Z.

(** The integer nearest to [num / den], the even one of two. *)
Definition nearestEven (num den : Z) : Z :=
  let qt := (num / den)%Z in
  let r := (num mod den)%Z in
  if (den <? 2 * r)%Z || ((den =? 2 * r)%Z && Z.odd qt) then (qt + 1)%Z else qt.

(** The binary64 number nearest to [p / q] (round to nearest, ties to even),
    for [p >= 0] and [q > 0]: a mantissa of 53 bits, or of fewer bits at the
    least exponent; infinity from [2^1024] on. *)
Definition toBinary64 (neg : bool) (p q : Z) : spec_float :=
  if (p =? 0)%Z then S754_zero neg
  else
    let e := Z.max (floorLog2 p q - 52) (-1074) in
    let m :=
      if (0 <=? e)%Z then nearestEven p (q * 2 ^ e) else nearestEven (p * 2 ^ (- e)) q in
    let (m, e) := if (m =? 2 ^ 53)%Z then ((2 ^ 52)%Z, (e + 1)%Z) else (m, e) in
    match m with
    | Zpos m' => if (971 <? e)%Z then S754_infinity neg else S754_finite neg m' e
    | _ => S754_zero neg
    end.

(** The Number value of a number literal.  A literal of more than 310
    digits before the point is infinite, one that begins more than 330
    places after the point is zero, whatever its digits. *)
Definition literalValue (lit : string) : spec_float :=
  let '(neg, digits, ex) := literalParts lit in
  let size := (Z.of_nat (String.length (decimal digits)) + ex)%Z in
  if (digits =? 0)%Z then S754_zero neg
  else if (310 <? size)%Z then S754_infinity neg
  else if (size <? -330)%Z then S754_zero neg
  else if (0 <=? ex)%Z then toBinary64 neg (digits * 10 ^ ex) 1
  else toBinary64 neg digits (10 ^ (- ex)).

(** ** [Number::toString] *)

(** [x * 2^a] compared with [y * 10^b]. *)
Definition compareScaled (x a y b : Z) : comparison :=
  (x * 2 ^ Z.max a 0 * 10 ^ Z.max (- b) 0 ?= y * 10 ^ Z.max b 0 * 2 ^ Z.max (- a) 0)%Z.

(** The decimal [s * 10^p] converts to the binary64 number [m * 2^e]: it
    lies between the midpoints to the two neighbours, a midpoint itself
    going to the even mantissa.  The neighbour below a power of two is half
    as far as the one above. *)
Definition convertsTo (m : positive) (e s p : Z) : bool :=
  let below := if (Zpos m =? 2 ^ 52)%Z && (-1074 <? e)%Z then 1%Z else 2%Z in
  let lo := compareScaled (4 * Zpos m - below) (e - 2) s p in
  let hi := compareScaled (4 * Zpos m + 2) (e - 2) s p in
  match lo, hi with
  | Lt, Gt => true
  | Eq, _ | _, Eq => Z.even (Zpos m)
  | _, _ => false
  end.

(** The integer part of [m * 2^e / 10^p]. *)
Definition floorScaled (m : positive) (e p : Z) : Z :=
  ((Zpos m * 2 ^ Z.max e 0 * 10 ^ Z.max (- p) 0) /
   (2 ^ Z.max (- e) 0 * 10 ^ Z.max p 0))%Z.

(** The pairs [(s, n)] with [s] of [k] digits for which [s * 10^(n-k)]
    converts to [m * 2^e]. *)
Definition digitCandidates (m : positive) (e k : Z) : list (Z * Z) :=
  let n1 := ((Z.log2 (Zpos m) + e) * 30103 / 100000)%Z in
  flat_map
    (fun n =>
       let p := (n - k)%Z in
       let s0 := floorScaled m e p in
       filter
         (fun c : Z * Z =>
            let s := fst c in
            (10 ^ (k - 1) <=? s)%Z && (s <? 10 ^ k)%Z && convertsTo m e s p)
         [(s0, n); ((s0 + 1)%Z, n)])
    [(n1 - 1)%Z; n1; (n1 + 1)%Z; (n1 + 2)%Z; (n1 + 3)%Z].

(** The distance of [s * 10^(n-k)] to [m * 2^e], in units of
    [2^-a * 10^-b]. *)
Definition distance (m : positive) (e k a b : Z) (c : Z * Z) : Z :=
  Z.abs (fst c * 10 ^ (snd c - k + b) * 2 ^ a - Zpos m * 2 ^ (e + a) * 10 ^ b).

(** Of two candidates the one nearer to the number, the even one when both
    are as near. *)
Definition nearerDigits (m : positive) (e k : Z) (c1 c2 : Z * Z) : Z * Z :=
  let a := Z.max (- e) 0 in
  let b := Z.max (Z.max (k - snd c1) (k - snd c2)) 0 in
  let d1 := distance m e k a b c1 in
  let d2 := distance m e k a b c2 in
  if (d1 <? d2)%Z then c1
  else if (d2 <? d1)%Z then c2
  else if Z.even (fst c1) then c1 else c2.

(** The digits [s], their number [k] and the exponent [n] of the shortest
    decimal that converts to [m * 2^e]; seventeen digits are always
    enough. *)
Fixpoint shortestDigits (m : positive) (e : Z) (ks : list Z) : option (Z * Z * Z) :=
  match ks with
  | [] => None
  | k :: ks' =>
      match digitCandidates m e k with
      | [] => shortestDigits m e ks'
      | c :: cs =>
          let (s, n) := fold_left (nearerDigits m e k) cs c in Some (s, n, k)
      end
  end.

(** The notation of [Number::toString] for the digits [d] (there are [k]
    of them) and the exponent [n]. *)
Definition numberNotation (d : string) (k n : Z) : string :=
  if (k <=? n)%Z && (n <=? 21)%Z then d ++ zeros (Z.to_nat (n - k))
  else if (0 <? n)%Z && (n <=? 21)%Z then
    sliceTo (Z.to_nat n) d ++ "." ++ sliceFrom (Z.to_nat n) d
  else if (-6 <? n)%Z && (n <=? 0)%Z then "0." ++ zeros (Z.to_nat (- n)) ++ d
  else
    (if (k =? 1)%Z then d else sliceTo 1 d ++ "." ++ sliceFrom 1 d) ++
    "e" ++ (if (0 <=? n - 1)%Z then "+" else "-") ++ decimal (Z.abs (n - 1)).

(** [Number::toString] in radix ten. *)
Definition numberToString (x : spec_float) : string :=
  match x with
  | S754_nan => "NaN"
  | S754_zero _ => "0"
  | S754_infinity neg => (if neg then "-" else "") ++ "Infinity"
  | S754_finite neg m e =>
      (if neg then "-" else "") ++
      match shortestDigits m e (map Z.of_nat (seq 1 17)) with
      | Some (s, n, k) => numberNotation (decimal s) k n
      | None => EmptyString
      end
  end.

(** ** The query execution client (lib/allium.ts) *)

(** *** The conversions of a JSON value *)

(** [ToBoolean]: [null], [false], the two zeros and the empty string are
    falsy. *)
Definition ToBoolean (v : JSValue) : bool :=
  match v with
  | JNull => false
  | JBool b => b
  | JNumber lit =>
      match literalValue lit with
      | S754_zero _ => false
      | _ => true
      end
  | JString s => negb (s =? "")
  | JArray _ | JObject _ => true
  end.

(** [ToString], as a template literal and [JSON.parse] apply it to their
    argument.  An array is the texts of its elements between commas, with
    nothing for [null]; an object is ["[object Object]"], and a [TypeError]
    when a member of its own named [toString] hides the method that it
    inherits. *)
Fixpoint ToString (v : JSValue) : result string :=
  match v with
  | JNull => Ok "null"
  | JBool true => Ok "true"
  | JBool false => Ok "false"
  | JNumber lit => Ok (numberToString (literalValue lit))
  | JString s => Ok s
  | JArray items =>
      parts <-
        (fix elements (l : list JSValue) : result (list string) :=
           match l with
           | [] => Ok []
           | x :: l' =>
               s <- match x with
                    | JNull => Ok ""
                    | _ => ToString x
                    end ;;
               rest <- elements l' ;;
               Ok (s :: rest)
           end) items ;;
      Ok (join "," parts)
  | JObject props =>
      match lookupProp "toString" props with
      | Some _ => Throw "TypeError"
      | None => Ok "[object Object]"
      end
  end.

(** A value that may be [undefined]: its truthiness, and its text in a
    template literal. *)
Definition truthyValue (v : option JSValue) : bool :=
  match v with
  | Some v' => ToBoolean v'
  | None => false
  end.

Definition templateText (v : option JSValue) : result string :=
  match v with
  | Some v' => ToString v'
  | None => Ok "undefined"
  end.

(** [v?.k]: [undefined] for [undefined] and [null]. *)
Definition getOptional (k : string) (v : option JSValue) : option JSValue :=
  match v with
  | None | Some JNull => None
  | Some v' => getProp k v'
  end.

(** [v?.[0]]: the first element of an array, the member ["0"] of an object,
    the first character of a string. *)
Definition firstOptional (v : option JSValue) : option JSValue :=
  match v with
  | Some (JArray (x :: _)) => Some x
  | Some (JObject props) => lookupProp "0" props
  | Some (JString (String c _)) => Some (JString (String c ""))
  | _ => None
  end.

(** *** The request *)

Definition hexDigit (n : N) : ascii :=
  if (n <? 10)%N then ascii_of_N (48 + n) else ascii_of_N (87 + n).

(** The text of one character inside a JSON string literal, as
    [JSON.stringify] writes it: the quote, the backslash and the control
    characters are escaped. *)
Definition escapeChar (c : ascii) : string :=
  if Ascii.eqb c "034" then String "\" quote
  else if Ascii.eqb c "\" then "\\"
  else if Ascii.eqb c "008" then "\b"
  else if Ascii.eqb c "012" then "\f"
  else if Ascii.eqb c "010" then "\n"
  else if Ascii.eqb c "013" then "\r"
  else if Ascii.eqb c "009" then "\t"
  else if (N_of_ascii c <? 32)%N then
    "\u00" ++ String (hexDigit (N_of_ascii c / 16)) (String (hexDigit (N_of_ascii c mod 16)) "")
  else String c "".

Fixpoint escapeChars (s : string) : string :=
  match s with
  | EmptyString => EmptyString
  | String c s' => escapeChar c ++ escapeChars s'
  end.

(** [JSON.stringify(s)] for a string [s]. *)
Definition JSON_quote (s : string) : string := quote ++ escapeChars s ++ quote.

(** The body of the request: [JSON.stringify] of the call of the tool
    [explorer_run_sql] with the query as its only argument. *)
Definition requestBody (sql : string) : string :=
  "{" ++ JSON_quote "jsonrpc" ++ ":" ++ JSON_quote "2.0" ++ "," ++
  JSON_quote "id" ++ ":1," ++
  JSON_quote "method" ++ ":" ++ JSON_quote "tools/call" ++ "," ++
  JSON_quote "params" ++ ":{" ++
  JSON_quote "name" ++ ":" ++ JSON_quote "explorer_run_sql" ++ "," ++
  JSON_quote "arguments" ++ ":{" ++ JSON_quote "sql" ++ ":" ++ JSON_quote sql ++ "}}}".

(** The value that the body of the request denotes. *)
Definition requestValue (sql : string) : JSValue :=
  JObject
    [("jsonrpc", JString "2.0"); ("id", JNumber "1"); ("method", JString "tools/call");
     ("params",
      JObject
        [("name", JString "explorer_run_sql");
         ("arguments", JObject [("sql", JString sql)])])].

(** *** The response *)

Module HttpResponse.

(** What the client reads of a response: [res.ok], [res.status] and the
    text of the body. *)
Record t : Type := mk {
  ok : bool;
  status : nat;
  text : string
}.

End HttpResponse.

(** What the client reads from the outside: the credential of the process
    environment, and the answer of the service to a request with a given
    credential and body, a response or a failure of [fetch]. *)
Record AlliumService : Type := {
  ALLIUM_API_KEY : option string;
  fetch : string -> string -> result HttpResponse.t
}.

(** [s.split(sep)] for a one-character separator. *)
Fixpoint split (sep : ascii) (s : string) : list string :=
  match s with
  | EmptyString => [EmptyString]
  | String c s' =>
      if Ascii.eqb c sep then EmptyString :: split sep s'
      else
        match split sep s' with
        | line :: lines => String c line :: lines
        | [] => [String c EmptyString]
        end
  end.

(** The lines of [queryAllium] after [JSON.parse]: the error of the
    JSON-RPC response, its structured content, the text of its first
    content block.  Reading a member of [null] is a [TypeError]. *)
Definition rpcResult (rpcResponse : JSValue) : result JSValue :=
  match rpcResponse with
  | JNull => Throw "TypeError"
  | _ =>
      let error := getProp "error" rpcResponse in
      if truthyValue error then
        message <- templateText (getOptional "message" error) ;;
        Throw ("Allium query error: " ++ message)
      else
        let result := getOptional "structuredContent" (getProp "result" rpcResponse) in
        let textContent :=
          getOptional "text"
            (firstOptional (getOptional "content" (getProp "result" rpcResponse))) in
        let fromText :=
          if truthyValue textContent then
            text <- templateText textContent ;; JSON_parse text
          else Throw "No result data in Allium response" in
        match result with
        | Some content => if ToBoolean content then Ok content else fromText
        | None => fromText
        end
  end.

(** [queryAllium]: the value that the call returns, typed [AlliumResponse]
    by a cast with no run-time content, or the exception that it throws.
    A line found by [find] starts with [data: ] and so is truthy. *)
Definition queryAllium (service : AlliumService) (sql : string) : result JSValue :=
  match ALLIUM_API_KEY service with
  | Some apiKey =>
      if apiKey =? "" then Throw "ALLIUM_API_KEY is not set"
      else
        res <- fetch service apiKey (requestBody sql) ;;
        if negb (HttpResponse.ok res) then
          Throw ("Allium API error (" ++ decimal (Z.of_nat (HttpResponse.status res)) ++
                 "): " ++ HttpResponse.text res)
        else
          match find (fun line => startsWith line "data: ")
                  (split "010" (HttpResponse.text res)) with
          | Some dataLine =>
              rpcResponse <- JSON_parse (sliceFrom 6 dataLine) ;;
              rpcResult rpcResponse
          | None => Throw "No data in Allium response"
          end
  | None => Throw "ALLIUM_API_KEY is not set"
  end.

(** ** The CSV export of a report (the chat page) *)

Module Message.

(** A message of the conversation. *)
Record t : Type := mk {
  role : string;
  content : string;
  sql : option string;
  query_type : option string
}.

End Message.

(** The row of one table line: the texts between the bars, the empty ones
    dropped, each trimmed, with commas between them. *)
Definition csvRow (line : string) : string :=
  join "," (map trim (filter (fun cell => negb (cell =? "")) (split "|" line))).

(** The text of the file that [handleExportCsv] offers for the message at
    [msgIndex]; [None] when it returns without a file: no such message, a
    message without content, or fewer than two lines that start with a
    bar. *)
Definition handleExportCsv (messages : list Message.t) (msgIndex : nat) : option string :=
  match nth_error messages msgIndex with
  | Some msg =>
      if Message.content msg =? "" then None
      else
        let lines :=
          filter (fun l => startsWith l "|") (split "010" (Message.content msg)) in
        if (List.length lines <? 2)%nat then None
        else
          let csvRows :=
            map csvRow (filter (fun l => negb (includes l "---")) lines) in
          Some (join nl csvRows)
  | None => None
  end.

(** * Vocabulary of the properties *)

(** Every character of a text is in a class. *)
Fixpoint allChars (p : ascii -> bool) (s : string) : bool :=
  match s with
  | EmptyString => true
  | String c s' => p c && allChars p s'
  end.

(** [t] occurs in [msg] at index [i]. *)
Definition occursAt (t msg : string) (i : nat) : Prop :=
  exists pre post, msg = pre ++ t ++ post /\ String.length pre = i.

(** A text of the shape [dddd-dd-dd]. *)
Definition isDateText (d : string) : bool :=
  match matchDateAt d with
  | Some d' => d' =? d
  | None => false
  end.

(** The date [d] is the leftmost match of the date pattern at or after the
    index [start] of [msg], and it begins at index [i]. *)
Definition firstDateFrom (msg : string) (start i : nat) (d : string) : Prop :=
  start <= i /\ isDateText d = true /\ occursAt d msg i /\
  forall k d', start <= k < i -> isDateText d' = true -> ~ occursAt d' msg k.

(** A wallet address: 32 to 44 characters of the base58 alphabet. *)
Definition isAddress (a : string) : Prop :=
  32 <= String.length a <= 44 /\ allChars isBase58 a = true.

Definition sampleWallet : string := "7xKXtg2CW87d97TXJSDpbD5jBkheTqA83TZRuJosgAsU".

(** What the three parsers leave is no longer than what they were given. *)
Definition leavesNoMore (f : nat) : Prop :=
  (forall s v rest,
     parseValue f s = Some (v, rest) -> String.length rest <= String.length s) /\
  (forall s acc v rest,
     parseElements f s acc = Some (v, rest) -> String.length rest <= String.length s) /\
  (forall s acc v rest,
     parseMembers f s acc = Some (v, rest) -> String.length rest <= String.length s).

(** More fuel changes no result. *)
Definition keepsResults (f : nat) : Prop :=
  (forall s r, parseValue f s = Some r -> parseValue (S f) s = Some r) /\
  (forall s acc r, parseElements f s acc = Some r -> parseElements (S f) s acc = Some r) /\
  (forall s acc r, parseMembers f s acc = Some r -> parseMembers (S f) s acc = Some r).

(** Twice the length of the text is fuel enough. *)
Definition enoughFuel (f : nat) : Prop :=
  (forall s r, parseValue f s = Some r ->
               parseValue (2 * String.length s + 1) s = Some r) /\
  (forall s acc r, parseElements f s acc = Some r ->
                   parseElements (2 * String.length s + 2) s acc = Some r) /\
  (forall s acc r, parseMembers f s acc = Some r ->
                   parseMembers (2 * String.length s + 2) s acc = Some r).

(** A world with a credential whose model answers every message with the
    one text block [text]. *)
Definition replyingWorld (text : string) : World :=
  {| ANTHROPIC_API_KEY := Some "sk-test";
     messages_create := fun _ => Ok [TextBlock text] |}.

Definition unknownKindReply : string :=
  "{" ++ quote ++ "type" ++ quote ++ ": " ++ quote ++ "portfolio" ++ quote ++ "}".

(** The protocol filter as it stands in the text of a query: present for a
    protocol that is given and not empty (JavaScript truthiness), absent
    otherwise. *)
Definition protocolFilter (protocol : option string) : string :=
  match protocol with
  | Some p => if p =? "" then "" else " AND project = '" ++ toLowerCase p ++ "'"
  | None => ""
  end.

(** The lines of a table, one after the other. *)
Definition concatLines (lines : list string) : string :=
  fold_right String.append "" lines.

Definition sampleRow (date symbol : string) (balance usd : float) : PositionRow.t :=
  PositionRow.mk date sampleWallet "kamino" "kvault" symbol balance usd 1 "lending"
    "mint" "token".

(** The heading and the column titles of the snapshot report. *)
Definition positionHead (row0 : PositionRow.t) : string :=
  "### Lending Positions for `" ++ shortAddr (PositionRow.address row0) ++ "` on " ++
  formatDate (PositionRow.date row0) ++ nl ++ nl ++
  "| Token | Protocol | Balance | USD Value | Price |" ++ nl ++
  "|-------|----------|---------|-----------|-------|" ++ nl.

(** The heading and the column titles of the comparison report. *)
Definition comparisonHead (row0 : PositionRow.t) (date1 date2 : string) : string :=
  "### Position Comparison for `" ++ shortAddr (PositionRow.address row0) ++ "`: " ++
  date1 ++ " vs " ++ date2 ++ nl ++ nl ++
  "| Token | Balance (" ++ date1 ++ ") | USD (" ++ date1 ++ ") | Balance (" ++ date2 ++
  ") | USD (" ++ date2 ++ ") | Change | % Change |" ++ nl ++
  "|-------|------------------|----------------|------------------|----------------|--------|----------|" ++
  nl.

(** Two rows of one symbol on one (normalised) date. *)
Definition sameKey (r r' : PositionRow.t) : bool :=
  (formatDate (PositionRow.date r) =? formatDate (PositionRow.date r')) &&
  (PositionRow.symbol r =? PositionRow.symbol r').

(** The rows that are the first of their symbol and date, after the rows
    [seen]. *)
Fixpoint firstRows (seen rows : list PositionRow.t) : list PositionRow.t :=
  match rows with
  | [] => []
  | r :: rest =>
      if existsb (sameKey r) seen then firstRows seen rest
      else r :: firstRows (seen ++ [r]) rest
  end.

(** The rows of the (normalised) date [d], in the order of the row set. *)
Definition rowsOn (d : string) (rows : list PositionRow.t) : list PositionRow.t :=
  filter (fun r => formatDate (PositionRow.date r) =? d) rows.

(** The dates and rows that the table of [symbol] shows, in its order. *)
Definition rangeSeries (rows : list PositionRow.t) (symbol : string)
  : list (string * PositionRow.t) :=
  flat_map
    (fun d =>
       match symbolRow (groupByDate rows) symbol d with
       | Some row => [(d, row)]
       | None => []
       end)
    (sort (Map_keys (groupByDate rows))).

(** What the map holds for a date: its rows, if it has any. *)
Definition holds (m : RowMap) (rows : list PositionRow.t) : Prop :=
  forall d, Map_get d m =
            match rowsOn d rows with
            | [] => None
            | l => Some l
            end.

(** The heading of the range report and the header of one table. *)
Definition rangeHead (row0 : PositionRow.t) (dates : list string) : string :=
  "### Position History for `" ++ shortAddr (PositionRow.address row0) ++ "` (" ++
  orUndefined (nth_error dates 0) ++ " to " ++
  orUndefined (nth_error dates (List.length dates - 1)) ++ ")" ++ nl ++ nl.

Definition tableHead (symbol : string) : string :=
  "#### " ++ symbol ++ nl ++ nl ++
  "| Date | Balance | USD Value | Price |" ++ nl ++
  "|------|---------|-----------|-------|" ++ nl.

(** A decimal numeral with exactly [f] digits after the point: an optional
    minus sign, at least one digit, the point and [f] digits. *)
Definition hasDecimals (f : nat) (text : string) : Prop :=
  exists sign int frac,
    text = sign ++ int ++ "." ++ frac /\ (sign = "" \/ sign = "-") /\
    int <> "" /\ allChars isDigit int = true /\
    allChars isDigit frac = true /\ String.length frac = f.

(** A finite number below [10^21] in magnitude, which [toFixed] writes in
    fixed notation. *)
Definition fixedRange (x : float) : bool :=
  match Prim2SF x with
  | S754_zero _ => true
  | S754_finite _ m e => negb (atLeast1e21 m e)
  | _ => false
  end.

(** The two explanations of the fallback parser. *)
Definition needAddressText : string :=
  "I need a Solana wallet address. Try: 'Show me positions for `<wallet_address>` on 2025-12-31'".

Definition needDateText : string :=
  "I found a wallet address but need a date. Try: 'Show me positions for `<wallet>` on 2025-12-31'".

(** The intents of the fallback parser, by kind. *)
Definition errorIntent (text : string) : ParsedQuery.t :=
  ParsedQuery.mk "error" None None None None None None None (Some text).

Definition snapshotIntent (a d : string) : ParsedQuery.t :=
  ParsedQuery.mk "snapshot" (Some a) (Some d) None None None None None None.

Definition rangeIntent (a s e : string) : ParsedQuery.t :=
  ParsedQuery.mk "range" (Some a) None (Some s) (Some e) None None None None.

Definition comparisonIntent (a d1 d2 : string) : ParsedQuery.t :=
  ParsedQuery.mk "comparison" (Some a) None None None (Some d1) (Some d2) None None.

(** The text starts with a character of the class. *)
Definition startsWithClass (p : ascii -> bool) (s : string) : bool :=
  match s with
  | String c _ => p c
  | EmptyString => false
  end.

(** The dates [ds] are the successive matches of the date pattern in [msg]
    from the index [start] on: each one the leftmost match that begins at or
    after the end of the one before, and no match after the last. *)
Inductive datesFrom (msg : string) : nat -> list string -> Prop :=
| datesFrom_nil (start : nat) :
    (forall k d, start <= k -> isDateText d = true -> ~ occursAt d msg k) ->
    datesFrom msg start []
| datesFrom_cons (start i : nat) (d : string) (rest : list string) :
    firstDateFrom msg start i d -> datesFrom msg (i + 10) rest ->
    datesFrom msg start (d :: rest).

(** The number of occurrences of a character. *)
Fixpoint countChar (c : ascii) (s : string) : nat :=
  match s with
  | EmptyString => 0
  | String x s' => (if Ascii.eqb x c then 1 else 0) + countChar c s'
  end.

(** The characters of a date. *)
Definition isDateChar (c : ascii) : bool := isDigit c || Ascii.eqb c "-".

(** The quote of an SQL string literal. *)
Definition sqlQuote : ascii := "'".

(** The quotes that a protocol filter brings into a query. *)
Definition protocolQuotes (protocol : option string) : nat :=
  match protocol with
  | Some p => if p =? "" then 0 else 2 + countChar sqlQuote p
  | None => 0
  end.

(** The normalised date of a row. *)
Definition rowDate (r : PositionRow.t) : string := formatDate (PositionRow.date r).

(** The first row of a symbol among the rows of one date, and its figures
    as the comparison report reads them. *)
Definition firstOf (symbol : string) (rows : list PositionRow.t) : option PositionRow.t :=
  find (fun r => PositionRow.symbol r =? symbol) rows.

Definition usdOf (symbol : string) (rows : list PositionRow.t) : float :=
  fieldOrZero PositionRow.usd_balance (firstOf symbol rows).

Definition balanceOf (symbol : string) (rows : list PositionRow.t) : float :=
  fieldOrZero PositionRow.balance (firstOf symbol rows).

(** The line of a symbol in the comparison report. *)
Definition comparisonLine (d1Rows d2Rows : list PositionRow.t) (symbol : string)
  : string :=
  "| " ++ symbol ++ " | " ++ formatBalance (balanceOf symbol d1Rows) ++ " | " ++
  formatUSD (usdOf symbol d1Rows) ++ " | " ++ formatBalance (balanceOf symbol d2Rows) ++
  " | " ++ formatUSD (usdOf symbol d2Rows) ++ " | " ++
  formatUSD (usdOf symbol d2Rows - usdOf symbol d1Rows) ++ " | " ++
  percentChange (usdOf symbol d2Rows - usdOf symbol d1Rows) (usdOf symbol d1Rows) ++
  " |" ++ nl.

(** The sum of the figures of the listed symbols, in their order. *)
Definition sumOver (symbols : list string) (figure : string -> float) : float :=
  fold_left (fun sum s => (sum + figure s)%float) symbols 0%float.

(** The closing lines of the comparison report for the two totals. *)
Definition comparisonTotals (date1 date2 : string) (total1 total2 : float) : string :=
  nl ++ "**Total Portfolio:**" ++ nl ++
  "- " ++ date1 ++ ": " ++ formatUSD total1 ++ nl ++
  "- " ++ date2 ++ ": " ++ formatUSD total2 ++ nl ++
  "- Change: " ++ formatUSD (total2 - total1) ++ " (" ++
  percentChange (total2 - total1) total1 ++ ")" ++ nl ++ dataSource.

(** The period summary of the range report for the totals of its first and
    last date. *)
Definition summaryText (first last : string) (firstTotal lastTotal : float) : string :=
  "**Period Summary:**" ++ nl ++
  "- Start value (" ++ first ++ "): " ++ formatUSD firstTotal ++ nl ++
  "- End value (" ++ last ++ "): " ++ formatUSD lastTotal ++ nl ++
  "- Change: " ++ formatUSD (lastTotal - firstTotal) ++ " (" ++
  (if (0 <? firstTotal)%float
   then toFixed ((lastTotal - firstTotal) / firstTotal * 100) 2
   else "N/A") ++ "%)" ++ nl ++ dataSource.

(** The characters that a JSON value can begin with: a brace, a bracket,
    the quote, the minus sign, a digit, and the first letter of [true],
    [false] and [null]. *)
Definition startsJsonValue (c : ascii) : bool :=
  Ascii.eqb c "{" || Ascii.eqb c "[" || Ascii.eqb c "034" || Ascii.eqb c "-" ||
  isDigit c || Ascii.eqb c "t" || Ascii.eqb c "f" || Ascii.eqb c "n".

(** A text that is empty, or whose first character after white space
    begins no JSON value. *)
Definition beginsNoJson (text : string) : bool :=
  match skipWs text with
  | EmptyString => true
  | String c _ => negb (startsJsonValue c)
  end.

(** The five kinds of intent. *)
Definition isKind (ty : string) : bool :=
  (ty =? "help") || (ty =? "error") || (ty =? "snapshot") || (ty =? "range") ||
  (ty =? "comparison").

(** A reply in a fenced code block. *)
Definition fencedReply : string :=
  "```json" ++ nl ++ "{" ++ quote ++ "type" ++ quote ++ ": " ++ quote ++ "help" ++ quote ++
  "}" ++ nl ++ "```".

(** A service with a credential that answers every request with the text
    [text] and the status 200. *)
Definition answeringService (text : string) : AlliumService :=
  {| ALLIUM_API_KEY := Some "key";
     fetch := fun _ _ => Ok (HttpResponse.mk true 200 text) |}.

(** A JSON-RPC response with an empty row set as structured content. *)
Definition emptyRowsPayload : string :=
  "{" ++ JSON_quote "jsonrpc" ++ ":" ++ JSON_quote "2.0" ++ "," ++
  JSON_quote "id" ++ ":1," ++ JSON_quote "result" ++ ":{" ++
  JSON_quote "structuredContent" ++ ":{" ++ JSON_quote "data" ++ ":[]}}}".

(** ** The CSV export *)

(** A table line with the given cells. *)
Definition tableLine (cells : list string) : string :=
  "|" ++ concatLines (map (fun c => " " ++ c ++ " |") cells).

(** A cell that comes back from a table line as it is: it has no bar, no
    line feed and no three hyphens in a row, and no white space at its
    ends. *)
Definition cleanCell (c : string) : Prop :=
  countChar "|" c = 0 /\ countChar "010" c = 0 /\ includes c "---" = false /\
  trim (" " ++ c ++ " ") = c.

(** The cells of a position in the snapshot report. *)
Definition positionCells (row : PositionRow.t) : list string :=
  [PositionRow.symbol row;
   PositionRow.project row ++ " (" ++ PositionRow.protocol row ++ ")";
   formatBalance (PositionRow.balance row);
   formatUSD (PositionRow.usd_balance row);
   "$" ++ toFixed (PositionRow.usd_exchange_rate row) 4].

(** The characters of a numeral of [toFixed], its sign apart. *)
Definition isNumeralChar (c : ascii) : bool :=
  isDigit c || Ascii.eqb c "." || Ascii.eqb c "e" || Ascii.eqb c "+" ||
  Ascii.eqb c "N" || Ascii.eqb c "a" || Ascii.eqb c "I" || Ascii.eqb c "n" ||
  Ascii.eqb c "f" || Ascii.eqb c "i" || Ascii.eqb c "t" || Ascii.eqb c "y".

(** The visible characters of ASCII. *)
Definition isVisible (c : ascii) : bool := inRange "!" "~" c.

(** The answer of the assistant with the given content. *)
Definition answer (content : string) : Message.t :=
  Message.mk "assistant" content None None.

(** The characters of a cell that holds a number: those of a numeral, the
    minus sign, the dollar sign, the two magnitude letters and the percent
    sign. *)
Definition isFigureChar (c : ascii) : bool :=
  isNumeralChar c || Ascii.eqb c "-" || Ascii.eqb c "$" || Ascii.eqb c "M" ||
  Ascii.eqb c "K" || Ascii.eqb c "%".

(** A figure: a dollar sign or nothing, a numeral of [toFixed], a magnitude
    letter, a percent sign or nothing. *)
Definition isFigure (cell : string) : Prop :=
  exists dollar sign body suffix,
    cell = dollar ++ sign ++ body ++ suffix /\
    (dollar = "" \/ dollar = "$") /\ (sign = "" \/ sign = "-") /\
    allChars isNumeralChar body = true /\
    (suffix = "" \/ suffix = "M" \/ suffix = "K" \/ suffix = "%").

(** The text of a cell in a table line, up to the bar that closes it. *)
Definition cellText (c : string) : string := " " ++ c ++ " |".

(** The text of lines that each end with a line feed. *)
Definition textOf (lines : list string) : string :=
  concatLines (map (fun l => l ++ nl) lines).

(** The table lines of a report: those that start with a bar and are no
    rule. *)
Definition tableRows (lines : list string) : list string :=
  filter (fun l => negb (includes l "---")) (filter (fun l => startsWith l "|") lines).

(** The first line of the snapshot report. *)
Definition snapshotTitle (row0 : PositionRow.t) : string :=
  "### Lending Positions for `" ++ shortAddr (PositionRow.address row0) ++ "` on " ++
  formatDate (PositionRow.date row0).

(** The last line of the three reports. *)
Definition sourceLine : string :=
  "_Data source: Allium `solana.lending.position_holdings_daily`_".

(** The cells of a date and its row in the table of a symbol. *)
Definition rangeCells (e : string * PositionRow.t) : list string :=
  [fst e;
   formatBalance (PositionRow.balance (snd e));
   formatUSD (PositionRow.usd_balance (snd e));
   "$" ++ toFixed (PositionRow.usd_exchange_rate (snd e)) 4].

(** The first line of the range report. *)
Definition rangeTitle (row0 : PositionRow.t) (dates : list string) : string :=
  "### Position History for `" ++ shortAddr (PositionRow.address row0) ++ "` (" ++
  orUndefined (nth_error dates 0) ++ " to " ++
  orUndefined (nth_error dates (List.length dates - 1)) ++ ")".

(** The lines of the table of a symbol. *)
Definition symbolSection (rows : list PositionRow.t) (symbol : string) : list string :=
  ["#### " ++ symbol; ""; "| Date | Balance | USD Value | Price |";
   "|------|---------|-----------|-------|"] ++
  map tableLine (map rangeCells (rangeSeries rows symbol)) ++ [""].

(** The lines of the period summary, the empty line after them included. *)
Definition summaryLines (byDate : RowMap) (dates : list string) : list string :=
  let startDate := nth_error dates 0 in
  let endDate := nth_error dates (List.length dates - 1) in
  let firstTotal := sumUSD (getOrEmpty startDate byDate) in
  let lastTotal := sumUSD (getOrEmpty endDate byDate) in
  ["**Period Summary:**";
   "- Start value (" ++ orUndefined startDate ++ "): " ++ formatUSD firstTotal;
   "- End value (" ++ orUndefined endDate ++ "): " ++ formatUSD lastTotal;
   "- Change: " ++ formatUSD (lastTotal - firstTotal) ++ " (" ++
   (if (0 <? firstTotal)%float
    then toFixed ((lastTotal - firstTotal) / firstTotal * 100) 2
    else "N/A") ++ "%)";
   ""].

(** The column titles of the comparison report. *)
Definition comparisonHeader (date1 date2 : string) : list string :=
  ["Token"; "Balance (" ++ date1 ++ ")"; "USD (" ++ date1 ++ ")";
   "Balance (" ++ date2 ++ ")"; "USD (" ++ date2 ++ ")"; "Change"; "% Change"].

(** The cells of a symbol in the comparison report. *)
Definition comparisonCells (d1Rows d2Rows : list PositionRow.t) (symbol : string)
  : list string :=
  [symbol;
   formatBalance (balanceOf symbol d1Rows);
   formatUSD (usdOf symbol d1Rows);
   formatBalance (balanceOf symbol d2Rows);
   formatUSD (usdOf symbol d2Rows);
   formatUSD (usdOf symbol d2Rows - usdOf symbol d1Rows);
   percentChange (usdOf symbol d2Rows - usdOf symbol d1Rows) (usdOf symbol d1Rows)].

(** The first line of the comparison report. *)
Definition comparisonTitle (row0 : PositionRow.t) (date1 date2 : string) : string :=
  "### Position Comparison for `" ++ shortAddr (PositionRow.address row0) ++ "`: " ++
  date1 ++ " vs " ++ date2.

(** The lines of the totals of the comparison report, with the empty lines
    around them. *)
Definition totalLines (date1 date2 : string) (total1 total2 : float) : list string :=
  [""; "**Total Portfolio:**";
   "- " ++ date1 ++ ": " ++ formatUSD total1;
   "- " ++ date2 ++ ": " ++ formatUSD total2;
   "- Change: " ++ formatUSD (total2 - total1) ++ " (" ++
   percentChange (total2 - total1) total1 ++ ")";
   ""].

(** ** Lower case *)






(** The row set of three dates with no row of SOL on the second one. *)
Definition threeDates : list PositionRow.t :=
  [sampleRow "2025-10-01" "USDC" 10 10; sampleRow "2025-10-01" "SOL" 2 300;
   sampleRow "2025-10-02" "USDC" 12 12;
   sampleRow "2025-10-03" "USDC" 15 15; sampleRow "2025-10-03" "SOL" 3 450].

(** * Properties *)

(** ** Strings *)

Lemma append_assoc (a b c : string) : (a ++ b) ++ c = a ++ b ++ c.
Proof. induction a as [|x a IH]; simpl; [reflexivity | now rewrite IH]. Qed.

Lemma append_nil_r (a : string) : a ++ "" = a.
Proof. induction a as [|x a IH]; simpl; [reflexivity | now rewrite IH]. Qed.

Lemma length_append (a b : string) :
  String.length (a ++ b) = String.length a + String.length b.
Proof. induction a as [|x a IH]; simpl; [reflexivity | now rewrite IH]. Qed.

Lemma startsWith_spec (s t : string) :
  startsWith s t = true <-> exists rest, s = t ++ rest.
Proof.
  revert s. induction t as [|b t IH]; intros s; simpl.
  - split; [intros _; now exists s | reflexivity].
  - destruct s as [|a s].
    + split; [discriminate | intros [r Hr]; discriminate].
    + rewrite andb_true_iff, IH. split.
      * intros [Hab [r ->]]. apply Ascii.eqb_eq in Hab. subst. now exists r.
      * intros [r Hr]. injection Hr as -> ->. split; [apply Ascii.eqb_refl | now exists r].
Qed.

Lemma includes_spec (s t : string) :
  includes s t = true <-> exists pre post, s = pre ++ t ++ post.
Proof.
  induction s as [|c s IH].
  - simpl. rewrite orb_false_r, startsWith_spec. split.
    + intros [r Hr]. now exists "", r.
    + intros [pre [post H]]. destruct pre; simpl in H; [now exists post | discriminate].
  - simpl. rewrite orb_true_iff, startsWith_spec, IH. split.
    + intros [[r Hr] | [pre [post H]]].
      * now exists "", r.
      * exists (String c pre), post. simpl. now rewrite H.
    + intros [pre [post H]]. destruct pre as [|x pre]; simpl in H.
      * left. now exists post.
      * right. injection H as _ H. now exists pre, post.
Qed.

Lemma sliceFrom_append (a b : string) : sliceFrom (String.length a) (a ++ b) = b.
Proof. induction a as [|x a IH]; simpl; [now destruct b | exact IH]. Qed.

Lemma sliceTo_sliceFrom (n : nat) (s : string) : sliceTo n s ++ sliceFrom n s = s.
Proof.
  revert s. induction n as [|n IH]; intros [|c s]; simpl; try reflexivity.
  now rewrite IH.
Qed.

Lemma sliceFrom_sliceFrom (a b : nat) (s : string) :
  sliceFrom a (sliceFrom b s) = sliceFrom (b + a) s.
Proof.
  revert s. induction b as [|b IH]; intros s; simpl; [reflexivity|].
  destruct s as [|c s]; [now destruct a | apply IH].
Qed.

Lemma length_sliceTo (n : nat) (s : string) :
  String.length (sliceTo n s) = Nat.min n (String.length s).
Proof.
  revert s. induction n as [|n IH]; intros [|c s]; simpl; try reflexivity.
  now rewrite IH.
Qed.

(** ** The fallback parser *)

Lemma classRun_length (p : ascii -> bool) (n : nat) (s : string) :
  String.length (classRun p n s) <= n.
Proof.
  revert s. induction n as [|n IH]; intros [|c s]; simpl; try lia.
  destruct (p c); simpl; [specialize (IH s) |]; lia.
Qed.

Lemma classRun_allChars (p : ascii -> bool) (n : nat) (s : string) :
  allChars p (classRun p n s) = true.
Proof.
  revert s. induction n as [|n IH]; intros [|c s]; simpl; try reflexivity.
  destruct (p c) eqn:Hc; simpl; [now rewrite Hc, IH | reflexivity].
Qed.

Lemma classRun_prefix (p : ascii -> bool) (n : nat) (s : string) :
  exists rest, s = classRun p n s ++ rest.
Proof.
  revert s. induction n as [|n IH]; intros [|c s]; simpl; try (now eexists).
  destruct (p c); simpl; [|now eexists].
  destruct (IH s) as [r Hr]. exists r. now rewrite <- Hr.
Qed.

(** A run of characters of the class is consumed whole, up to the limit. *)
Lemma classRun_append (p : ascii -> bool) (n : nat) (a rest : string) :
  allChars p a = true ->
  Nat.min n (String.length a) <= String.length (classRun p n (a ++ rest)).
Proof.
  revert a. induction n as [|n IH]; intros [|c a]; simpl; try lia.
  rewrite andb_true_iff. intros [Hc Ha]. rewrite Hc. simpl.
  specialize (IH a Ha). lia.
Qed.

Lemma matchAddress_unfold (s : string) :
  matchAddress s =
  if (32 <=? String.length (classRun isBase58 44 s))%nat
  then Some (classRun isBase58 44 s)
  else match s with
       | EmptyString => None
       | String _ s' => matchAddress s'
       end.
Proof. destruct s; reflexivity. Qed.

Lemma matchAddress_some (s a : string) :
  matchAddress s = Some a ->
  32 <= String.length a <= 44 /\ allChars isBase58 a = true /\
  exists pre post, s = pre ++ a ++ post.
Proof.
  revert a. induction s as [|c s IH]; intros a H; rewrite matchAddress_unfold in H.
  - remember (classRun isBase58 44 "") as run eqn:Hrun. simpl in Hrun. subst run.
    discriminate.
  - pose proof (classRun_length isBase58 44 (String c s)) as Hmax.
    pose proof (classRun_allChars isBase58 44 (String c s)) as Hall.
    destruct (classRun_prefix isBase58 44 (String c s)) as [r Hr].
    remember (classRun isBase58 44 (String c s)) as run eqn:Hrun. clear Hrun.
    destruct (32 <=? String.length run)%nat eqn:Hlen.
    + injection H as <-. apply Nat.leb_le in Hlen.
      split; [lia|]. split; [exact Hall|]. exists "", r. exact Hr.
    + destruct (IH a H) as [Hl [Ha [pre [post Hs]]]].
      split; [exact Hl|]. split; [exact Ha|].
      exists (String c pre), post. simpl. now rewrite Hs.
Qed.

Lemma matchAddress_found (pre a post : string) :
  32 <= String.length a -> allChars isBase58 a = true ->
  exists a', matchAddress (pre ++ a ++ post) = Some a'.
Proof.
  intros Hlen Hall. induction pre as [|c pre IH].
  - change ("" ++ a ++ post) with (a ++ post). rewrite matchAddress_unfold.
    pose proof (classRun_append isBase58 44 a post Hall) as Hrun.
    remember (classRun isBase58 44 (a ++ post)) as run eqn:E. clear E.
    destruct (32 <=? String.length run)%nat eqn:Hb; [now eexists|].
    apply Nat.leb_gt in Hb. lia.
  - change (String c pre ++ a ++ post) with (String c (pre ++ a ++ post)).
    rewrite matchAddress_unfold.
    destruct (32 <=? _)%nat; [now eexists | exact IH].
Qed.

Lemma truthy_matchAddress (s : string) :
  truthy (matchAddress s) = true <-> exists a, matchAddress s = Some a.
Proof.
  split.
  - destruct (matchAddress s) as [a|]; [now exists a | discriminate].
  - intros [a Ha]. rewrite Ha. destruct (matchAddress_some s a Ha) as [[Hl _] _].
    destruct a; [simpl in Hl; lia | reflexivity].
Qed.

(** *** The date pattern *)

Lemma matchDateAt_some (s d : string) :
  matchDateAt s = Some d ->
  d = sliceTo 10 s /\ String.length d = 10 /\ isDateText d = true /\
  s = d ++ sliceFrom 10 s.
Proof.
  intros H. unfold matchDateAt in H.
  do 10 (destruct s as [|? s]; [discriminate|]).
  match type of H with (if ?b then _ else _) = _ => destruct b eqn:Hb end;
    [|discriminate].
  injection H as <-. repeat split.
  unfold isDateText, matchDateAt. cbn [sliceTo]. rewrite Hb. apply String.eqb_refl.
Qed.

Lemma matchDateAt_append (d rest : string) :
  isDateText d = true -> matchDateAt (d ++ rest) = Some d.
Proof.
  unfold isDateText. destruct (matchDateAt d) as [d'|] eqn:H; [|discriminate].
  intros Heq. apply String.eqb_eq in Heq. subst d'.
  destruct (matchDateAt_some d d H) as [_ [Hlen _]].
  unfold matchDateAt in H.
  do 10 (destruct d as [|? d]; [discriminate|]).
  destruct d; [|simpl in Hlen; lia].
  simpl. unfold matchDateAt in *. simpl in H.
  match type of H with (if ?b then _ else _) = _ => destruct b eqn:Hb end;
    [|discriminate].
  simpl. reflexivity.
Qed.

(** A date occurs at an index exactly when the anchored pattern matches the
    text from that index on. *)
Lemma dateAt_iff (msg d : string) (i : nat) :
  isDateText d = true /\ occursAt d msg i <->
  matchDateAt (sliceFrom i msg) = Some d.
Proof.
  split.
  - intros [Hd [pre [post [-> <-]]]].
    rewrite sliceFrom_append. now apply matchDateAt_append.
  - intros H. destruct (matchDateAt_some _ _ H) as [_ [Hlen [Hd Hs]]].
    split; [exact Hd|].
    exists (sliceTo i msg), (sliceFrom 10 (sliceFrom i msg)). split.
    + rewrite <- Hs. symmetry. apply sliceTo_sliceFrom.
    + rewrite length_sliceTo. apply Nat.min_l.
      destruct (Nat.le_gt_cases i (String.length msg)) as [Hle|Hgt]; [exact Hle|].
      exfalso. clear -H Hgt. revert i H Hgt.
      induction msg as [|c msg IH]; intros [|i] H Hgt; simpl in *; try discriminate; try lia.
      apply (IH i H). lia.
Qed.

Lemma scanDates_skip (k : nat) (s : string) :
  scanDates k s = scanDates 0 (sliceFrom k s).
Proof.
  revert s. induction k as [|k IH]; intros s; [reflexivity|].
  destruct s as [|c s]; [reflexivity|]. simpl. apply IH.
Qed.

(** The first element of a scan is the leftmost match, and the scan goes on
    ten characters after its start. *)
Lemma scanDates_cons (s d : string) (rest : list string) :
  scanDates 0 s = d :: rest ->
  exists i,
    matchDateAt (sliceFrom i s) = Some d /\
    (forall k, k < i -> matchDateAt (sliceFrom k s) = None) /\
    rest = scanDates 0 (sliceFrom (i + 10) s).
Proof.
  induction s as [|c s IH]; [discriminate|].
  cbn [scanDates]. destruct (matchDateAt (String c s)) as [d0|] eqn:Hm.
  - intros H. injection H as -> <-. exists 0. split; [exact Hm|]. split.
    + intros k Hk. lia.
    + rewrite scanDates_skip. reflexivity.
  - intros H. destruct (IH H) as [i [Hi [Hbefore Hrest]]].
    exists (S i). split; [exact Hi|]. split.
    + intros [|k] Hk; [exact Hm | apply Hbefore; lia].
    + exact Hrest.
Qed.

Lemma scanDates_nil (s : string) :
  scanDates 0 s = [] -> forall k, matchDateAt (sliceFrom k s) = None.
Proof.
  induction s as [|c s IH]; intros H k.
  - now destruct k.
  - cbn [scanDates] in H. destruct (matchDateAt (String c s)) eqn:Hm; [discriminate|].
    destruct k as [|k]; [exact Hm | apply IH, H].
Qed.

Lemma firstDateFrom_scan (msg : string) (start : nat) (d : string) (rest : list string) :
  scanDates 0 (sliceFrom start msg) = d :: rest ->
  exists i, firstDateFrom msg start i d /\
            rest = scanDates 0 (sliceFrom (i + 10) msg).
Proof.
  intros H. destruct (scanDates_cons _ _ _ H) as [i [Hi [Hbefore Hrest]]].
  rewrite sliceFrom_sliceFrom in Hi, Hrest.
  exists (start + i). split.
  - apply dateAt_iff in Hi. destruct Hi as [Hd Hocc].
    split; [lia|]. split; [exact Hd|]. split; [exact Hocc|].
    intros k d' Hk Hd' Hocc'.
    assert (Hm : matchDateAt (sliceFrom k msg) = Some d') by now apply dateAt_iff.
    specialize (Hbefore (k - start) ltac:(lia)).
    rewrite sliceFrom_sliceFrom in Hbefore.
    replace (start + (k - start)) with k in Hbefore by lia. congruence.
  - rewrite Hrest. f_equal. f_equal. lia.
Qed.

Lemma scanDates_dates (k : nat) (s : string) :
  Forall (fun d => isDateText d = true) (scanDates k s).
Proof.
  revert k. induction s as [|c s IH]; intros k; [constructor|].
  cbn [scanDates]. destruct k as [|k]; [|apply IH].
  destruct (matchDateAt (String c s)) as [d|] eqn:Hm; [|apply IH].
  constructor; [|apply IH]. now destruct (matchDateAt_some _ _ Hm) as [_ [_ [Hd _]]].
Qed.

(** Two dates are extracted exactly when the pattern matches at two places
    of the utterance that do not overlap. *)
Lemma two_dates_extracted_iff (msg : string) :
  2 <= List.length (matchAllDates msg) <->
  exists i j d1 d2,
    i + 10 <= j /\ isDateText d1 = true /\ occursAt d1 msg i /\
    isDateText d2 = true /\ occursAt d2 msg j.
Proof.
  unfold matchAllDates. split.
  - intros Hlen.
    destruct (scanDates 0 msg) as [|d1 [|d2 rest]] eqn:Hscan; simpl in Hlen; try lia.
    destruct (firstDateFrom_scan msg 0 d1 (d2 :: rest) Hscan) as [i [[_ [Hd1 [Ho1 _]]] Hrest]].
    symmetry in Hrest.
    destruct (firstDateFrom_scan msg (i + 10) d2 rest Hrest) as [j [[Hj [Hd2 [Ho2 _]]] _]].
    exists i, j, d1, d2. tauto.
  - intros [i [j [d1 [d2 [Hij [Hd1 [Ho1 [Hd2 Ho2]]]]]]]].
    assert (H1 : matchDateAt (sliceFrom i msg) = Some d1) by now apply dateAt_iff.
    assert (H2 : matchDateAt (sliceFrom j msg) = Some d2) by now apply dateAt_iff.
    destruct (scanDates 0 msg) as [|e1 rest] eqn:Hscan.
    + pose proof (scanDates_nil msg Hscan i). congruence.
    + destruct (scanDates_cons msg e1 rest Hscan) as [i0 [Hi0 [Hbefore Hrest]]].
      assert (Hle : i0 <= i).
      { destruct (Nat.le_gt_cases i0 i) as [Hle|Hgt]; [exact Hle|].
        specialize (Hbefore i Hgt). congruence. }
      destruct rest as [|e2 rest']; [|simpl; lia].
      symmetry in Hrest.
      pose proof (scanDates_nil _ Hrest (j - (i0 + 10))) as Hnone.
      rewrite sliceFrom_sliceFrom in Hnone.
      replace (i0 + 10 + (j - (i0 + 10))) with j in Hnone by lia. congruence.
Qed.

(** C9: for every input the fallback parser returns an intent of one of the
    five kinds, and a snapshot, range or comparison intent it returns carries
    a non-empty address (32 to 44 base58 characters) and, as dates of the
    shape dddd-dd-dd, its date, its start and end date, or its two dates. *)
Theorem regexParse_total_populated (msg : string) :
  regexParse msg = ParsedQuery.only "help" \/
  (exists m, regexParse msg =
             ParsedQuery.mk "error" None None None None None None None (Some m)) \/
  (exists a d, regexParse msg =
               ParsedQuery.mk "snapshot" (Some a) (Some d) None None None None None None /\
               a <> "" /\ isAddress a /\ isDateText d = true) \/
  (exists a s e, regexParse msg =
                 ParsedQuery.mk "range" (Some a) None (Some s) (Some e) None None None None /\
                 a <> "" /\ isAddress a /\ isDateText s = true /\ isDateText e = true) \/
  (exists a d1 d2, regexParse msg =
                   ParsedQuery.mk "comparison" (Some a) None None None (Some d1) (Some d2) None None /\
                   a <> "" /\ isAddress a /\ isDateText d1 = true /\ isDateText d2 = true).
Proof.
  unfold regexParse.
  destruct (helpTrigger (toLowerCase msg)); [now left|]. right.
  destruct (truthy (matchAddress msg)) eqn:Haddr; simpl; [|left; now eexists].
  apply truthy_matchAddress in Haddr. destruct Haddr as [a Ha]. rewrite Ha.
  destruct (matchAddress_some msg a Ha) as [Hlen [Hall _]].
  assert (Hne : a <> "") by (intros ->; simpl in Hlen; lia).
  assert (Hvalid : isAddress a) by (split; assumption).
  pose proof (scanDates_dates 0 msg) as Hdates. fold (matchAllDates msg) in Hdates.
  destruct (matchAllDates msg) as [|d1 [|d2 rest]].
  - rewrite !andb_false_r. simpl. left. now eexists.
  - rewrite !andb_false_r. simpl. right. left.
    exists a, d1. inversion Hdates; subst. tauto.
  - inversion Hdates as [|? ? Hd1 Hrest]; subst.
    inversion Hrest as [|? ? Hd2 _]; subst.
    rewrite !andb_true_r.
    destruct (comparisonTrigger (toLowerCase msg)).
    + right. right. right. exists a, d1, d2. tauto.
    + destruct (rangeTrigger (toLowerCase msg)).
      * right. right. left. exists a, d1, d2. tauto.
      * right. left. exists a, d1. tauto.
Qed.

(** C4: for an utterance with a base58 address, a comparison trigger, no
    help trigger and at least two extracted dates, the fallback parser
    returns a comparison whose [date1] is the leftmost date of the utterance
    and whose [date2] is the leftmost date after the end of the first: the
    order of appearance, whatever the order of the dates in the calendar. *)
Theorem regexParse_comparison_extraction_order (msg : string) :
  (exists pre a post, msg = pre ++ a ++ post /\ isAddress a) ->
  comparisonTrigger (toLowerCase msg) = true ->
  helpTrigger (toLowerCase msg) = false ->
  2 <= List.length (matchAllDates msg) ->
  exists a d1 d2 i j,
    regexParse msg =
    ParsedQuery.mk "comparison" (Some a) None None None (Some d1) (Some d2) None None /\
    firstDateFrom msg 0 i d1 /\ firstDateFrom msg (i + 10) j d2.
Proof.
  intros [pre [a0 [post [-> [Hlen Hall]]]]] Hcmp Hhelp Hdates.
  destruct (matchAddress_found pre a0 post (proj1 Hlen) Hall) as [a Ha].
  unfold regexParse. rewrite Hhelp, Hcmp, Ha.
  assert (Ht : truthy (Some a) = true) by (rewrite <- Ha; apply truthy_matchAddress; eauto).
  rewrite Ht. cbn [negb].
  unfold matchAllDates in *.
  destruct (scanDates 0 (pre ++ a0 ++ post)) as [|d1 [|d2 rest]] eqn:Hscan;
    simpl in Hdates; try lia.
  destruct (firstDateFrom_scan _ 0 d1 (d2 :: rest) Hscan) as [i [Hfirst Hrest]].
  symmetry in Hrest.
  destruct (firstDateFrom_scan _ (i + 10) d2 rest Hrest) as [j [Hsecond _]].
  exists a, d1, d2, i, j. simpl. tauto.
Qed.

(** The dates of the utterance are in descending calendar order and stay in
    the order of the utterance. *)
Lemma regexParse_comparison_extraction_order_witness :
  exists i j,
    regexParse ("Compare " ++ sampleWallet ++ " on 2025-12-31 vs 2025-09-30") =
    ParsedQuery.mk "comparison" (Some sampleWallet) None None None
      (Some "2025-12-31") (Some "2025-09-30") None None /\
    firstDateFrom ("Compare " ++ sampleWallet ++ " on 2025-12-31 vs 2025-09-30") 0 i "2025-12-31" /\
    firstDateFrom ("Compare " ++ sampleWallet ++ " on 2025-12-31 vs 2025-09-30") (i + 10) j "2025-09-30".
Proof.
  destruct (regexParse_comparison_extraction_order
              ("Compare " ++ sampleWallet ++ " on 2025-12-31 vs 2025-09-30"))
    as [a [d1 [d2 [i [j [Hq [H1 H2]]]]]]].
  - exists "Compare ", sampleWallet, " on 2025-12-31 vs 2025-09-30".
    split; [reflexivity|]. split; [cbn; lia | reflexivity].
  - reflexivity.
  - reflexivity.
  - cbn. lia.
  - vm_compute in Hq. injection Hq as <- <- <-. exists i, j. split; [|split]; try assumption.
    vm_compute. reflexivity.
Defined.

(** The example of the specification: the dates in ascending order. *)
Example regexParse_comparison_example :
  regexParse ("Compare " ++ sampleWallet ++ " on 2025-09-30 vs 2025-12-31") =
  ParsedQuery.mk "comparison" (Some sampleWallet) None None None
    (Some "2025-09-30") (Some "2025-12-31") None None.
Proof. vm_compute. reflexivity. Qed.

(** ** The fuel of [JSON.parse] *)

Lemma skipWs_length (s : string) : String.length (skipWs s) <= String.length s.
Proof.
  induction s as [|c s IH]; simpl; [lia|]. destruct (isJsonWs c); simpl; lia.
Qed.

Lemma afterChar_length (c : ascii) (s rest : string) :
  afterChar c s = Some rest -> String.length s = S (String.length rest).
Proof.
  destruct s as [|c' s]; simpl; [discriminate|].
  destruct (Ascii.eqb c' c); [|discriminate]. now intros [= ->].
Qed.

Lemma parseChars_length (s body rest : string) :
  parseChars s = Some (body, rest) -> String.length rest <= String.length s.
Proof.
  assert (Hgen : forall n s body rest,
            String.length s <= n -> parseChars s = Some (body, rest) ->
            String.length rest <= String.length s).
  { clear. induction n as [|n IH]; intros s body rest Hn H.
    - destruct s; [discriminate | simpl in Hn; lia].
    - destruct s as [|c s1]; [discriminate|]. cbn [parseChars] in H.
      destruct (Ascii.eqb c "034"); [injection H as _ <-; simpl; lia|].
      destruct (Ascii.eqb c "\").
      + destruct s1 as [|e s2]; [discriminate|].
        destruct (Ascii.eqb e "u").
        * destruct s2 as [|h1 [|h2 [|h3 [|h4 s6]]]]; try discriminate.
          destruct (hexVal h1), (hexVal h2), (hexVal h3), (hexVal h4); try discriminate.
          destruct (parseChars s6) as [[b r]|] eqn:E; [|discriminate].
          injection H as _ <-. apply IH in E; simpl in *; lia.
        * destruct (simpleEscape e); [|discriminate].
          destruct (parseChars s2) as [[b r]|] eqn:E; [|discriminate].
          injection H as _ <-. apply IH in E; simpl in *; lia.
      + destruct (N_of_ascii c <? 32)%N; [discriminate|].
        destruct (parseChars s1) as [[b r]|] eqn:E; [|discriminate].
        injection H as _ <-. apply IH in E; simpl in *; lia. }
  apply (Hgen (String.length s)). lia.
Qed.

Lemma spanDigits_length (s ds rest : string) :
  spanDigits s = (ds, rest) -> String.length rest <= String.length s.
Proof.
  revert ds rest. induction s as [|c s IH]; intros ds rest H; simpl in H.
  - injection H as _ <-. simpl. lia.
  - destruct (isDigit c).
    + destruct (spanDigits s) as [ds' r] eqn:E. injection H as _ <-.
      specialize (IH _ _ eq_refl). simpl. lia.
    + injection H as _ <-. simpl. lia.
Qed.

Lemma parseNumber_length (s lit rest : string) :
  parseNumber s = Some (lit, rest) -> String.length rest <= String.length s.
Proof.
  unfold parseNumber. intros H.
  set (p0 := match s with
             | String "-" s' => ("-", s')
             | _ => ("", s)
             end) in H.
  assert (H0 : String.length (snd p0) <= String.length s).
  { unfold p0. destruct s as [|c s']; simpl; [lia|].
    destruct c as [[] [] [] [] [] [] [] []]; simpl; lia. }
  destruct p0 as [sign s0]. simpl in H0.
  destruct (spanDigits s0) as [int s1] eqn:E1.
  apply spanDigits_length in E1.
  match type of H with (if ?b then _ else _) = _ => destruct b end; [discriminate|].
  set (fp := match s1 with
             | String "." s2 =>
                 let (ds, s3) := spanDigits s2 in
                 if ds =? "" then None else Some ("." ++ ds, s3)
             | _ => Some ("", s1)
             end) in H.
  assert (H1 : forall frac s3, fp = Some (frac, s3) ->
                               String.length s3 <= String.length s1).
  { intros frac s3. unfold fp. destruct s1 as [|c s2]; [intros [= _ <-]; lia|].
    destruct c as [[] [] [] [] [] [] [] []]; try (intros [= _ <-]; lia).
    destruct (spanDigits s2) as [ds r] eqn:E. apply spanDigits_length in E.
    destruct (ds =? ""); [discriminate|]. intros [= _ <-]. simpl. lia. }
  destruct fp as [[frac s3]|]; [|discriminate].
  specialize (H1 _ _ eq_refl).
  set (ep := match s3 with
             | String e s4 =>
                 if Ascii.eqb e "e" || Ascii.eqb e "E" then
                   let (esign, s5) :=
                     match s4 with
                     | String "+" s' => ("+", s')
                     | String "-" s' => ("-", s')
                     | _ => ("", s4)
                     end in
                   let (ds, s6) := spanDigits s5 in
                   if ds =? "" then None else Some (String e esign ++ ds, s6)
                 else Some ("", s3)
             | EmptyString => Some ("", s3)
             end) in H.
  assert (H2 : forall ex s6, ep = Some (ex, s6) ->
                             String.length s6 <= String.length s3).
  { intros ex s6. unfold ep. destruct s3 as [|e s4]; [intros [= _ <-]; lia|].
    destruct (Ascii.eqb e "e" || Ascii.eqb e "E"); [|intros [= _ <-]; lia].
    set (q := match s4 with
              | String "+" s' => ("+", s')
              | String "-" s' => ("-", s')
              | _ => ("", s4)
              end).
    assert (Hq : String.length (snd q) <= String.length s4).
    { unfold q. destruct s4 as [|c s']; simpl; [lia|].
      destruct c as [[] [] [] [] [] [] [] []]; simpl; lia. }
    destruct q as [esign s5]. simpl in Hq.
    destruct (spanDigits s5) as [ds r] eqn:E. apply spanDigits_length in E.
    destruct (ds =? ""); [discriminate|]. intros [= _ <-]. simpl. lia. }
  destruct ep as [[ex s6]|]; [|discriminate].
  specialize (H2 _ _ eq_refl). injection H as _ <-. lia.
Qed.

Lemma length_sliceFrom_le (n : nat) (s : string) :
  String.length (sliceFrom n s) <= String.length s.
Proof.
  revert s. induction n as [|n IH]; intros [|c s]; simpl; try lia.
  specialize (IH s). lia.
Qed.

Lemma parseScalar_length (s : string) (v : JSValue) (rest : string) :
  parseScalar s = Some (v, rest) -> String.length rest <= String.length s.
Proof.
  unfold parseScalar.
  destruct (startsWith s "true"); [intros [= _ <-]; apply (length_sliceFrom_le 4 s)|].
  destruct (startsWith s "false"); [intros [= _ <-]; apply (length_sliceFrom_le 5 s)|].
  destruct (startsWith s "null"); [intros [= _ <-]; apply (length_sliceFrom_le 4 s)|].
  destruct (parseNumber s) as [[lit r]|] eqn:E; [|discriminate].
  intros [= _ <-]. now apply parseNumber_length in E.
Qed.

Lemma parseValue_S (f : nat) (s : string) :
  parseValue (S f) s =
  match afterChar "{" s with
  | Some s1 =>
      match afterChar "}" (skipWs s1) with
      | Some rest => Some (JObject [], rest)
      | None => parseMembers f s1 []
      end
  | None =>
      match afterChar "[" s with
      | Some s1 =>
          match afterChar "]" (skipWs s1) with
          | Some rest => Some (JArray [], rest)
          | None => parseElements f s1 []
          end
      | None =>
          match afterChar "034" s with
          | Some s1 =>
              match parseChars s1 with
              | Some (str, rest) => Some (JString str, rest)
              | None => None
              end
          | None => parseScalar s
          end
      end
  end.
Proof. reflexivity. Qed.

Lemma parseElements_S (f : nat) (s : string) (acc : list JSValue) :
  parseElements (S f) s acc =
  match parseValue f (skipWs s) with
  | Some (v, rest) =>
      match afterChar "," (skipWs rest) with
      | Some rest' => parseElements f rest' (acc ++ [v])
      | None =>
          match afterChar "]" (skipWs rest) with
          | Some rest' => Some (JArray (acc ++ [v]), rest')
          | None => None
          end
      end
  | None => None
  end.
Proof. reflexivity. Qed.

Lemma parseMembers_S (f : nat) (s : string) (acc : list (string * JSValue)) :
  parseMembers (S f) s acc =
  match afterChar "034" (skipWs s) with
  | Some s1 =>
      match parseChars s1 with
      | Some (key, s2) =>
          match afterChar ":" (skipWs s2) with
          | Some s3 =>
              match parseValue f (skipWs s3) with
              | Some (v, rest) =>
                  match afterChar "," (skipWs rest) with
                  | Some rest' => parseMembers f rest' (setProp key v acc)
                  | None =>
                      match afterChar "}" (skipWs rest) with
                      | Some rest' => Some (JObject (setProp key v acc), rest')
                      | None => None
                      end
                  end
              | None => None
              end
          | None => None
          end
      | None => None
      end
  | None => None
  end.
Proof. reflexivity. Qed.

Ltac lengths :=
  repeat match goal with
         | H : afterChar _ _ = Some _ |- _ => apply afterChar_length in H
         | H : parseChars _ = Some _ |- _ => apply parseChars_length in H
         end;
  repeat match goal with
         | |- context [skipWs ?s] =>
             lazymatch goal with
             | _ : String.length (skipWs s) <= String.length s |- _ => fail
             | _ => pose proof (skipWs_length s)
             end
         | _ : context [skipWs ?s] |- _ =>
             lazymatch goal with
             | _ : String.length (skipWs s) <= String.length s |- _ => fail
             | _ => pose proof (skipWs_length s)
             end
         end;
  try lia.

Lemma parsers_leave_no_more (f : nat) : leavesNoMore f.
Proof.
  induction f as [|f [IHv [IHe IHm]]].
  - repeat split; intros; discriminate.
  - repeat split.
    + intros s v rest. rewrite parseValue_S.
      destruct (afterChar "{" s) as [s1|] eqn:E1.
      { destruct (afterChar "}" (skipWs s1)) as [r|] eqn:E2.
        - intros [= _ <-]. lengths.
        - intros H. apply IHm in H. lengths. }
      destruct (afterChar "[" s) as [s1|] eqn:E2.
      { destruct (afterChar "]" (skipWs s1)) as [r|] eqn:E3.
        - intros [= _ <-]. lengths.
        - intros H. apply IHe in H. lengths. }
      destruct (afterChar "034" s) as [s1|] eqn:E3.
      { destruct (parseChars s1) as [[str r]|] eqn:E4; [|discriminate].
        intros [= _ <-]. lengths. }
      apply parseScalar_length.
    + intros s acc v rest. rewrite parseElements_S.
      destruct (parseValue f (skipWs s)) as [[v0 r0]|] eqn:E1; [|discriminate].
      apply IHv in E1.
      destruct (afterChar "," (skipWs r0)) as [r1|] eqn:E2.
      { intros H. apply IHe in H. lengths. }
      destruct (afterChar "]" (skipWs r0)) as [r1|] eqn:E3; [|discriminate].
      intros [= _ <-]. lengths.
    + intros s acc v rest. rewrite parseMembers_S.
      destruct (afterChar "034" (skipWs s)) as [s1|] eqn:E1; [|discriminate].
      destruct (parseChars s1) as [[key s2]|] eqn:E2; [|discriminate].
      destruct (afterChar ":" (skipWs s2)) as [s3|] eqn:E3; [|discriminate].
      destruct (parseValue f (skipWs s3)) as [[v0 r0]|] eqn:E4; [|discriminate].
      apply IHv in E4.
      destruct (afterChar "," (skipWs r0)) as [r1|] eqn:E5.
      { intros H. apply IHm in H. lengths. }
      destruct (afterChar "}" (skipWs r0)) as [r1|] eqn:E6; [|discriminate].
      intros [= _ <-]. lengths.
Qed.

Lemma more_fuel_keeps_results (f : nat) : keepsResults f.
Proof.
  induction f as [|f [IHv [IHe IHm]]].
  - repeat split; intros; discriminate.
  - repeat split.
    + intros s r. rewrite (parseValue_S f), (parseValue_S (S f)).
      destruct (afterChar "{" s) as [s1|].
      { destruct (afterChar "}" (skipWs s1)); [trivial | apply IHm]. }
      destruct (afterChar "[" s) as [s1|]; [|trivial].
      destruct (afterChar "]" (skipWs s1)); [trivial | apply IHe].
    + intros s acc r. rewrite (parseElements_S f), (parseElements_S (S f)).
      destruct (parseValue f (skipWs s)) as [[v0 r0]|] eqn:E1; [|discriminate].
      rewrite (IHv _ _ E1).
      destruct (afterChar "," (skipWs r0)); [apply IHe | trivial].
    + intros s acc r. rewrite (parseMembers_S f), (parseMembers_S (S f)).
      destruct (afterChar "034" (skipWs s)) as [s1|]; [|trivial].
      destruct (parseChars s1) as [[key s2]|]; [|trivial].
      destruct (afterChar ":" (skipWs s2)) as [s3|]; [|trivial].
      destruct (parseValue f (skipWs s3)) as [[v0 r0]|] eqn:E1; [|discriminate].
      rewrite (IHv _ _ E1).
      destruct (afterChar "," (skipWs r0)); [apply IHm | trivial].
Qed.

Lemma parseValue_more_fuel (f f' : nat) (s : string) (r : JSValue * string) :
  f <= f' -> parseValue f s = Some r -> parseValue f' s = Some r.
Proof.
  intros Hle H. induction Hle as [|f' _ IH]; [exact H|].
  now apply (more_fuel_keeps_results f').
Qed.

Lemma parseElements_more_fuel (f f' : nat) (s : string) (acc : list JSValue)
  (r : JSValue * string) :
  f <= f' -> parseElements f s acc = Some r -> parseElements f' s acc = Some r.
Proof.
  intros Hle H. induction Hle as [|f' _ IH]; [exact H|].
  now apply (more_fuel_keeps_results f').
Qed.

Lemma parseMembers_more_fuel (f f' : nat) (s : string)
  (acc : list (string * JSValue)) (r : JSValue * string) :
  f <= f' -> parseMembers f s acc = Some r -> parseMembers f' s acc = Some r.
Proof.
  intros Hle H. induction Hle as [|f' _ IH]; [exact H|].
  now apply (more_fuel_keeps_results f').
Qed.

Lemma twice_the_length_is_enough (f : nat) : enoughFuel f.
Proof.
  induction f as [|f [IHv [IHe IHm]]].
  - repeat split; intros; discriminate.
  - destruct (parsers_leave_no_more f) as [Lv _].
    repeat split.
    + intros s r. replace (2 * String.length s + 1) with (S (2 * String.length s)) by lia.
      rewrite (parseValue_S f), (parseValue_S (2 * String.length s)).
      destruct (afterChar "{" s) as [s1|] eqn:E1.
      { destruct (afterChar "}" (skipWs s1)); [trivial|].
        intros H. apply IHm in H. apply afterChar_length in E1.
        eapply parseMembers_more_fuel; [|exact H]. lia. }
      destruct (afterChar "[" s) as [s1|] eqn:E2; [|trivial].
      destruct (afterChar "]" (skipWs s1)); [trivial|].
      intros H. apply IHe in H. apply afterChar_length in E2.
      eapply parseElements_more_fuel; [|exact H]. lia.
    + intros s acc r.
      replace (2 * String.length s + 2) with (S (2 * String.length s + 1)) by lia.
      rewrite (parseElements_S f), (parseElements_S (2 * String.length s + 1)).
      destruct (parseValue f (skipWs s)) as [[v0 r0]|] eqn:E1; [|discriminate].
      pose proof (Lv _ _ _ E1) as Hlen. pose proof (skipWs_length s) as Hws.
      apply IHv in E1.
      apply (parseValue_more_fuel _ (2 * String.length s + 1)) in E1; [|lia].
      rewrite E1.
      destruct (afterChar "," (skipWs r0)) as [r1|] eqn:E2; [|trivial].
      intros H. apply IHe in H. apply afterChar_length in E2.
      pose proof (skipWs_length r0).
      eapply parseElements_more_fuel; [|exact H]. lia.
    + intros s acc r.
      replace (2 * String.length s + 2) with (S (2 * String.length s + 1)) by lia.
      rewrite (parseMembers_S f), (parseMembers_S (2 * String.length s + 1)).
      destruct (afterChar "034" (skipWs s)) as [s1|] eqn:E0; [|trivial].
      destruct (parseChars s1) as [[key s2]|] eqn:E00; [|trivial].
      destruct (afterChar ":" (skipWs s2)) as [s3|] eqn:E000; [|trivial].
      destruct (parseValue f (skipWs s3)) as [[v0 r0]|] eqn:E1; [|discriminate].
      pose proof (Lv _ _ _ E1) as Hlen.
      apply afterChar_length in E0, E000. apply parseChars_length in E00.
      pose proof (skipWs_length s). pose proof (skipWs_length s2).
      pose proof (skipWs_length s3). pose proof (skipWs_length r0).
      apply IHv in E1.
      apply (parseValue_more_fuel _ (2 * String.length s + 1)) in E1; [|lia].
      rewrite E1.
      destruct (afterChar "," (skipWs r0)) as [r1|] eqn:E2; [|trivial].
      intros H'. apply IHm in H'. apply afterChar_length in E2.
      eapply parseMembers_more_fuel; [|exact H']. lia.
Qed.

(** [JSON.parse] does not depend on its fuel: a value that the parser reads
    from the whole text with any fuel at all is the value of [JSON_parse]. *)
Theorem JSON_parse_any_fuel (fuel : nat) (text : string) (v : JSValue) (rest : string) :
  parseValue fuel (skipWs text) = Some (v, rest) -> skipWs rest = "" ->
  JSON_parse text = Ok v.
Proof.
  intros H Hrest. unfold JSON_parse.
  apply (proj1 (twice_the_length_is_enough fuel)) in H.
  pose proof (skipWs_length text) as Hws.
  apply (parseValue_more_fuel _ (2 * String.length text + 3)) in H; [|lia].
  now rewrite H, Hrest.
Qed.

(** ** The intent parser *)

(** C1, as the code has it: the parser never throws; it falls back to the
    regex parser, silently, when the credential is missing or empty, and with
    a console warning only when the call of the model fails, when the reply
    has no content block, or when the trimmed text of its first block is not
    JSON; a reply whose trimmed text is JSON is returned as it was parsed,
    with no test that it is an object of the QueryIntent union. *)
Theorem parseUserQuery_fallback_on_failure (w : World) (msg : string) :
  (exists log v, parseUserQuery w msg = (log, Ok v)) /\
  (truthy (ANTHROPIC_API_KEY w) = false ->
   parseUserQuery w msg = ([], Ok (toJS (regexParse msg)))) /\
  (forall err,
     truthy (ANTHROPIC_API_KEY w) = true ->
     messages_create w msg = Throw err ->
     exists warning, parseUserQuery w msg = ([warning], Ok (toJS (regexParse msg)))) /\
  (truthy (ANTHROPIC_API_KEY w) = true ->
   messages_create w msg = Ok [] ->
   exists warning, parseUserQuery w msg = ([warning], Ok (toJS (regexParse msg)))) /\
  (forall block blocks err,
     truthy (ANTHROPIC_API_KEY w) = true ->
     messages_create w msg = Ok (block :: blocks) ->
     JSON_parse (trim (replyText block)) = Throw err ->
     exists warning, parseUserQuery w msg = ([warning], Ok (toJS (regexParse msg)))) /\
  (forall block blocks v,
     truthy (ANTHROPIC_API_KEY w) = true ->
     messages_create w msg = Ok (block :: blocks) ->
     JSON_parse (trim (replyText block)) = Ok v ->
     parseUserQuery w msg = ([], Ok v)).
Proof.
  unfold parseUserQuery, primaryPath, bind.
  split; [|split; [|split; [|split; [|split]]]].
  - destruct (truthy (ANTHROPIC_API_KEY w)); [|now eexists; eexists].
    destruct (messages_create w msg) as [[|block blocks]|err];
      try (now eexists; eexists).
    fold (replyText block).
    destruct (JSON_parse (trim (replyText block))); now eexists; eexists.
  - intros ->. reflexivity.
  - intros err -> ->. now eexists.
  - intros -> ->. now eexists.
  - intros block blocks err -> ->. fold (replyText block). intros ->. now eexists.
  - intros block blocks v -> ->. fold (replyText block). intros ->. reflexivity.
Qed.

(** A reply in prose is no JSON: the regex parser decides, and finds the
    help trigger. *)
Lemma parseUserQuery_fallback_on_failure_witness :
  exists warning,
    parseUserQuery (replyingWorld "Sure! Here is the JSON you asked for.") "help" =
    ([warning], Ok (JObject [("type", JString "help")])).
Proof.
  destruct (parseUserQuery_fallback_on_failure
              (replyingWorld "Sure! Here is the JSON you asked for.") "help")
    as (_ & _ & _ & _ & Hprose & _).
  apply (Hprose (TextBlock "Sure! Here is the JSON you asked for.") [] "SyntaxError");
    reflexivity.
Defined.

(** C1 as the specification states it fails: the reply [42] is no JSON
    object, and the reply [{"type": "portfolio"}] is an object of no kind of
    the union; the parser returns both as the intent, and in neither case
    the intent of the regex parser. *)
Lemma parseUserQuery_returns_nonconforming_reply :
  (JSON_parse (trim "42") = Ok (JNumber "42") /\
   conformsQueryIntent (JNumber "42") = false /\
   parseUserQuery (replyingWorld "42") "show my positions" = ([], Ok (JNumber "42")) /\
   toJS (regexParse "show my positions") <> JNumber "42") /\
  (JSON_parse (trim unknownKindReply) = Ok (JObject [("type", JString "portfolio")]) /\
   conformsQueryIntent (JObject [("type", JString "portfolio")]) = false /\
   parseUserQuery (replyingWorld unknownKindReply) "show my positions" =
   ([], Ok (JObject [("type", JString "portfolio")])) /\
   toJS (regexParse "show my positions") <> JObject [("type", JString "portfolio")]).
Proof.
  repeat split; try reflexivity; vm_compute; discriminate.
Qed.

(** ** The dispatch *)

(** C2: a snapshot, range or comparison intent with a required field missing
    (or empty) is answered with an error response that names what is needed;
    no query builder is called and no query is executed, whatever the query
    service would do.  And a builder that is called gets the fields of the
    intent, each of them present and not empty. *)
Theorem dispatch_rejects_incomplete_intent (parsed : ParsedQuery.t) :
  ((ParsedQuery.type parsed = "snapshot" /\
    (truthy (ParsedQuery.address parsed) = false \/
     truthy (ParsedQuery.date parsed) = false)) \/
   (ParsedQuery.type parsed = "range" /\
    (truthy (ParsedQuery.address parsed) = false \/
     truthy (ParsedQuery.start_date parsed) = false \/
     truthy (ParsedQuery.end_date parsed) = false)) \/
   (ParsedQuery.type parsed = "comparison" /\
    (truthy (ParsedQuery.address parsed) = false \/
     truthy (ParsedQuery.date1 parsed) = false \/
     truthy (ParsedQuery.date2 parsed) = false)) ->
   exists explanation,
     dispatch parsed = Reply explanation "error" /\
     includes explanation "I need" = true /\
     forall queryAllium,
       handleParsed queryAllium parsed =
       {| response := explanation; query_type := "error"; sql := None;
          status := 200 |}) /\
  (forall call format kind,
     dispatch parsed = RunQuery call format kind ->
     kind = ParsedQuery.type parsed /\
     ((exists a d,
         kind = "snapshot" /\ call = CallPositionQuery a d (ParsedQuery.protocol parsed) /\
         ParsedQuery.address parsed = Some a /\ ParsedQuery.date parsed = Some d /\
         a <> "" /\ d <> "") \/
      (exists a s e,
         kind = "range" /\
         call = CallPositionRangeQuery a s e (ParsedQuery.protocol parsed) /\
         ParsedQuery.address parsed = Some a /\
         ParsedQuery.start_date parsed = Some s /\
         ParsedQuery.end_date parsed = Some e /\ a <> "" /\ s <> "" /\ e <> "") \/
      (exists a d1 d2,
         kind = "comparison" /\
         call = CallComparisonQuery a d1 d2 (ParsedQuery.protocol parsed) /\
         ParsedQuery.address parsed = Some a /\
         ParsedQuery.date1 parsed = Some d1 /\
         ParsedQuery.date2 parsed = Some d2 /\ a <> "" /\ d1 <> "" /\ d2 <> ""))).
Proof.
  destruct parsed as [ty a d s e d1 d2 p m]. cbn [ParsedQuery.type ParsedQuery.address
    ParsedQuery.date ParsedQuery.start_date ParsedQuery.end_date ParsedQuery.date1
    ParsedQuery.date2 ParsedQuery.protocol].
  split.
  - assert (Hreply : forall r, dispatch (ParsedQuery.mk ty a d s e d1 d2 p m) = Reply r "error" ->
              includes r "I need" = true ->
              exists explanation,
                dispatch (ParsedQuery.mk ty a d s e d1 d2 p m) = Reply explanation "error" /\
                includes explanation "I need" = true /\
                forall queryAllium,
                  handleParsed queryAllium (ParsedQuery.mk ty a d s e d1 d2 p m) =
                  {| response := explanation; query_type := "error"; sql := None;
                     status := 200 |}).
    { intros r Hr Hinc. exists r. split; [exact Hr|]. split; [exact Hinc|].
      intros q. unfold handleParsed. rewrite Hr. reflexivity. }
    intros [[-> H] | [[-> H] | [-> H]]].
    + apply (Hreply needSnapshotFields); [|reflexivity]. unfold dispatch; cbn.
      destruct a as [a|], d as [d|]; try reflexivity; cbn in H;
        destruct H as [H|H]; apply negb_false_iff in H; rewrite H;
        rewrite ?orb_true_r; reflexivity.
    + apply (Hreply needRangeFields); [|reflexivity]. unfold dispatch; cbn.
      destruct a as [a|], s as [s|], e as [e|]; try reflexivity; cbn in H;
        destruct H as [H|[H|H]]; apply negb_false_iff in H; rewrite H;
        rewrite ?orb_true_r; reflexivity.
    + apply (Hreply needComparisonFields); [|reflexivity]. unfold dispatch; cbn.
      destruct a as [a|], d1 as [d1|], d2 as [d2|]; try reflexivity; cbn in H;
        destruct H as [H|[H|H]]; apply negb_false_iff in H; rewrite H;
        rewrite ?orb_true_r; reflexivity.
  - intros call format kind. unfold dispatch.
    cbn [ParsedQuery.type ParsedQuery.address ParsedQuery.date ParsedQuery.start_date
         ParsedQuery.end_date ParsedQuery.date1 ParsedQuery.date2 ParsedQuery.protocol
         ParsedQuery.message].
    destruct (ty =? "help") eqn:E1; [discriminate|].
    destruct (ty =? "error") eqn:E2; [discriminate|].
    destruct (ty =? "snapshot") eqn:E3.
    { apply String.eqb_eq in E3. subst ty.
      destruct a as [a|], d as [d|]; try discriminate.
      destruct (a =? "") eqn:Ea; [discriminate|].
      destruct (d =? "") eqn:Ed; [discriminate|]. cbn [orb].
      intros H. injection H as <- _ <-. split; [reflexivity|]. left.
      apply String.eqb_neq in Ea, Ed. exists a, d. tauto. }
    destruct (ty =? "range") eqn:E4.
    { apply String.eqb_eq in E4. subst ty.
      destruct a as [a|], s as [s|], e as [e|]; try discriminate.
      destruct (a =? "") eqn:Ea; [discriminate|].
      destruct (s =? "") eqn:Es; [discriminate|].
      destruct (e =? "") eqn:Ee; [discriminate|]. cbn [orb].
      intros H. injection H as <- _ <-. split; [reflexivity|]. right. left.
      apply String.eqb_neq in Ea, Es, Ee. exists a, s, e. tauto. }
    destruct (ty =? "comparison") eqn:E5; [|discriminate].
    apply String.eqb_eq in E5. subst ty.
    destruct a as [a|], d1 as [d1|], d2 as [d2|]; try discriminate.
    destruct (a =? "") eqn:Ea; [discriminate|].
    destruct (d1 =? "") eqn:Ed1; [discriminate|].
    destruct (d2 =? "") eqn:Ed2; [discriminate|]. cbn [orb].
    intros H. injection H as <- _ <-. split; [reflexivity|]. right. right.
    apply String.eqb_neq in Ea, Ed1, Ed2. exists a, d1, d2. tauto.
Qed.

(** A snapshot intent without a date, as the model may return it. *)
Lemma dispatch_rejects_incomplete_intent_witness :
  exists explanation,
    dispatch (ParsedQuery.mk "snapshot" (Some sampleWallet) None None None None None
                None None) = Reply explanation "error" /\
    includes explanation "I need" = true /\
    forall queryAllium,
      handleParsed queryAllium
        (ParsedQuery.mk "snapshot" (Some sampleWallet) None None None None None
           None None) =
      {| response := explanation; query_type := "error"; sql := None; status := 200 |}.
Proof.
  apply (dispatch_rejects_incomplete_intent
           (ParsedQuery.mk "snapshot" (Some sampleWallet) None None None None None
              None None)).
  left. split; [reflexivity|]. right. reflexivity.
Defined.

(** ** The query compiler *)

Lemma concat_snoc (sep x : string) (l : list string) :
  l <> [] -> String.concat sep (l ++ [x])%list = String.concat sep l ++ sep ++ x.
Proof.
  induction l as [|c cs IH]; [contradiction|]. intros _.
  destruct cs as [|c' cs]; [reflexivity|].
  change (String.concat sep ((c :: c' :: cs) ++ [x])%list)
    with (c ++ sep ++ String.concat sep ((c' :: cs) ++ [x])%list).
  rewrite IH by discriminate.
  change (String.concat sep (c :: c' :: cs))
    with (c ++ sep ++ String.concat sep (c' :: cs)).
  now rewrite !append_assoc.
Qed.

Lemma join_conditions (conditions : list string) (protocol : option string) :
  conditions <> [] ->
  join " AND " (pushProtocol conditions protocol) =
  join " AND " conditions ++ protocolFilter protocol.
Proof.
  intros Hne. unfold pushProtocol, protocolFilter, truthy.
  destruct protocol as [p|]; [|now rewrite append_nil_r].
  destruct (p =? ""); cbn [negb]; [now rewrite append_nil_r|].
  unfold join. now rewrite concat_snoc.
Qed.









(** ** The formatters *)

Lemma fold_left_append {A : Type} (f : A -> string) (l : list A) (init : string) :
  fold_left (fun md x => md ++ f x) l init = init ++ concatLines (map f l).
Proof.
  revert init. induction l as [|x l IH]; intros init; simpl.
  - now rewrite append_nil_r.
  - rewrite IH, append_assoc. reflexivity.
Qed.

Lemma sumUSD_fold (rows : list PositionRow.t) :
  sumUSD rows = fold_left PrimFloat.add (map PositionRow.usd_balance rows) 0%float.
Proof.
  unfold sumUSD. generalize 0%float as acc.
  induction rows as [|r rows IH]; intros acc; simpl; [reflexivity | apply IH].
Qed.

(** C6: for a row set that is not empty the snapshot report ends with the
    total of [usd_balance] over all the rows returned, added up from zero in
    the order of the rows.  The symbol of a row plays no part in the total:
    one more row, of whatever symbol, adds its [usd_balance] to it. *)
Theorem formatPositionTable_total_over_all_rows
  (row0 : PositionRow.t) (rows : list PositionRow.t) :
  formatPositionTable (row0 :: rows) =
  positionHead row0 ++ concatLines (map positionLine (row0 :: rows)) ++ nl ++
  "**Total Portfolio Value: " ++
  formatUSD
    (fold_left PrimFloat.add (map PositionRow.usd_balance (row0 :: rows)) 0%float) ++
  "**" ++ nl ++ dataSource /\
  forall r,
    fold_left PrimFloat.add
      (map PositionRow.usd_balance ((row0 :: rows) ++ [r])%list) 0%float =
    (fold_left PrimFloat.add (map PositionRow.usd_balance (row0 :: rows)) 0 +
     PositionRow.usd_balance r)%float.
Proof.
  split.
  - unfold formatPositionTable. rewrite fold_left_append, sumUSD_fold.
    generalize (concatLines (map positionLine (row0 :: rows))) as lines.
    generalize (formatUSD (fold_left PrimFloat.add
                             (map PositionRow.usd_balance (row0 :: rows)) 0%float))
      as total.
    generalize dataSource as src. unfold positionHead.
    generalize (shortAddr (PositionRow.address row0)) as a.
    generalize (formatDate (PositionRow.date row0)) as d.
    intros. rewrite !append_assoc. reflexivity.
  - intros r. rewrite map_app, fold_left_app. reflexivity.
Qed.

(** Two rows of one symbol: both are in the total of the snapshot report. *)
Example formatPositionTable_duplicate_symbols :
  includes
    (formatPositionTable
       [sampleRow "2025-12-31" "USDC" 10 10; sampleRow "2025-12-31" "USDC" 20 20])
    ("**Total Portfolio Value: $30.00**" ++ nl) = true.
Proof. vm_compute. reflexivity. Qed.

(** *** Sets of symbols and first rows *)

Lemma Set_add_member (set : list string) (x : string) :
  existsb (fun y => y =? x) (Set_add set x) = true.
Proof.
  unfold Set_add. destruct (existsb (fun y => y =? x) set) eqn:E; [exact E|].
  rewrite existsb_app. simpl. rewrite String.eqb_refl. now rewrite orb_true_r.
Qed.

Lemma Set_add_keeps (set : list string) (x z : string) :
  existsb (fun y => y =? x) set = true ->
  existsb (fun y => y =? x) (Set_add set z) = true.
Proof.
  intros H. unfold Set_add. destruct (existsb (fun y => y =? z) set); [exact H|].
  rewrite existsb_app, H. reflexivity.
Qed.

Lemma fold_Set_add_keeps (l set : list string) (x : string) :
  existsb (fun y => y =? x) set = true ->
  existsb (fun y => y =? x) (fold_left Set_add l set) = true.
Proof.
  revert set. induction l as [|z l IH]; intros set H; simpl; [exact H|].
  apply IH, Set_add_keeps, H.
Qed.

Lemma Set_add_again (set : list string) (x : string) :
  existsb (fun y => y =? x) set = true -> Set_add set x = set.
Proof. intros H. unfold Set_add. now rewrite H. Qed.

(** A symbol met before adds nothing to the set of symbols. *)
Lemma unique_drop_later (set X Y Z : list string) (s : string) :
  fold_left Set_add (X ++ s :: Y ++ s :: Z)%list set =
  fold_left Set_add (X ++ s :: Y ++ Z)%list set.
Proof.
  rewrite !fold_left_app. cbn [fold_left]. rewrite !fold_left_app. cbn [fold_left].
  rewrite (Set_add_again (fold_left Set_add Y _) s); [reflexivity|].
  apply fold_Set_add_keeps, Set_add_member.
Qed.


Lemma Set_add_In (set : list string) (x y : string) :
  In x (Set_add set y) <-> In x set \/ x = y.
Proof.
  unfold Set_add. destruct (existsb (fun z => z =? y) set) eqn:E.
  - split; [now left|]. intros [H | ->]; [exact H|].
    apply existsb_exists in E. destruct E as [z [Hz Hzy]].
    apply String.eqb_eq in Hzy. now subst z.
  - rewrite in_app_iff. simpl. intuition congruence.
Qed.

(** The set of symbols holds the symbols of the list, and no other. *)
Lemma unique_In (l : list string) (x : string) : In x (unique l) <-> In x l.
Proof.
  unfold unique.
  assert (Hgen : forall set, In x (fold_left Set_add l set) <-> In x set \/ In x l).
  { induction l as [|y l IH]; intros set; cbn [fold_left].
    - simpl. tauto.
    - rewrite IH, Set_add_In. simpl. intuition congruence. }
  rewrite Hgen. simpl. tauto.
Qed.

Lemma find_append {A : Type} (f : A -> bool) (l1 l2 : list A) :
  find f (l1 ++ l2)%list =
  match find f l1 with
  | Some x => Some x
  | None => find f l2
  end.
Proof.
  induction l1 as [|x l1 IH]; simpl; [reflexivity|]. now destruct (f x).
Qed.

Lemma find_filter {A : Type} (f p : A -> bool) (l : list A) :
  find f (filter p l) = find (fun x => p x && f x) l.
Proof.
  induction l as [|x l IH]; simpl; [reflexivity|].
  destruct (p x); simpl; [now destruct (f x) | exact IH].
Qed.

(** The first row that passes a test is the same without a later row that
    passes the test exactly when an earlier one does. *)
Lemma find_drop_later {A : Type} (f : A -> bool) (X Y Z : list A) (r r' : A) :
  f r' = f r ->
  find f (X ++ r :: Y ++ r' :: Z)%list = find f (X ++ r :: Y ++ Z)%list.
Proof.
  intros H. rewrite !find_append. destruct (find f X); [reflexivity|].
  cbn [find]. destruct (f r) eqn:Hr; [reflexivity|].
  rewrite !find_append. destruct (find f Y); [reflexivity|].
  cbn [find]. now rewrite H.
Qed.

Lemma fold_left_ext {A B : Type} (f g : A -> B -> A) (l : list B) (a : A) :
  (forall a' b, f a' b = g a' b) -> fold_left f l a = fold_left g l a.
Proof.
  intros H. revert a. induction l as [|b l IH]; intros a; simpl; [reflexivity|].
  now rewrite H, IH.
Qed.

(** The symbols of the rows of one date, without a later row of a symbol
    and date met before. *)
Lemma symbols_drop_later (p : PositionRow.t -> bool) (set : list string)
  (X Y Z : list PositionRow.t) (r r' : PositionRow.t) (more : list string) :
  PositionRow.symbol r' = PositionRow.symbol r -> p r' = p r ->
  fold_left Set_add
    (map PositionRow.symbol (filter p (X ++ r :: Y ++ r' :: Z)%list) ++ more)%list set =
  fold_left Set_add
    (map PositionRow.symbol (filter p (X ++ r :: Y ++ Z)%list) ++ more)%list set.
Proof.
  intros Hs Hp.
  rewrite !filter_app. cbn [filter]. rewrite !filter_app. cbn [filter]. rewrite Hp.
  destruct (p r); [|reflexivity].
  rewrite !map_app. cbn [map]. rewrite !map_app. cbn [map]. rewrite Hs.
  rewrite <- !app_assoc. cbn [app]. rewrite <- !app_assoc. cbn [app].
  apply unique_drop_later.
Qed.

(** A later row with the symbol and the date of an earlier row can be left
    out. *)
Lemma formatComparisonTable_drop_later
  (pre mid post : list PositionRow.t) (r r' : PositionRow.t) (date1 date2 : string) :
  PositionRow.symbol r' = PositionRow.symbol r ->
  formatDate (PositionRow.date r') = formatDate (PositionRow.date r) ->
  formatComparisonTable (pre ++ r :: mid ++ r' :: post)%list date1 date2 =
  formatComparisonTable (pre ++ r :: mid ++ post)%list date1 date2.
Proof.
  intros Hs Hd.
  assert (Hhd : exists row0 t t',
             (pre ++ r :: mid ++ r' :: post)%list = row0 :: t /\
             (pre ++ r :: mid ++ post)%list = row0 :: t').
  { destruct pre as [|x pre]; simpl; eauto. }
  destruct Hhd as [row0 [t [t' [E E']]]].
  unfold formatComparisonTable. rewrite E, E'. rewrite <- E, <- E'. clear E E' t t'.
  set (p1 := fun r0 => formatDate (PositionRow.date r0) =? date1).
  set (p2 := fun r0 => formatDate (PositionRow.date r0) =? date2).
  assert (Hp1 : p1 r' = p1 r) by (unfold p1; now rewrite Hd).
  assert (Hp2 : p2 r' = p2 r) by (unfold p2; now rewrite Hd).
  assert (Hsyms :
    unique (map PositionRow.symbol (filter p1 (pre ++ r :: mid ++ r' :: post)) ++
            map PositionRow.symbol (filter p2 (pre ++ r :: mid ++ r' :: post)))%list =
    unique (map PositionRow.symbol (filter p1 (pre ++ r :: mid ++ post)) ++
            map PositionRow.symbol (filter p2 (pre ++ r :: mid ++ post)))%list).
  { unfold unique. rewrite (symbols_drop_later p1 [] pre mid post r r' _ Hs Hp1).
    rewrite !fold_left_app.
    pose proof (symbols_drop_later p2
                  (fold_left Set_add
                     (map PositionRow.symbol (filter p1 (pre ++ r :: mid ++ post)%list)) [])
                  pre mid post r r' [] Hs Hp2) as H.
    rewrite !app_nil_r in H. exact H. }
  rewrite Hsyms.
  assert (Hstep : forall st symbol,
    comparisonStep (filter p1 (pre ++ r :: mid ++ r' :: post)%list)
      (filter p2 (pre ++ r :: mid ++ r' :: post)%list) st symbol =
    comparisonStep (filter p1 (pre ++ r :: mid ++ post)%list)
      (filter p2 (pre ++ r :: mid ++ post)%list) st symbol).
  { intros st symbol. unfold comparisonStep. rewrite !find_filter.
    rewrite (find_drop_later (fun x => p1 x && (PositionRow.symbol x =? symbol)) pre mid post r r')
      by now rewrite Hp1, Hs.
    rewrite (find_drop_later (fun x => p2 x && (PositionRow.symbol x =? symbol)) pre mid post r r')
      by now rewrite Hp2, Hs.
    reflexivity. }
  rewrite (fold_left_ext _ _ _ _ Hstep). reflexivity.
Qed.

Lemma formatComparisonTable_firstRows (rows pre : list PositionRow.t)
  (date1 date2 : string) :
  formatComparisonTable (pre ++ rows)%list date1 date2 =
  formatComparisonTable (pre ++ firstRows pre rows)%list date1 date2.
Proof.
  revert pre. induction rows as [|r rest IH]; intros pre; cbn [firstRows].
  - reflexivity.
  - destruct (existsb (sameKey r) pre) eqn:E.
    + apply existsb_exists in E. destruct E as [r0 [Hin Hkey]].
      unfold sameKey in Hkey. apply andb_true_iff in Hkey.
      destruct Hkey as [Hd Hs]. apply String.eqb_eq in Hd, Hs.
      destruct (in_split r0 pre Hin) as [A [B ->]].
      rewrite <- (IH (A ++ r0 :: B)%list).
      rewrite <- !app_assoc. cbn [app].
      now apply formatComparisonTable_drop_later.
    + replace (pre ++ r :: rest)%list with ((pre ++ [r]) ++ rest)%list
        by now rewrite <- app_assoc.
      rewrite IH. now rewrite <- app_assoc.
Qed.

(** C10: in the comparison report a later row with the symbol and the
    (normalised) date of an earlier row counts for nothing: the report is
    the same without it.  So the report of a row set is the report of the
    rows that are the first of their symbol and date, and balances, USD
    values and both totals come from these rows alone. *)
Theorem formatComparisonTable_ignores_later_duplicates :
  (forall (pre mid post : list PositionRow.t) (r r' : PositionRow.t)
          (date1 date2 : string),
     PositionRow.symbol r' = PositionRow.symbol r ->
     formatDate (PositionRow.date r') = formatDate (PositionRow.date r) ->
     formatComparisonTable (pre ++ r :: mid ++ r' :: post)%list date1 date2 =
     formatComparisonTable (pre ++ r :: mid ++ post)%list date1 date2) /\
  (forall (rows : list PositionRow.t) (date1 date2 : string),
     formatComparisonTable rows date1 date2 =
     formatComparisonTable (firstRows [] rows) date1 date2).
Proof.
  split.
  - intros. now apply formatComparisonTable_drop_later.
  - intros rows date1 date2.
    apply (formatComparisonTable_firstRows rows [] date1 date2).
Qed.

(** Two rows of USDC on the first date: the comparison report is the report
    without the second of them and counts ten dollars on that date, where
    the snapshot report of the same rows counts all thirty-five. *)
Lemma formatComparisonTable_ignores_later_duplicates_witness :
  formatComparisonTable
    [sampleRow "2025-09-30" "USDC" 10 10; sampleRow "2025-09-30T12:00:00" "USDC" 20 20;
     sampleRow "2025-12-31" "USDC" 5 5] "2025-09-30" "2025-12-31" =
  formatComparisonTable
    [sampleRow "2025-09-30" "USDC" 10 10; sampleRow "2025-12-31" "USDC" 5 5]
    "2025-09-30" "2025-12-31" /\
  includes
    (formatComparisonTable
       [sampleRow "2025-09-30" "USDC" 10 10; sampleRow "2025-09-30T12:00:00" "USDC" 20 20;
        sampleRow "2025-12-31" "USDC" 5 5] "2025-09-30" "2025-12-31")
    ("| USDC | 10.000000 | $10.00 | 5.000000 | $5.00 | $-5.00 | -50.00% |" ++ nl ++ nl ++
     "**Total Portfolio:**" ++ nl ++ "- 2025-09-30: $10.00" ++ nl) = true /\
  includes
    (formatPositionTable
       [sampleRow "2025-09-30" "USDC" 10 10; sampleRow "2025-09-30T12:00:00" "USDC" 20 20;
        sampleRow "2025-12-31" "USDC" 5 5])
    ("**Total Portfolio Value: $35.00**" ++ nl) = true.
Proof.
  split; [|split].
  - apply (proj1 formatComparisonTable_ignores_later_duplicates
             [] [] [sampleRow "2025-12-31" "USDC" 5 5]
             (sampleRow "2025-09-30" "USDC" 10 10)
             (sampleRow "2025-09-30T12:00:00" "USDC" 20 20)
             "2025-09-30" "2025-12-31"); reflexivity.
  - vm_compute. reflexivity.
  - vm_compute. reflexivity.
Defined.




(** A hundred dollars on the first date and a hundred and fifty on the
    second: half as much again. *)
Example formatComparisonTable_fifty_percent :
  includes
    (formatComparisonTable
       [sampleRow "2025-09-30" "SOL" 1 100; sampleRow "2025-12-31" "SOL" 1 150]
       "2025-09-30" "2025-12-31")
    ("| SOL | 1.000000 | $100.00 | 1.000000 | $150.00 | $50.00 | 50.00% |" ++ nl) = true.
Proof. vm_compute. reflexivity. Qed.

(** *** The range report *)

Lemma Map_get_push (k d : string) (row : PositionRow.t) (m : RowMap) :
  Map_get d (Map_push k row m) =
  if d =? k then
    match Map_get k m with
    | Some old => Some (old ++ [row])%list
    | None => None
    end
  else Map_get d m.
Proof.
  unfold Map_get. induction m as [|[k' v] m IH]; cbn [Map_push find fst snd].
  - now destruct (d =? k).
  - destruct (String.eqb_spec k' k) as [->|Hk]; cbn [find fst snd].
    + destruct (String.eqb_spec d k) as [->|Hd].
      * now rewrite String.eqb_refl.
      * destruct (String.eqb_spec k d) as [->|_]; [contradiction | reflexivity].
    + destruct (String.eqb_spec k' d) as [->|Hd].
      * destruct (String.eqb_spec d k) as [->|_]; [contradiction | reflexivity].
      * exact IH.
Qed.

Lemma Map_get_setEmpty (k d : string) (m : RowMap) :
  Map_get k m = None ->
  Map_get d (Map_setEmpty k m) = if d =? k then Some [] else Map_get d m.
Proof.
  unfold Map_get, Map_setEmpty. intros Hk. rewrite find_append.
  destruct (d =? k) eqn:Ed.
  - apply String.eqb_eq in Ed. subst d.
    destruct (find (fun e => fst e =? k) m); [discriminate|].
    simpl. now rewrite String.eqb_refl.
  - destruct (find (fun e => fst e =? d) m); [reflexivity|].
    simpl. now rewrite String.eqb_sym, Ed.
Qed.

Lemma Map_has_get (k : string) (m : RowMap) :
  Map_has k m = match Map_get k m with Some _ => true | None => false end.
Proof.
  unfold Map_has, Map_get. induction m as [|e m IH]; simpl; [reflexivity|].
  destruct (fst e =? k); [reflexivity | exact IH].
Qed.

Lemma Map_keys_get (k : string) (m : RowMap) :
  In k (Map_keys m) <-> Map_get k m <> None.
Proof.
  unfold Map_keys, Map_get. induction m as [|e m IH]; simpl.
  - split; [contradiction | congruence].
  - destruct (fst e =? k) eqn:E.
    + apply String.eqb_eq in E. split; [discriminate | now left].
    + apply String.eqb_neq in E. rewrite <- IH. tauto.
Qed.

Lemma rowsOn_snoc (d : string) (rows : list PositionRow.t) (row : PositionRow.t) :
  rowsOn d (rows ++ [row])%list =
  if formatDate (PositionRow.date row) =? d then (rowsOn d rows ++ [row])%list
  else rowsOn d rows.
Proof.
  unfold rowsOn. rewrite filter_app. simpl.
  destruct (formatDate (PositionRow.date row) =? d); [reflexivity | apply app_nil_r].
Qed.

Lemma groupStep_holds (m : RowMap) (seen : list PositionRow.t) (row : PositionRow.t) :
  holds m seen ->
  holds
    (let d := formatDate (PositionRow.date row) in
     Map_push d row (if Map_has d m then m else Map_setEmpty d m))
    (seen ++ [row])%list.
Proof.
  intros H d. cbv zeta. set (d0 := formatDate (PositionRow.date row)).
  rewrite rowsOn_snoc, Map_get_push. fold d0.
  pose proof (H d0) as H0. rewrite (String.eqb_sym d0 d).
  destruct (Map_has d0 m) eqn:Hhas; rewrite Map_has_get in Hhas;
    destruct (Map_get d0 m) as [old|] eqn:Hget; try discriminate.
  - rewrite ?Hget. destruct (String.eqb_spec d d0) as [->|_]; [|apply H].
    destruct (rowsOn d0 seen) as [|x l]; [discriminate|].
    injection H0 as ->. reflexivity.
  - rewrite !Map_get_setEmpty by exact Hget. rewrite String.eqb_refl.
    destruct (String.eqb_spec d d0) as [->|_]; [|apply H].
    destruct (rowsOn d0 seen) as [|x l]; [reflexivity | discriminate].
Qed.

Lemma groupByDate_holds (rows : list PositionRow.t) : holds (groupByDate rows) rows.
Proof.
  unfold groupByDate.
  assert (Hgen : forall rest seen m,
            holds m seen ->
            holds (fold_left
                     (fun byDate row =>
                        let d := formatDate (PositionRow.date row) in
                        let byDate := if Map_has d byDate then byDate
                                      else Map_setEmpty d byDate in
                        Map_push d row byDate) rest m) (seen ++ rest)%list).
  { induction rest as [|row rest IH]; intros seen m H.
    - now rewrite app_nil_r.
    - cbn [fold_left].
      replace (seen ++ row :: rest)%list with ((seen ++ [row]) ++ rest)%list
        by now rewrite <- app_assoc.
      apply IH. apply (groupStep_holds m seen row H). }
  apply (Hgen rows [] []). intros d. reflexivity.
Qed.

Lemma getOrEmpty_groupByDate (d : string) (rows : list PositionRow.t) :
  getOrEmpty (Some d) (groupByDate rows) = rowsOn d rows.
Proof.
  unfold getOrEmpty. rewrite (groupByDate_holds rows d). now destruct (rowsOn d rows).
Qed.

Lemma rowsOn_nonempty (d : string) (rows : list PositionRow.t) :
  rowsOn d rows <> [] <-> exists r, In r rows /\ formatDate (PositionRow.date r) = d.
Proof.
  unfold rowsOn. split.
  - destruct (filter _ rows) as [|r l] eqn:E; [congruence|]. intros _.
    assert (Hin : In r (filter (fun r => formatDate (PositionRow.date r) =? d) rows))
      by (rewrite E; now left).
    apply filter_In in Hin. exists r. split; [tauto | now apply String.eqb_eq].
  - intros [r [Hin Hd]] E.
    assert (Hr : In r (filter (fun r => formatDate (PositionRow.date r) =? d) rows))
      by (apply filter_In; split; [exact Hin | now apply String.eqb_eq]).
    now rewrite E in Hr.
Qed.

Lemma keys_groupByDate (d : string) (rows : list PositionRow.t) :
  In d (Map_keys (groupByDate rows)) <->
  exists r, In r rows /\ formatDate (PositionRow.date r) = d.
Proof.
  rewrite Map_keys_get, (groupByDate_holds rows d), <- rowsOn_nonempty.
  destruct (rowsOn d rows); split; congruence.
Qed.

Lemma Map_keys_push (k : string) (row : PositionRow.t) (m : RowMap) :
  Map_keys (Map_push k row m) = Map_keys m.
Proof.
  unfold Map_keys. induction m as [|e m IH]; cbn [Map_push map]; [reflexivity|].
  destruct (fst e =? k); cbn [map fst]; [reflexivity | now rewrite IH].
Qed.

Lemma Map_has_keys (k : string) (m : RowMap) :
  Map_has k m = true <-> In k (Map_keys m).
Proof.
  rewrite Map_has_get, Map_keys_get. destruct (Map_get k m); split; congruence.
Qed.

Lemma groupByDate_keys_NoDup (rows : list PositionRow.t) :
  NoDup (Map_keys (groupByDate rows)).
Proof.
  unfold groupByDate.
  assert (Hgen : forall rest m,
            NoDup (Map_keys m) ->
            NoDup (Map_keys
                     (fold_left
                        (fun byDate row =>
                           let d := formatDate (PositionRow.date row) in
                           let byDate := if Map_has d byDate then byDate
                                         else Map_setEmpty d byDate in
                           Map_push d row byDate) rest m))).
  { induction rest as [|row rest IH]; intros m H; cbn [fold_left]; [exact H|].
    apply IH. cbv zeta. rewrite Map_keys_push.
    destruct (Map_has (formatDate (PositionRow.date row)) m) eqn:Hhas; [exact H|].
    unfold Map_setEmpty, Map_keys. rewrite map_app. cbn [map fst].
    apply NoDup_app_remove_l with (l := []). cbn [app].
    apply Permutation_NoDup with (l := formatDate (PositionRow.date row) :: map fst m).
    - apply Permutation_cons_append.
    - constructor; [|exact H]. intros Hin. apply Map_has_keys in Hin. congruence. }
  apply Hgen. constructor.
Qed.

Lemma insertSorted_perm (x : string) (l : list string) :
  Permutation (insertSorted x l) (x :: l).
Proof.
  induction l as [|y l IH]; simpl; [apply Permutation_refl|].
  destruct (x <=? y)%string; [apply Permutation_refl|].
  eapply Permutation_trans; [apply perm_skip, IH | apply perm_swap].
Qed.

Lemma sort_perm (l : list string) : Permutation (sort l) l.
Proof.
  unfold sort. induction l as [|x l IH]; simpl; [apply Permutation_refl|].
  eapply Permutation_trans; [apply insertSorted_perm | apply perm_skip, IH].
Qed.

Lemma insertSorted_sorted (x : string) (l : list string) :
  Sorted (fun a b => (a <=? b)%string = true) l ->
  Sorted (fun a b => (a <=? b)%string = true) (insertSorted x l).
Proof.
  induction l as [|y l IH]; intros H; cbn [insertSorted].
  - repeat constructor.
  - destruct (x <=? y)%string eqn:E.
    + constructor; [exact H | now constructor].
    + inversion H as [|? ? Hl Hhd]; subst. constructor; [now apply IH|].
      assert (Hyx : (y <=? x)%string = true)
        by (destruct (String.leb_total x y); congruence).
      destruct l as [|z l]; cbn [insertSorted].
      * now constructor.
      * destruct (x <=? z)%string; constructor; [exact Hyx|].
        now inversion Hhd.
Qed.

(** The dates come out of [sort] in ascending order. *)
Lemma sort_sorted (l : list string) :
  Sorted (fun a b => (a <=? b)%string = true) (sort l).
Proof.
  unfold sort. induction l as [|x l IH]; cbn [fold_right]; [constructor|].
  now apply insertSorted_sorted.
Qed.

Lemma symbolRow_groupByDate (rows : list PositionRow.t) (s d : string) :
  symbolRow (groupByDate rows) s d =
  find (fun r => PositionRow.symbol r =? s) (rowsOn d rows).
Proof. unfold symbolRow. now rewrite getOrEmpty_groupByDate. Qed.

Lemma find_some_iff {A : Type} (f : A -> bool) (l : list A) :
  (exists x, find f l = Some x) <-> exists x, In x l /\ f x = true.
Proof.
  split.
  - intros [x H]. exists x. now apply find_some in H.
  - intros [x [Hin Hf]]. destruct (find f l) as [y|] eqn:E; [now exists y|].
    now rewrite (find_none f l E x Hin) in Hf.
Qed.

Lemma symbolLines_series (byDate : RowMap) (dates : list string) (s md0 : string) :
  symbolLines byDate dates s md0 =
  md0 ++ concatLines
           (map (fun e => rangeLine (fst e) (snd e))
              (flat_map
                 (fun d =>
                    match symbolRow byDate s d with
                    | Some row => [(d, row)]
                    | None => []
                    end) dates)).
Proof.
  unfold symbolLines. revert md0. induction dates as [|d dates IH]; intros md0; simpl.
  - now rewrite append_nil_r.
  - rewrite IH. destruct (symbolRow byDate s d) as [row|]; simpl; [|reflexivity].
    now rewrite append_assoc.
Qed.

Lemma symbolTable_series (rows : list PositionRow.t) (s md0 : string) :
  symbolTable (groupByDate rows) (sort (Map_keys (groupByDate rows))) md0 s =
  md0 ++ tableHead s ++
  concatLines (map (fun e => rangeLine (fst e) (snd e)) (rangeSeries rows s)) ++ nl.
Proof.
  unfold symbolTable. rewrite symbolLines_series. fold (rangeSeries rows s).
  generalize (concatLines (map (fun e => rangeLine (fst e) (snd e)) (rangeSeries rows s)))
    as lines.
  intros lines. unfold tableHead. rewrite !append_assoc. reflexivity.
Qed.

(** Three dates, and no row of SOL on the second one: the table of SOL goes
    from the first date to the third. *)
Example formatRangeTable_missing_middle_date :
  let rows :=
    [sampleRow "2025-10-01" "USDC" 10 10; sampleRow "2025-10-01" "SOL" 2 300;
     sampleRow "2025-10-02" "USDC" 12 12;
     sampleRow "2025-10-03" "USDC" 15 15; sampleRow "2025-10-03" "SOL" 3 450] in
  map fst (rangeSeries rows "USDC") = ["2025-10-01"; "2025-10-02"; "2025-10-03"] /\
  map fst (rangeSeries rows "SOL") = ["2025-10-01"; "2025-10-03"] /\
  includes (formatRangeTable rows)
    (tableHead "SOL" ++
     "| 2025-10-01 | 2.000000 | $300.00 | $1.0000 |" ++ nl ++
     "| 2025-10-03 | 3.000000 | $450.00 | $1.0000 |" ++ nl ++ nl ++
     "**Period Summary:**") = true.
Proof. vm_compute. repeat split. Qed.

(** ** Numbers *)

Lemma allChars_append (p : ascii -> bool) (a b : string) :
  allChars p (a ++ b) = allChars p a && allChars p b.
Proof.
  induction a as [|c a IH]; simpl; [reflexivity|]. now rewrite IH, andb_assoc.
Qed.

Lemma allChars_slices (p : ascii -> bool) (n : nat) (s : string) :
  allChars p s = true ->
  allChars p (sliceTo n s) = true /\ allChars p (sliceFrom n s) = true.
Proof.
  intros H. rewrite <- (sliceTo_sliceFrom n s), allChars_append in H.
  now apply andb_true_iff in H.
Qed.

Lemma length_sliceFrom (n : nat) (s : string) :
  String.length (sliceFrom n s) = String.length s - n.
Proof.
  revert s. induction n as [|n IH]; intros [|c s]; simpl; try reflexivity.
  apply IH.
Qed.

Lemma zeros_digits (n : nat) : allChars isDigit (zeros n) = true.
Proof. induction n as [|n IH]; simpl; [reflexivity | exact IH]. Qed.

Lemma length_zeros (n : nat) : String.length (zeros n) = n.
Proof. induction n as [|n IH]; simpl; [reflexivity | now rewrite IH]. Qed.

Lemma string_of_uint_digits (u : Decimal.uint) :
  allChars isDigit (NilEmpty.string_of_uint u) = true.
Proof. induction u; simpl; try reflexivity; exact IHu. Qed.

Lemma decimal_digits (n : Z) :
  allChars isDigit (decimal n) = true /\ decimal n <> "".
Proof.
  unfold decimal, NilZero.string_of_uint.
  destruct (N.to_uint (Z.to_N n)) eqn:E;
    (split; [try reflexivity; rewrite <- E; try apply string_of_uint_digits | discriminate]).
  all: change (allChars isDigit (NilEmpty.string_of_uint (N.to_uint (Z.to_N n))) = true);
    apply string_of_uint_digits.
Qed.

Lemma fixedDigits_decimals (f : nat) (n : Z) :
  0 < f ->
  exists int frac,
    fixedDigits f n = int ++ "." ++ frac /\ int <> "" /\
    allChars isDigit int = true /\ allChars isDigit frac = true /\
    String.length frac = f.
Proof.
  intros Hf. destruct f as [|f']; [lia|]. unfold fixedDigits.
  destruct (decimal_digits n) as [Hd Hne].
  set (f := S f') in *.
  set (m := if (String.length (decimal n) <=? f)%nat
            then zeros (f + 1 - String.length (decimal n)) ++ decimal n
            else decimal n).
  assert (Hm : allChars isDigit m = true /\ f < String.length m).
  { unfold m. destruct (String.length (decimal n) <=? f)%nat eqn:E.
    - apply Nat.leb_le in E. split.
      + now rewrite allChars_append, zeros_digits, Hd.
      + rewrite length_append, length_zeros. lia.
    - apply Nat.leb_gt in E. now split. }
  destruct Hm as [Hdig Hlen].
  destruct (allChars_slices isDigit (String.length m - f) m Hdig) as [Ha Hb].
  exists (sliceTo (String.length m - f) m), (sliceFrom (String.length m - f) m).
  split; [reflexivity|]. split.
  - intros E. apply (f_equal String.length) in E. rewrite length_sliceTo in E.
    simpl in E. lia.
  - split; [exact Ha|]. split; [exact Hb|]. rewrite length_sliceFrom. lia.
Qed.

(** In its fixed range [toFixed] writes a numeral with [f] decimals. *)
Lemma toFixed_decimals (x : float) (f : nat) :
  0 < f -> fixedRange x = true -> hasDecimals f (toFixed x f).
Proof.
  intros Hf. unfold fixedRange, toFixed.
  destruct (Prim2SF x) as [sg| | |sg m e]; try discriminate.
  - intros _. destruct (fixedDigits_decimals f 0 Hf) as [int [frac [E H]]].
    exists "", int, frac. rewrite E. tauto.
  - intros H. apply negb_true_iff in H. rewrite H.
    destruct (fixedDigits_decimals f (roundHalfUp m e f) Hf) as [int [frac [E H']]].
    exists (if sg then "-" else ""), int, frac. rewrite E.
    split; [reflexivity|]. split; [destruct sg; tauto | tauto].
Qed.

(** C8: a USD value of a million or more is written as the value divided by
    a million with [toFixed(2)] and the suffix M, a value of a thousand or
    more as the value divided by a thousand with [toFixed(2)] and the suffix
    K, any other value with [toFixed(2)] as it is; a token balance likewise,
    with [toFixed(4)] after scaling and [toFixed(6)] without.  [toFixed]
    writes exactly that many decimals for every finite number below [10^21]
    in magnitude. *)
Theorem magnitude_abbreviation (value : float) :
  ((1000000 <=? value)%float = true ->
   formatUSD value = "$" ++ toFixed (value / 1000000) 2 ++ "M" /\
   formatBalance value = toFixed (value / 1000000) 4 ++ "M" /\
   (fixedRange (value / 1000000) = true ->
    hasDecimals 2 (toFixed (value / 1000000) 2) /\
    hasDecimals 4 (toFixed (value / 1000000) 4))) /\
  ((1000000 <=? value)%float = false -> (1000 <=? value)%float = true ->
   formatUSD value = "$" ++ toFixed (value / 1000) 2 ++ "K" /\
   formatBalance value = toFixed (value / 1000) 4 ++ "K" /\
   (fixedRange (value / 1000) = true ->
    hasDecimals 2 (toFixed (value / 1000) 2) /\
    hasDecimals 4 (toFixed (value / 1000) 4))) /\
  ((1000000 <=? value)%float = false -> (1000 <=? value)%float = false ->
   formatUSD value = "$" ++ toFixed value 2 /\
   formatBalance value = toFixed value 6 /\
   (fixedRange value = true ->
    hasDecimals 2 (toFixed value 2) /\ hasDecimals 6 (toFixed value 6))) /\
  formatUSD 1500000 = "$1.50M" /\ formatUSD 2500 = "$2.50K" /\
  formatUSD 42.5 = "$42.50" /\
  formatBalance 1500000 = "1.5000M" /\ formatBalance 2500 = "2.5000K" /\
  formatBalance 42.5 = "42.500000".
Proof.
  unfold formatUSD, formatBalance.
  split; [|split; [|split]].
  - intros ->. repeat split; try reflexivity; apply toFixed_decimals; (lia || assumption).
  - intros -> ->. repeat split; try reflexivity; apply toFixed_decimals; (lia || assumption).
  - intros -> ->. repeat split; try reflexivity; apply toFixed_decimals; (lia || assumption).
  - repeat split; vm_compute; reflexivity.
Qed.

(** One and a half million dollars. *)
Lemma magnitude_abbreviation_witness :
  formatUSD 1500000 = "$1.50M" /\ formatBalance 1500000 = "1.5000M" /\
  hasDecimals 2 "1.50" /\ hasDecimals 4 "1.5000".
Proof.
  destruct (magnitude_abbreviation 1500000) as [Hmillion _].
  destruct (Hmillion eq_refl) as [Husd [Hbal Hdec]].
  destruct (Hdec eq_refl) as [H2 H4].
  split; [exact Husd|]. split; [exact Hbal|]. split; [exact H2 | exact H4].
Defined.

(** ** The fallback parser, case by case *)

Lemma toLowerCase_append (a b : string) :
  toLowerCase (a ++ b) = toLowerCase a ++ toLowerCase b.
Proof. induction a as [|c a IH]; simpl; [reflexivity | now rewrite IH]. Qed.

(** The decisions of the fallback parser, in their order. *)
Lemma regexParse_cases (msg : string) :
  (helpTrigger (toLowerCase msg) = true /\ regexParse msg = ParsedQuery.only "help") \/
  (helpTrigger (toLowerCase msg) = false /\ matchAddress msg = None /\
   regexParse msg = errorIntent needAddressText) \/
  (helpTrigger (toLowerCase msg) = false /\
   exists a, matchAddress msg = Some a /\ isAddress a /\
     ((matchAllDates msg = [] /\ regexParse msg = errorIntent needDateText) \/
      (exists d1 d2 rest,
         matchAllDates msg = d1 :: d2 :: rest /\
         comparisonTrigger (toLowerCase msg) = true /\
         regexParse msg = comparisonIntent a d1 d2) \/
      (exists d1 d2 rest,
         matchAllDates msg = d1 :: d2 :: rest /\
         comparisonTrigger (toLowerCase msg) = false /\
         rangeTrigger (toLowerCase msg) = true /\
         regexParse msg = rangeIntent a d1 d2) \/
      (exists d rest,
         matchAllDates msg = d :: rest /\
         (rest = [] \/
          (comparisonTrigger (toLowerCase msg) = false /\
           rangeTrigger (toLowerCase msg) = false)) /\
         regexParse msg = snapshotIntent a d))).
Proof.
  unfold regexParse.
  destruct (helpTrigger (toLowerCase msg)); [now left|]. right.
  destruct (matchAddress msg) as [a|] eqn:Ha; [|left; repeat split].
  right. split; [reflexivity|]. exists a. split; [reflexivity|].
  destruct (matchAddress_some msg a Ha) as [Hlen [Hall _]].
  split; [split; assumption|].
  assert (Ht : truthy (Some a) = true).
  { destruct a; [simpl in Hlen; lia | reflexivity]. }
  rewrite Ht. cbn [negb].
  destruct (matchAllDates msg) as [|d1 [|d2 rest]].
  - left. rewrite !andb_false_r. split; reflexivity.
  - right. right. right. rewrite !andb_false_r. exists d1, []. repeat split. now left.
  - rewrite !andb_true_r. right.
    destruct (comparisonTrigger (toLowerCase msg)).
    + left. exists d1, d2, rest. repeat split.
    + right. destruct (rangeTrigger (toLowerCase msg)).
      * left. exists d1, d2, rest. repeat split.
      * right. exists d1, (d2 :: rest). repeat split. now right.
Qed.

Lemma isDateText_chars (d : string) :
  isDateText d = true -> String.length d = 10 /\ allChars isDateChar d = true.
Proof.
  unfold isDateText. destruct (matchDateAt d) as [d'|] eqn:H; [|discriminate].
  intros Heq. apply String.eqb_eq in Heq. subst d'.
  destruct (matchDateAt_some d d H) as [_ [Hlen _]]. split; [exact Hlen|].
  unfold matchDateAt in H.
  do 10 (destruct d as [|? d]; [discriminate|]).
  destruct d; [|simpl in Hlen; lia].
  match type of H with (if ?b then _ else _) = _ => destruct b eqn:Hb end;
    [|discriminate].
  rewrite !andb_true_iff in Hb.
  destruct Hb as [[[[[[[[[E1 E2] E3] E4] E5] E6] E7] E8] E9] E10].
  unfold isDateChar. cbn [allChars].
  rewrite E1, E2, E3, E4, E5, E6, E7, E8, E9, E10, ?orb_true_r. reflexivity.
Qed.

Lemma scanned_dates (msg : string) (d : string) :
  In d (matchAllDates msg) -> isDateText d = true.
Proof.
  intros Hin. pose proof (scanDates_dates 0 msg) as H.
  rewrite Forall_forall in H. now apply H.
Qed.

(** X1: the help trigger is looked for in the lower-cased utterance as a whole:
    an utterance that contains the word help, or the words what can you, in
    any mix of upper and lower case and at any place, inside a longer word
    or inside the wallet address too, is a help request, whatever address
    and dates it names. *)
Theorem regexParse_help_in_any_case (pre w post : string) :
  toLowerCase w = "help" \/ toLowerCase w = "what can you" ->
  regexParse (pre ++ w ++ post) = ParsedQuery.only "help".
Proof.
  intros Hw.
  destruct (regexParse_cases (pre ++ w ++ post)) as [[_ H]|[[Hh _]|[Hh _]]];
    [exact H | |].
  all: exfalso; unfold helpTrigger in Hh; rewrite !toLowerCase_append in Hh.
  all: destruct Hw as [Hw|Hw]; rewrite Hw in Hh.
  all: repeat (apply orb_false_iff in Hh; destruct Hh as [Hh ?]).
  all: match goal with
       | E : includes ?s ?t = false |- _ =>
           assert (Hin : includes s t = true)
             by (apply includes_spec; now exists (toLowerCase pre), (toLowerCase post));
           congruence
       end.
Qed.

(** The letters HELP inside the address of a comparison request. *)
Lemma regexParse_help_in_any_case_witness :
  regexParse ("Compare " ++ "5HELPtg2CW87d97TXJSDpbD5jBkheTqA83TZRuJosgAsU" ++
              " on 2025-09-30 vs 2025-12-31") = ParsedQuery.only "help".
Proof.
  change ("Compare " ++ "5HELPtg2CW87d97TXJSDpbD5jBkheTqA83TZRuJosgAsU" ++
          " on 2025-09-30 vs 2025-12-31")
    with ("Compare 5" ++ "HELP" ++
          "tg2CW87d97TXJSDpbD5jBkheTqA83TZRuJosgAsU on 2025-09-30 vs 2025-12-31").
  apply regexParse_help_in_any_case. left. reflexivity.
Defined.

(** X2: without a help trigger, the fallback parser asks for a wallet address
    exactly when the utterance has no 32 base58 characters in a row; dates
    and trigger words make no difference. *)
Theorem regexParse_asks_for_address (msg : string) :
  helpTrigger (toLowerCase msg) = false ->
  (regexParse msg = errorIntent needAddressText <->
   forall pre a post,
     msg = pre ++ a ++ post -> allChars isBase58 a = true -> String.length a < 32).
Proof.
  intros Hh. split.
  - intros Hr pre a post -> Hall.
    destruct (Nat.lt_ge_cases (String.length a) 32) as [Hlt|Hge]; [exact Hlt|].
    exfalso.
    destruct (matchAddress_found pre a post Hge Hall) as [a' Ha'].
    destruct (regexParse_cases (pre ++ a ++ post))
      as [[Hh' _]|[[_ [Hnone _]]|[_ [a0 [_ [_ Hc]]]]]]; try congruence.
    rewrite Hr in Hc.
    destruct Hc as [[_ Hc]|[[? [? [? [_ [_ Hc]]]]]|[[? [? [? [_ [_ [_ Hc]]]]]]|[? [? [_ [_ Hc]]]]]]];
      discriminate.
  - intros Hno.
    destruct (regexParse_cases msg) as [[Hh' _]|[[_ [_ H]]|[_ [a [Ha [[Hlen _] _]]]]]];
      [congruence | exact H |].
    exfalso. destruct (matchAddress_some msg a Ha) as [_ [Hall [pre [post Hs]]]].
    specialize (Hno pre a post Hs Hall). lia.
Qed.

(** A comparison request with two dates and the words my wallet for an address. *)
Lemma regexParse_asks_for_address_witness :
  regexParse "compare my wallet on 2025-09-30 vs 2025-12-31" = errorIntent needAddressText <->
  forall pre a post,
    "compare my wallet on 2025-09-30 vs 2025-12-31" = pre ++ a ++ post ->
    allChars isBase58 a = true -> String.length a < 32.
Proof.
  apply (regexParse_asks_for_address "compare my wallet on 2025-09-30 vs 2025-12-31").
  reflexivity.
Defined.

Lemma matchAddress_isAddress (pre a0 post : string) :
  isAddress a0 -> exists a, matchAddress (pre ++ a0 ++ post) = Some a.
Proof. intros [[Hlen _] Hall]. now apply matchAddress_found. Qed.

(** X3: with an address and no help trigger, an utterance with exactly one date,
    or with several dates and neither a comparison nor a range trigger, is
    a snapshot request for the leftmost date: a comparison or range word
    with a single date changes nothing, and further dates without such a
    word are ignored. *)
Theorem regexParse_snapshot_of_first_date (msg : string) :
  (exists pre a post, msg = pre ++ a ++ post /\ isAddress a) ->
  helpTrigger (toLowerCase msg) = false ->
  List.length (matchAllDates msg) = 1 \/
  (1 <= List.length (matchAllDates msg) /\
   comparisonTrigger (toLowerCase msg) = false /\
   rangeTrigger (toLowerCase msg) = false) ->
  exists a d i,
    regexParse msg = snapshotIntent a d /\ isAddress a /\ firstDateFrom msg 0 i d.
Proof.
  intros [pre [a0 [post [-> Ha0]]]] Hh Hd.
  destruct (matchAddress_isAddress pre a0 post Ha0) as [a1 Ha1].
  destruct (regexParse_cases (pre ++ a0 ++ post))
    as [[Hh' _]|[[_ [Hnone _]]|[_ [a [Ha [Hvalid Hc]]]]]]; try congruence.
  unfold matchAllDates in *.
  destruct Hc as [[E _]|[[d1 [d2 [rest [E [Hc _]]]]]|[[d1 [d2 [rest [E [_ [Hr _]]]]]]|[d [rest [E [_ Hq]]]]]]];
    rewrite E in Hd; simpl in Hd.
  - destruct Hd as [Hd|[Hd _]]; lia.
  - destruct Hd as [Hd|[_ [Hd _]]]; [lia | congruence].
  - destruct Hd as [Hd|[_ [_ Hd]]]; [lia | congruence].
  - destruct (firstDateFrom_scan (pre ++ a0 ++ post) 0 d rest E) as [i [Hi _]].
    exists a, d, i. tauto.
Qed.

(** The word compare and a single date. *)
Lemma regexParse_snapshot_of_first_date_witness :
  exists i,
    regexParse ("Compare " ++ sampleWallet ++ " on 2025-12-31") =
    snapshotIntent sampleWallet "2025-12-31" /\
    firstDateFrom ("Compare " ++ sampleWallet ++ " on 2025-12-31") 0 i "2025-12-31".
Proof.
  destruct (regexParse_snapshot_of_first_date ("Compare " ++ sampleWallet ++ " on 2025-12-31"))
    as [a [d [i [Hq [_ Hi]]]]].
  - exists "Compare ", sampleWallet, " on 2025-12-31".
    split; [reflexivity|]. split; [cbn; lia | reflexivity].
  - reflexivity.
  - left. reflexivity.
  - vm_compute in Hq. injection Hq as <- <-. exists i. split; [reflexivity | exact Hi].
Defined.

(** X4: with an address, a range trigger, no help and no comparison trigger and
    at least two dates, the fallback parser returns a range whose start is
    the leftmost date of the utterance and whose end is the leftmost date
    after it, in the order of the utterance: a later date written first is
    the start, and a third date is ignored. *)
Theorem regexParse_range_extraction_order (msg : string) :
  (exists pre a post, msg = pre ++ a ++ post /\ isAddress a) ->
  helpTrigger (toLowerCase msg) = false ->
  comparisonTrigger (toLowerCase msg) = false ->
  rangeTrigger (toLowerCase msg) = true ->
  2 <= List.length (matchAllDates msg) ->
  exists a s e i j,
    regexParse msg = rangeIntent a s e /\ isAddress a /\
    firstDateFrom msg 0 i s /\ firstDateFrom msg (i + 10) j e.
Proof.
  intros [pre [a0 [post [-> Ha0]]]] Hh Hcmp Hrange Hd.
  destruct (matchAddress_isAddress pre a0 post Ha0) as [a1 Ha1].
  destruct (regexParse_cases (pre ++ a0 ++ post))
    as [[Hh' _]|[[_ [Hnone _]]|[_ [a [Ha [Hvalid Hc]]]]]]; try congruence.
  unfold matchAllDates in *.
  destruct Hc as [[E _]|[[d1 [d2 [rest [E [Hc _]]]]]|[[d1 [d2 [rest [E [_ [_ Hq]]]]]]|[d [rest [E [Hor _]]]]]]].
  - rewrite E in Hd. simpl in Hd. lia.
  - congruence.
  - destruct (firstDateFrom_scan _ 0 d1 (d2 :: rest) E) as [i [Hfirst Hrest]].
    symmetry in Hrest.
    destruct (firstDateFrom_scan _ (i + 10) d2 rest Hrest) as [j [Hsecond _]].
    exists a, d1, d2, i, j. tauto.
  - destruct Hor as [->|[_ Hr]]; [|congruence].
    rewrite E in Hd. simpl in Hd. lia.
Qed.

(** The later date written first. *)
Lemma regexParse_range_extraction_order_witness :
  exists i j,
    regexParse ("History of " ++ sampleWallet ++ " from 2025-12-31 to 2025-10-01") =
    rangeIntent sampleWallet "2025-12-31" "2025-10-01" /\
    firstDateFrom ("History of " ++ sampleWallet ++ " from 2025-12-31 to 2025-10-01") 0 i
      "2025-12-31" /\
    firstDateFrom ("History of " ++ sampleWallet ++ " from 2025-12-31 to 2025-10-01") (i + 10) j
      "2025-10-01".
Proof.
  destruct (regexParse_range_extraction_order
              ("History of " ++ sampleWallet ++ " from 2025-12-31 to 2025-10-01"))
    as [a [s [e [i [j [Hq [_ [H1 H2]]]]]]]].
  - exists "History of ", sampleWallet, " from 2025-12-31 to 2025-10-01".
    split; [reflexivity|]. split; [cbn; lia | reflexivity].
  - reflexivity.
  - reflexivity.
  - reflexivity.
  - cbn. lia.
  - vm_compute in Hq. injection Hq as <- <- <-. exists i, j.
    split; [reflexivity|]. split; assumption.
Defined.

Lemma classRun_exact (p : ascii -> bool) (n : nat) (a post : string) :
  allChars p a = true -> String.length a <= n ->
  String.length a = n \/ startsWithClass p post = false ->
  classRun p n (a ++ post) = a.
Proof.
  revert a. induction n as [|n IH]; intros a Hall Hlen Hend.
  - destruct a; [|simpl in Hlen; lia]. now destruct post.
  - destruct a as [|c a].
    + destruct Hend as [Hend|Hend]; [simpl in Hend; lia|].
      destruct post as [|c post]; [reflexivity|]. simpl in *. now rewrite Hend.
    + simpl in Hall. apply andb_true_iff in Hall. destruct Hall as [Hc Hall].
      simpl. rewrite Hc. f_equal. apply IH; [exact Hall | simpl in Hlen; lia |].
      destruct Hend as [Hend|Hend]; [left; simpl in Hend; lia | now right].
Qed.

Lemma classRun_end (p : ascii -> bool) (n : nat) (s : string) :
  String.length (classRun p n s) = n \/
  startsWithClass p (sliceFrom (String.length (classRun p n s)) s) = false.
Proof.
  revert s. induction n as [|n IH]; intros s; [left; now destruct s|].
  destruct s as [|c s]; [now right|]. simpl.
  destruct (p c) eqn:Hc; simpl; [|right; exact Hc].
  destruct (IH s) as [H|H]; [left; now rewrite H | now right].
Qed.

Lemma classRun_occurrence (p : ascii -> bool) (b post : string) :
  allChars p b = true -> 32 <= String.length b ->
  32 <= String.length (classRun p 44 (b ++ post)).
Proof.
  intros Hall Hlen. pose proof (classRun_append p 44 b post Hall). lia.
Qed.

Lemma matchAddress_at (pre a post : string) :
  (forall k b, k < String.length pre -> occursAt b (pre ++ a ++ post) k ->
               allChars isBase58 b = true -> String.length b < 32) ->
  matchAddress (pre ++ a ++ post) = matchAddress (a ++ post).
Proof.
  induction pre as [|c pre IH]; intros Hnone; [reflexivity|].
  change (String c pre ++ a ++ post) with (String c (pre ++ a ++ post)).
  rewrite matchAddress_unfold.
  destruct (32 <=? String.length (classRun isBase58 44 (String c (pre ++ a ++ post))))%nat
    eqn:E.
  - exfalso. apply Nat.leb_le in E.
    destruct (classRun_prefix isBase58 44 (String c (pre ++ a ++ post))) as [r Hr].
    pose proof (classRun_allChars isBase58 44 (String c (pre ++ a ++ post))) as Hall.
    specialize (Hnone 0 (classRun isBase58 44 (String c (pre ++ a ++ post)))).
    assert (String.length (classRun isBase58 44 (String c (pre ++ a ++ post))) < 32); [|lia].
    apply Hnone; [simpl; lia | | exact Hall].
    exists "", r. split; [exact Hr | reflexivity].
  - apply IH. intros k b Hk [pre' [post' [Ho Hl]]] Hall.
    apply (Hnone (S k) b); [simpl; lia | | exact Hall].
    exists (String c pre'), post'. split; [simpl; now rewrite Ho | simpl; now rewrite Hl].
Qed.

(** X5: the address of an utterance is the text matched at the leftmost index
    where 32 base58 characters stand in a row, and it extends from there as
    far as base58 characters go, to 44 characters at most. *)
Theorem matchAddress_leftmost_greedy (msg a : string) :
  matchAddress msg = Some a <->
  exists pre post,
    msg = pre ++ a ++ post /\ isAddress a /\
    (String.length a = 44 \/ startsWithClass isBase58 post = false) /\
    forall k b, k < String.length pre -> occursAt b msg k ->
                allChars isBase58 b = true -> String.length b < 32.
Proof.
  split.
  - revert a. induction msg as [|c s IH]; intros a H; rewrite matchAddress_unfold in H.
    + remember (classRun isBase58 44 "") as run eqn:Hrun. simpl in Hrun. subst run.
      discriminate.
    + pose proof (classRun_length isBase58 44 (String c s)) as Hmax.
      pose proof (classRun_allChars isBase58 44 (String c s)) as Hall.
      pose proof (classRun_end isBase58 44 (String c s)) as Hend.
      destruct (classRun_prefix isBase58 44 (String c s)) as [r Hr].
      pose proof (classRun_occurrence isBase58) as Hocc.
      remember (classRun isBase58 44 (String c s)) as run eqn:Hrun.
      destruct (32 <=? String.length run)%nat eqn:Hlen.
      * injection H as <-. apply Nat.leb_le in Hlen.
        exists "", r. split; [exact Hr|]. split; [split; [lia | exact Hall]|].
        split.
        -- destruct Hend as [Hend|Hend]; [now left | right].
           rewrite Hr in Hend. now rewrite sliceFrom_append in Hend.
        -- intros k b Hk. simpl in Hk. lia.
      * apply Nat.leb_gt in Hlen.
        destruct (IH a H) as [pre [post [Hs [Ha [Hgreedy Hleft]]]]].
        exists (String c pre), post. split; [simpl; now rewrite Hs|].
        split; [exact Ha|]. split; [exact Hgreedy|].
        intros [|k] b Hk [pre' [post' [Ho Hl]]] Hb.
        -- destruct pre'; [|discriminate]. simpl in Ho.
           destruct (Nat.lt_ge_cases (String.length b) 32) as [Hlt|Hge]; [exact Hlt|].
           exfalso. pose proof (Hocc b post' Hb Hge) as Hrun'.
           rewrite <- Ho, <- Hrun in Hrun'. lia.
        -- destruct pre' as [|c' pre']; [discriminate|]. simpl in Ho, Hl.
           injection Ho as _ Ho. apply (Hleft k b); [simpl in Hk; lia | | exact Hb].
           exists pre', post'. split; [exact Ho | lia].
  - intros [pre [post [-> [[Hlen Hall] [Hgreedy Hleft]]]]].
    rewrite (matchAddress_at pre a post Hleft), matchAddress_unfold.
    rewrite (classRun_exact isBase58 44 a post Hall (proj2 Hlen) Hgreedy).
    destruct (32 <=? String.length a)%nat eqn:E; [reflexivity|].
    apply Nat.leb_gt in E. lia.
Qed.

Lemma classRun_stops (p : ascii -> bool) (n : nat) (u rest : string) (c : ascii) :
  p c = false -> classRun p n (u ++ String c rest) = classRun p n u.
Proof.
  intros Hc. revert u. induction n as [|n IH]; intros u.
  - now destruct u.
  - destruct u as [|x u]; simpl; [now rewrite Hc|].
    destruct (p x); [now rewrite IH | reflexivity].
Qed.

Lemma matchAddress_after (p rest : string) (c : ascii) :
  matchAddress p = None -> isBase58 c = false ->
  matchAddress (p ++ String c rest) = matchAddress rest.
Proof.
  intros Hp Hc. induction p as [|x p IH].
  - change ("" ++ String c rest) with (String c rest).
    rewrite matchAddress_unfold. cbn [classRun]. now rewrite Hc.
  - rewrite matchAddress_unfold in Hp.
    change (String x p ++ String c rest) with (String x (p ++ String c rest)).
    rewrite matchAddress_unfold.
    change (String x (p ++ String c rest)) with (String x p ++ String c rest) at 1.
    rewrite (classRun_stops isBase58 44 (String x p) rest c Hc).
    destruct (32 <=? String.length (classRun isBase58 44 (String x p)))%nat;
      [discriminate | now apply IH].
Qed.

(** X6: a run of more than 44 base58 characters is not rejected: where the text
    before it has no address and ends with a character outside base58, the
    address of the utterance is the first 44 characters of the run. *)
Theorem matchAddress_truncates_long_run (p a post : string) (c : ascii) :
  matchAddress p = None -> isBase58 c = false ->
  allChars isBase58 a = true -> 44 <= String.length a ->
  matchAddress (p ++ String c (a ++ post)) = Some (sliceTo 44 a).
Proof.
  intros Hp Hc Hall Hlen. rewrite (matchAddress_after p (a ++ post) c Hp Hc).
  rewrite <- (sliceTo_sliceFrom 44 a) at 1. rewrite append_assoc.
  rewrite matchAddress_unfold.
  destruct (allChars_slices isBase58 44 a Hall) as [Hhead _].
  assert (Hl : String.length (sliceTo 44 a) = 44)
    by (rewrite length_sliceTo; lia).
  rewrite (classRun_exact isBase58 44 (sliceTo 44 a) _ Hhead); [|lia|now left].
  now rewrite Hl.
Qed.

(** An address followed by three more base58 characters. *)
Lemma matchAddress_truncates_long_run_witness :
  matchAddress ("positions of" ++ String " " ((sampleWallet ++ "abc") ++ " today")) =
  Some sampleWallet.
Proof.
  apply (matchAddress_truncates_long_run "positions of" (sampleWallet ++ "abc") " today" " ");
    [reflexivity | reflexivity | reflexivity | cbn; lia].
Defined.

Lemma datesFrom_scan (msg : string) (n : nat) :
  forall start,
    List.length (scanDates 0 (sliceFrom start msg)) = n ->
    datesFrom msg start (scanDates 0 (sliceFrom start msg)).
Proof.
  induction n as [|n IH]; intros start Hn.
  - destruct (scanDates 0 (sliceFrom start msg)) eqn:E; [|discriminate].
    constructor. intros k d Hk Hd Hocc.
    assert (Hm : matchDateAt (sliceFrom k msg) = Some d) by now apply dateAt_iff.
    pose proof (scanDates_nil _ E (k - start)) as Hnone.
    rewrite sliceFrom_sliceFrom in Hnone.
    replace (start + (k - start)) with k in Hnone by lia. congruence.
  - destruct (scanDates 0 (sliceFrom start msg)) as [|d rest] eqn:E; [discriminate|].
    destruct (firstDateFrom_scan msg start d rest E) as [i [Hi Hrest]].
    apply datesFrom_cons with (i := i); [exact Hi|].
    rewrite Hrest. apply IH. rewrite <- Hrest. simpl in Hn. lia.
Qed.

(** X7: the dates extracted from an utterance are the successive leftmost
    matches of the date pattern that do not overlap: the first is the
    leftmost match, each further one the leftmost match that begins after
    the ten characters of the one before, and the pattern matches nowhere
    after the last. *)
Theorem matchAllDates_successive_matches (msg : string) :
  datesFrom msg 0 (matchAllDates msg).
Proof.
  unfold matchAllDates.
  exact (datesFrom_scan msg (List.length (scanDates 0 msg)) 0 eq_refl).
Qed.

(** ** The queries of the fallback path *)

Lemma countChar_append (c : ascii) (a b : string) :
  countChar c (a ++ b) = countChar c a + countChar c b.
Proof. induction a as [|x a IH]; simpl; [reflexivity | rewrite IH; lia]. Qed.

Lemma countChar_toLowerCase (s : string) :
  countChar sqlQuote (toLowerCase s) = countChar sqlQuote s.
Proof.
  induction s as [|x s IH]; simpl; [reflexivity|]. rewrite IH. f_equal.
  destruct x as [[] [] [] [] [] [] [] []]; reflexivity.
Qed.

Lemma countChar_none (p : ascii -> bool) (c : ascii) (s : string) :
  p c = false -> allChars p s = true -> countChar c s = 0.
Proof.
  intros Hc. induction s as [|x s IH]; simpl; [reflexivity|].
  rewrite andb_true_iff. intros [Hx Hs]. rewrite (IH Hs).
  destruct (Ascii.eqb_spec x c) as [->|_]; [congruence | reflexivity].
Qed.

Lemma countChar_protocolFilter (protocol : option string) :
  countChar sqlQuote (protocolFilter protocol) = protocolQuotes protocol.
Proof.
  unfold protocolFilter, protocolQuotes. destruct protocol as [p|]; [|reflexivity].
  destruct (p =? ""); [reflexivity|].
  rewrite !countChar_append, countChar_toLowerCase. cbn. lia.
Qed.

Lemma buildPositionQuery_quotes (address date : string) (protocol : option string) :
  countChar sqlQuote (buildPositionQuery address date protocol) =
  4 + countChar sqlQuote address + countChar sqlQuote date + protocolQuotes protocol.
Proof.
  unfold buildPositionQuery. rewrite join_conditions by discriminate.
  unfold join. cbn [String.concat].
  rewrite !countChar_append, countChar_protocolFilter. cbn. lia.
Qed.

Lemma buildPositionRangeQuery_quotes (address startDate endDate : string)
  (protocol : option string) :
  countChar sqlQuote (buildPositionRangeQuery address startDate endDate protocol) =
  6 + countChar sqlQuote address + countChar sqlQuote startDate +
  countChar sqlQuote endDate + protocolQuotes protocol.
Proof.
  unfold buildPositionRangeQuery. rewrite join_conditions by discriminate.
  unfold join. cbn [String.concat].
  rewrite !countChar_append, countChar_protocolFilter. cbn. lia.
Qed.

Lemma buildComparisonQuery_quotes (address date1 date2 : string)
  (protocol : option string) :
  countChar sqlQuote (buildComparisonQuery address date1 date2 protocol) =
  6 + countChar sqlQuote address + countChar sqlQuote date1 +
  countChar sqlQuote date2 + protocolQuotes protocol.
Proof.
  unfold buildComparisonQuery. rewrite join_conditions by discriminate.
  unfold join. cbn [String.concat].
  rewrite !countChar_append, countChar_protocolFilter. cbn. lia.
Qed.

Lemma address_no_quote (a : string) : isAddress a -> countChar sqlQuote a = 0.
Proof. intros [_ H]. now apply (countChar_none isBase58). Qed.

Lemma date_no_quote (d : string) : isDateText d = true -> countChar sqlQuote d = 0.
Proof.
  intros H. apply isDateText_chars in H. now apply (countChar_none isDateChar).
Qed.

Lemma address_not_empty (a : string) : isAddress a -> (a =? "") = false.
Proof. intros [[H _] _]. destruct a; [simpl in H; lia | reflexivity]. Qed.

Lemma date_not_empty (d : string) : isDateText d = true -> (d =? "") = false.
Proof.
  intros H. apply isDateText_chars in H. destruct H as [H _].
  destruct d; [discriminate | reflexivity].
Qed.

(** X8: the builders put their arguments between the quotes of the template as
    they are: a query has the quotes of its template, four or six, those of
    the protocol filter, and every quote of every argument, none of them
    doubled or escaped. *)
Theorem query_builders_keep_quotes (address dateA dateB : string)
  (protocol : option string) :
  countChar sqlQuote (buildPositionQuery address dateA protocol) =
  4 + countChar sqlQuote address + countChar sqlQuote dateA + protocolQuotes protocol /\
  countChar sqlQuote (buildPositionRangeQuery address dateA dateB protocol) =
  6 + countChar sqlQuote address + countChar sqlQuote dateA +
  countChar sqlQuote dateB + protocolQuotes protocol /\
  countChar sqlQuote (buildComparisonQuery address dateA dateB protocol) =
  6 + countChar sqlQuote address + countChar sqlQuote dateA +
  countChar sqlQuote dateB + protocolQuotes protocol.
Proof.
  split; [apply buildPositionQuery_quotes|].
  split; [apply buildPositionRangeQuery_quotes | apply buildComparisonQuery_quotes].
Qed.

(** What the handler decides for the intent of the fallback parser. *)
Lemma dispatch_regexParse_cases (msg : string) :
  dispatch (regexParse msg) = Reply helpText "help" \/
  dispatch (regexParse msg) = Reply needAddressText "error" \/
  dispatch (regexParse msg) = Reply needDateText "error" \/
  (exists a d,
     isAddress a /\ isDateText d = true /\
     dispatch (regexParse msg) =
     RunQuery (CallPositionQuery a d None) formatPositionTable "snapshot") \/
  (exists a s e,
     isAddress a /\ isDateText s = true /\ isDateText e = true /\
     dispatch (regexParse msg) =
     RunQuery (CallPositionRangeQuery a s e None) formatRangeTable "range") \/
  (exists a d1 d2,
     isAddress a /\ isDateText d1 = true /\ isDateText d2 = true /\
     dispatch (regexParse msg) =
     RunQuery (CallComparisonQuery a d1 d2 None)
       (fun rows => formatComparisonTable rows d1 d2) "comparison").
Proof.
  destruct (regexParse_cases msg)
    as [[_ ->]|[[_ [_ ->]]|[_ [a [_ [Ha Hc]]]]]]; [now left | right; now left |].
  pose proof (address_not_empty a Ha) as Hne.
  destruct Hc as [[_ ->]|[[d1 [d2 [rest [E [_ ->]]]]]|[[d1 [d2 [rest [E [_ [_ ->]]]]]]|[d [rest [E [_ ->]]]]]]].
  - right. right. now left.
  - assert (H1 : isDateText d1 = true) by (apply (scanned_dates msg); rewrite E; now left).
    assert (H2 : isDateText d2 = true)
      by (apply (scanned_dates msg); rewrite E; right; now left).
    do 5 right. exists a, d1, d2. repeat (split; [assumption|]).
    unfold dispatch, comparisonIntent. cbn [ParsedQuery.type ParsedQuery.address
      ParsedQuery.date1 ParsedQuery.date2 ParsedQuery.protocol].
    rewrite Hne, (date_not_empty d1 H1), (date_not_empty d2 H2). reflexivity.
  - assert (H1 : isDateText d1 = true) by (apply (scanned_dates msg); rewrite E; now left).
    assert (H2 : isDateText d2 = true)
      by (apply (scanned_dates msg); rewrite E; right; now left).
    do 4 right. left. exists a, d1, d2. repeat (split; [assumption|]).
    unfold dispatch, rangeIntent. cbn [ParsedQuery.type ParsedQuery.address
      ParsedQuery.start_date ParsedQuery.end_date ParsedQuery.protocol].
    rewrite Hne, (date_not_empty d1 H1), (date_not_empty d2 H2). reflexivity.
  - assert (H1 : isDateText d = true) by (apply (scanned_dates msg); rewrite E; now left).
    do 3 right. left. exists a, d. repeat (split; [assumption|]).
    unfold dispatch, snapshotIntent. cbn [ParsedQuery.type ParsedQuery.address
      ParsedQuery.date ParsedQuery.protocol].
    rewrite Hne, (date_not_empty d H1). reflexivity.
Qed.

(** X9: for the intent of the fallback parser the handler never answers that a
    field is missing or that the kind is unsupported: it answers with the
    help text, with one of the two explanations of the parser, or it calls
    the builder of the kind with an address of 32 to 44 base58 characters,
    dates of the shape dddd-dd-dd and no protocol. *)
Theorem dispatch_of_fallback_intent (msg : string) :
  dispatch (regexParse msg) = Reply helpText "help" \/
  dispatch (regexParse msg) = Reply needAddressText "error" \/
  dispatch (regexParse msg) = Reply needDateText "error" \/
  (exists a d,
     isAddress a /\ isDateText d = true /\
     dispatch (regexParse msg) =
     RunQuery (CallPositionQuery a d None) formatPositionTable "snapshot") \/
  (exists a s e,
     isAddress a /\ isDateText s = true /\ isDateText e = true /\
     dispatch (regexParse msg) =
     RunQuery (CallPositionRangeQuery a s e None) formatRangeTable "range") \/
  (exists a d1 d2,
     isAddress a /\ isDateText d1 = true /\ isDateText d2 = true /\
     dispatch (regexParse msg) =
     RunQuery (CallComparisonQuery a d1 d2 None)
       (fun rows => formatComparisonTable rows d1 d2) "comparison").
Proof. apply dispatch_regexParse_cases. Qed.

(** X10: a query compiled from the intent of the fallback parser has the quotes
    of its template and no other: the address and the dates that the two
    patterns extract hold no quote, so that no utterance changes the
    structure of the query on this path. *)
Theorem fallback_query_has_template_quotes (msg : string) (call : BuilderCall)
  (format : list PositionRow.t -> string) (kind : string) :
  dispatch (regexParse msg) = RunQuery call format kind ->
  countChar sqlQuote (runBuilder call) =
  match call with
  | CallPositionQuery _ _ _ => 4
  | _ => 6
  end.
Proof.
  intros H.
  destruct (dispatch_regexParse_cases msg)
    as [E|[E|[E|[[a [d [Ha [Hd E]]]]|[[a [s [e [Ha [Hs [He E]]]]]]|[a [d1 [d2 [Ha [H1 [H2 E]]]]]]]]]]];
    rewrite E in H; try discriminate; injection H as <- _ _; cbn [runBuilder].
  - rewrite buildPositionQuery_quotes, (address_no_quote a Ha), (date_no_quote d Hd).
    reflexivity.
  - rewrite buildPositionRangeQuery_quotes, (address_no_quote a Ha),
      (date_no_quote s Hs), (date_no_quote e He). reflexivity.
  - rewrite buildComparisonQuery_quotes, (address_no_quote a Ha),
      (date_no_quote d1 H1), (date_no_quote d2 H2). reflexivity.
Qed.

(** An utterance with quotes of its own after the address. *)
Lemma fallback_query_has_template_quotes_witness :
  countChar sqlQuote
    (runBuilder (CallPositionQuery sampleWallet "2025-12-31" None)) = 4.
Proof.
  apply (fallback_query_has_template_quotes
           ("positions of " ++ sampleWallet ++ "' OR '1'='1 on 2025-12-31")
           (CallPositionQuery sampleWallet "2025-12-31" None)
           formatPositionTable "snapshot").
  reflexivity.
Defined.

(** X11: the intent of the fallback parser is a value of the QueryIntent union,
    for every utterance. *)
Theorem regexParse_conforms (msg : string) :
  conformsQueryIntent (toJS (regexParse msg)) = true.
Proof.
  destruct (regexParse_cases msg)
    as [[_ ->]|[[_ [_ ->]]|[_ [a [_ [_ Hc]]]]]]; [reflexivity | reflexivity |].
  destruct Hc as [[_ ->]|[[d1 [d2 [rest [_ [_ ->]]]]]|[[d1 [d2 [rest [_ [_ [_ ->]]]]]]|[d [rest [_ [_ ->]]]]]]];
    reflexivity.
Qed.

(** ** The intents that reach no query *)

Lemma parseValue_beginsNoJson (f : nat) (s : string) :
  match s with
  | EmptyString => true
  | String c _ => negb (startsJsonValue c)
  end = true ->
  parseValue f s = None.
Proof.
  destruct f as [|f]; [reflexivity|]. rewrite parseValue_S.
  destruct s as [|c s]; [reflexivity|].
  destruct c as [[] [] [] [] [] [] [] []]; intros H; try discriminate H; reflexivity.
Qed.

Lemma JSON_parse_beginsNoJson (text : string) :
  beginsNoJson text = true -> JSON_parse text = Throw "SyntaxError".
Proof.
  unfold beginsNoJson, JSON_parse. intros H.
  now rewrite (parseValue_beginsNoJson _ (skipWs text) H).
Qed.

(** X12: a reply of the model that is empty, or that begins with anything but a
    JSON value, prose or the fence of a code block, is discarded even when
    a JSON object follows: the parser warns and returns the intent of the
    fallback parser. *)
Theorem parseUserQuery_discards_reply_in_prose
  (w : World) (msg : string) (block : ContentBlock) (blocks : list ContentBlock) :
  truthy (ANTHROPIC_API_KEY w) = true ->
  messages_create w msg = Ok (block :: blocks) ->
  beginsNoJson (trim (replyText block)) = true ->
  exists warning, parseUserQuery w msg = ([warning], Ok (toJS (regexParse msg))).
Proof.
  intros Hkey Hreply Hprose. unfold parseUserQuery, primaryPath.
  rewrite Hkey, Hreply. cbn [bind]. fold (replyText block).
  rewrite (JSON_parse_beginsNoJson _ Hprose). now eexists.
Qed.

(** A help intent inside a fenced code block, for a snapshot request. *)
Lemma parseUserQuery_discards_reply_in_prose_witness :
  exists warning,
    parseUserQuery (replyingWorld fencedReply)
      ("positions of " ++ sampleWallet ++ " on 2025-12-31") =
    ([warning], Ok (toJS (snapshotIntent sampleWallet "2025-12-31"))).
Proof.
  apply (parseUserQuery_discards_reply_in_prose (replyingWorld fencedReply)
           ("positions of " ++ sampleWallet ++ " on 2025-12-31")
           (TextBlock fencedReply) []); reflexivity.
Defined.

(** X13: an intent of a kind that is none of the five is answered with an error
    response and no query, whatever fields it carries and whatever the
    query service would do. *)
Theorem handleParsed_unsupported_kind
  (execute : string -> result (list PositionRow.t)) (parsed : ParsedQuery.t) :
  isKind (ParsedQuery.type parsed) = false ->
  handleParsed execute parsed =
  {| response := "Unsupported query type."; query_type := "error"; sql := None;
     status := 200 |}.
Proof.
  unfold isKind, handleParsed, dispatch. intros H.
  rewrite !orb_false_iff in H. destruct H as [[[[H1 H2] H3] H4] H5].
  now rewrite H1, H2, H3, H4, H5.
Qed.

(** An intent of the kind portfolio with an address and a date. *)
Lemma handleParsed_unsupported_kind_witness :
  handleParsed (fun _ => Throw "unreachable")
    (ParsedQuery.mk "portfolio" (Some sampleWallet) (Some "2025-12-31")
       None None None None None None) =
  {| response := "Unsupported query type."; query_type := "error"; sql := None;
     status := 200 |}.
Proof.
  apply (handleParsed_unsupported_kind (fun _ => Throw "unreachable")
           (ParsedQuery.mk "portfolio" (Some sampleWallet) (Some "2025-12-31")
              None None None None None None)).
  reflexivity.
Defined.

(** ** The reports *)

(** X14: [formatDate] keeps the text before the first [T]: a timestamp and the
    plain date it begins with are the same date, and a plain date is left
    as it is. *)
Theorem formatDate_drops_time (d time : string) :
  countChar "T" d = 0 ->
  formatDate (d ++ String "T" time) = d /\ formatDate d = d.
Proof.
  unfold formatDate. induction d as [|c d IH]; simpl.
  - intros _. split; reflexivity.
  - destruct (Ascii.eqb c "T"); [discriminate|]. simpl. intros H.
    destruct (IH H) as [H1 H2]. now rewrite H1, H2.
Qed.

(** Midnight of the last day of 2025. *)
Lemma formatDate_drops_time_witness :
  formatDate ("2025-12-31" ++ String "T" "00:00:00.000Z") = "2025-12-31" /\
  formatDate "2025-12-31" = "2025-12-31".
Proof. apply (formatDate_drops_time "2025-12-31" "00:00:00.000Z"). reflexivity. Defined.

(** X15: an address of eight characters or more is shown as its first four and
    its last four characters around three dots, eleven characters in all,
    with the characters between them left out. *)
Theorem shortAddr_first_and_last_four (address : string) :
  8 <= String.length address ->
  exists head middle tail,
    address = head ++ middle ++ tail /\
    String.length head = 4 /\ String.length tail = 4 /\
    shortAddr address = head ++ "..." ++ tail.
Proof.
  intros Hlen. unfold shortAddr, sliceLast.
  exists (sliceTo 4 address),
    (sliceTo (String.length address - 8) (sliceFrom 4 address)),
    (sliceFrom (String.length address - 4) address).
  split; [|split; [|split]].
  - rewrite <- (sliceTo_sliceFrom 4 address) at 1. f_equal.
    rewrite <- (sliceTo_sliceFrom (String.length address - 8) (sliceFrom 4 address)) at 1.
    f_equal. rewrite sliceFrom_sliceFrom. f_equal. lia.
  - rewrite length_sliceTo. lia.
  - rewrite length_sliceFrom. lia.
  - reflexivity.
Qed.

(** The sample wallet. *)
Lemma shortAddr_first_and_last_four_witness :
  exists head middle tail,
    sampleWallet = head ++ middle ++ tail /\
    String.length head = 4 /\ String.length tail = 4 /\
    shortAddr sampleWallet = head ++ "..." ++ tail.
Proof. apply (shortAddr_first_and_last_four sampleWallet). cbn. lia. Defined.

Lemma sliceTo_all (n : nat) (s : string) : String.length s <= n -> sliceTo n s = s.
Proof.
  revert s. induction n as [|n IH]; intros [|c s] H; simpl in *; try reflexivity; try lia.
  rewrite IH; [reflexivity | lia].
Qed.

(** X16: an address of four characters or fewer is shown whole on both sides of
    the dots. *)
Theorem shortAddr_of_short_address (address : string) :
  String.length address <= 4 ->
  shortAddr address = address ++ "..." ++ address.
Proof.
  intros Hlen. unfold shortAddr, sliceLast.
  rewrite (sliceTo_all 4 address Hlen).
  replace (String.length address - 4) with 0 by lia.
  now destruct address.
Qed.

(** An address of three characters. *)
Lemma shortAddr_of_short_address_witness : shortAddr "abc" = "abc...abc".
Proof. apply (shortAddr_of_short_address "abc"). cbn. lia. Defined.

Lemma Set_add_NoDup (set : list string) (x : string) :
  NoDup set -> NoDup (Set_add set x).
Proof.
  intros H. unfold Set_add.
  destruct (existsb (fun y => y =? x) set) eqn:E; [exact H|].
  apply NoDup_app_remove_l with (l := []). cbn [app].
  apply Permutation_NoDup with (l := x :: set).
  - apply Permutation_cons_append.
  - constructor; [|exact H]. intros Hin.
    assert (Hex : existsb (fun y => y =? x) set = true)
      by (apply existsb_exists; exists x; split; [exact Hin | apply String.eqb_refl]).
    congruence.
Qed.

Lemma unique_NoDup (l : list string) : NoDup (unique l).
Proof.
  unfold unique.
  assert (Hgen : forall set, NoDup set -> NoDup (fold_left Set_add l set)).
  { induction l as [|x l IH]; intros set H; cbn [fold_left]; [exact H|].
    apply IH. now apply Set_add_NoDup. }
  apply Hgen. constructor.
Qed.

Lemma Map_has_existsb (d : string) (m : RowMap) :
  Map_has d m = existsb (fun y => y =? d) (Map_keys m).
Proof.
  unfold Map_has, Map_keys. induction m as [|e m IH]; simpl; [reflexivity|].
  now rewrite IH.
Qed.

Lemma groupStep_keys (m : RowMap) (row : PositionRow.t) :
  Map_keys (let d := formatDate (PositionRow.date row) in
            Map_push d row (if Map_has d m then m else Map_setEmpty d m)) =
  Set_add (Map_keys m) (rowDate row).
Proof.
  cbv zeta. rewrite Map_keys_push. unfold Set_add, rowDate.
  rewrite <- Map_has_existsb.
  destruct (Map_has (formatDate (PositionRow.date row)) m); [reflexivity|].
  unfold Map_setEmpty, Map_keys. now rewrite map_app.
Qed.

Lemma groupByDate_keys (rows : list PositionRow.t) :
  Map_keys (groupByDate rows) = unique (map rowDate rows).
Proof.
  unfold groupByDate, unique.
  assert (Hgen : forall rest m,
            Map_keys
              (fold_left
                 (fun byDate row =>
                    let d := formatDate (PositionRow.date row) in
                    let byDate := if Map_has d byDate then byDate
                                  else Map_setEmpty d byDate in
                    Map_push d row byDate) rest m) =
            fold_left Set_add (map rowDate rest) (Map_keys m)).
  { induction rest as [|row rest IH]; intros m; cbn [fold_left map]; [reflexivity|].
    rewrite IH. f_equal. apply groupStep_keys. }
  apply (Hgen rows []).
Qed.

(** X17: grouping by date is a partition of the rows: the keys of the map are
    the distinct normalised dates in the order of their first row, and the
    map holds for a date the rows of that date, all of them and in the order
    of the row set; a date of no row has no entry. *)
Theorem groupByDate_partition (rows : list PositionRow.t) :
  Map_keys (groupByDate rows) = unique (map rowDate rows) /\
  NoDup (Map_keys (groupByDate rows)) /\
  forall d,
    Map_get d (groupByDate rows) =
    match filter (fun r => rowDate r =? d) rows with
    | [] => None
    | group => Some group
    end.
Proof.
  split; [apply groupByDate_keys|].
  split; [rewrite groupByDate_keys; apply unique_NoDup|].
  intros d. apply (groupByDate_holds rows d).
Qed.

Lemma comparisonStep_line (d1Rows d2Rows : list PositionRow.t) (st : ComparisonState)
  (symbol : string) :
  comparisonStep d1Rows d2Rows st symbol =
  {| md := md st ++ comparisonLine d1Rows d2Rows symbol;
     totalD1 := (totalD1 st + usdOf symbol d1Rows)%float;
     totalD2 := (totalD2 st + usdOf symbol d2Rows)%float |}.
Proof.
  unfold comparisonStep, comparisonLine, usdOf, balanceOf, firstOf. f_equal.
Qed.

Lemma comparison_fold (d1Rows d2Rows : list PositionRow.t) (symbols : list string) :
  forall head t1 t2,
    fold_left (comparisonStep d1Rows d2Rows) symbols
      {| md := head; totalD1 := t1; totalD2 := t2 |} =
    {| md := head ++ concatLines (map (comparisonLine d1Rows d2Rows) symbols);
       totalD1 := fold_left (fun sum s => (sum + usdOf s d1Rows)%float) symbols t1;
       totalD2 := fold_left (fun sum s => (sum + usdOf s d2Rows)%float) symbols t2 |}.
Proof.
  induction symbols as [|s symbols IH]; intros head t1 t2;
    cbn [fold_left map concatLines fold_right].
  - now rewrite append_nil_r.
  - rewrite comparisonStep_line. cbn [md totalD1 totalD2]. rewrite IH.
    f_equal. now rewrite append_assoc.
Qed.

Lemma comparison_parts (row0 : PositionRow.t) (more : list PositionRow.t)
  (date1 date2 : string) :
  let rows := row0 :: more in
  let d1Rows := rowsOn date1 rows in
  let d2Rows := rowsOn date2 rows in
  let symbols :=
    unique (map PositionRow.symbol d1Rows ++ map PositionRow.symbol d2Rows)%list in
  formatComparisonTable rows date1 date2 =
  comparisonHead row0 date1 date2 ++
  concatLines (map (comparisonLine d1Rows d2Rows) symbols) ++
  comparisonTotals date1 date2
    (sumOver symbols (fun s => usdOf s d1Rows))
    (sumOver symbols (fun s => usdOf s d2Rows)).
Proof.
  intros rows d1Rows d2Rows symbols.
  unfold formatComparisonTable, rows. fold rows.
  fold (rowsOn date1 rows) (rowsOn date2 rows). fold d1Rows d2Rows. fold symbols.
  rewrite comparison_fold. cbn [md totalD1 totalD2].
  fold (sumOver symbols (fun s => usdOf s d1Rows)).
  fold (sumOver symbols (fun s => usdOf s d2Rows)).
  unfold comparisonTotals, comparisonHead.
  generalize (sumOver symbols (fun s => usdOf s d1Rows)) as t1.
  generalize (sumOver symbols (fun s => usdOf s d2Rows)) as t2.
  generalize (concatLines (map (comparisonLine d1Rows d2Rows) symbols)) as lines.
  intros lines t2 t1.
  generalize (percentChange (t2 - t1) t1), (formatUSD (t2 - t1)), (formatUSD t1),
    (formatUSD t2), (shortAddr (PositionRow.address row0)), dataSource.
  intros. cbn [repeatString]. rewrite !append_assoc. reflexivity.
Qed.

(** X18: the comparison report of a row set that is not empty is its heading, one
    line for each symbol that has a row on either of the two dates, each
    symbol once and in the order of first appearance (the rows of the first
    date before those of the second), and the totals; a total is the sum of
    the USD values that the lines show for its date, so that the rows left
    out of the lines are left out of the totals as well. *)
Theorem formatComparisonTable_lines_and_totals
  (row0 : PositionRow.t) (more : list PositionRow.t) (date1 date2 : string) :
  let rows := row0 :: more in
  let d1Rows := rowsOn date1 rows in
  let d2Rows := rowsOn date2 rows in
  let symbols :=
    unique (map PositionRow.symbol d1Rows ++ map PositionRow.symbol d2Rows)%list in
  formatComparisonTable rows date1 date2 =
  comparisonHead row0 date1 date2 ++
  concatLines (map (comparisonLine d1Rows d2Rows) symbols) ++
  comparisonTotals date1 date2
    (sumOver symbols (fun s => usdOf s d1Rows))
    (sumOver symbols (fun s => usdOf s d2Rows)) /\
  NoDup symbols /\
  forall s,
    In s symbols <->
    exists r, In r rows /\ PositionRow.symbol r = s /\
              (rowDate r = date1 \/ rowDate r = date2).
Proof.
  intros rows d1Rows d2Rows symbols.
  split; [apply comparison_parts|]. split; [apply unique_NoDup|].
  intros s. unfold symbols. rewrite unique_In, in_app_iff, !in_map_iff. split.
  - intros [[r [Hs Hin]]|[r [Hs Hin]]]; apply filter_In in Hin;
      destruct Hin as [Hin Hd]; apply String.eqb_eq in Hd; exists r; tauto.
  - intros [r [Hin [Hs [Hd|Hd]]]]; [left | right]; exists r;
      (split; [exact Hs|]); apply filter_In; (split; [exact Hin|]);
      now apply String.eqb_eq.
Qed.

Lemma find_none_iff {A : Type} (f : A -> bool) (l : list A) :
  find f l = None <-> forall x, In x l -> f x = false.
Proof.
  split; [apply find_none|].
  intros H. destruct (find f l) as [x|] eqn:E; [|reflexivity].
  apply find_some in E. destruct E as [Hin Hf]. rewrite (H x Hin) in Hf. discriminate.
Qed.

Lemma includes_line {A : Type} (f : A -> string) (l : list A) (x : A) (pre post : string) :
  In x l -> includes (pre ++ concatLines (map f l) ++ post) (f x) = true.
Proof.
  intros Hin. apply in_split in Hin. destruct Hin as [l1 [l2 ->]].
  apply includes_spec.
  exists (pre ++ concatLines (map f l1)), (concatLines (map f l2) ++ post).
  rewrite map_app. cbn [map]. unfold concatLines.
  assert (Happ : forall a b : list string,
            fold_right String.append "" (a ++ b)%list =
            fold_right String.append "" a ++ fold_right String.append "" b).
  { induction a as [|y a IH]; intros b; cbn [fold_right app]; [reflexivity|].
    now rewrite IH, append_assoc. }
  rewrite Happ. cbn [fold_right]. now rewrite !append_assoc.
Qed.

(** X19: a token that has a row on the second date and none on the first is
    listed with a zero balance and a zero value for the first date and with
    no percentage. *)
Theorem formatComparisonTable_token_absent_on_first_date
  (rows : list PositionRow.t) (date1 date2 : string) (r2 : PositionRow.t) :
  (forall r, In r rows -> rowDate r = date1 ->
             PositionRow.symbol r <> PositionRow.symbol r2) ->
  find (fun r => (rowDate r =? date2) && (PositionRow.symbol r =? PositionRow.symbol r2))
    rows = Some r2 ->
  includes (formatComparisonTable rows date1 date2)
    ("| " ++ PositionRow.symbol r2 ++ " | 0.000000 | $0.00 | " ++
     formatBalance (PositionRow.balance r2) ++ " | " ++
     formatUSD (PositionRow.usd_balance r2) ++ " | " ++
     formatUSD (PositionRow.usd_balance r2 - 0) ++ " | N/A |" ++ nl) = true.
Proof.
  intros Hnone Hfind.
  destruct rows as [|row0 more]; [discriminate|].
  set (rows := row0 :: more) in *.
  set (s := PositionRow.symbol r2) in *.
  set (d1Rows := rowsOn date1 rows).
  set (d2Rows := rowsOn date2 rows).
  assert (H1 : firstOf s d1Rows = None).
  { apply find_none_iff. intros x Hx. apply filter_In in Hx. destruct Hx as [Hin Hd].
    apply String.eqb_eq in Hd. apply String.eqb_neq. now apply Hnone. }
  assert (H2 : firstOf s d2Rows = Some r2).
  { unfold firstOf, d2Rows, rowsOn. rewrite find_filter. exact Hfind. }
  assert (Hin : In s (unique (map PositionRow.symbol d1Rows ++
                               map PositionRow.symbol d2Rows)%list)).
  { apply unique_In, in_app_iff. right. apply in_map_iff. exists r2.
    split; [reflexivity|]. now apply find_some in H2. }
  unfold rows. rewrite comparison_parts. fold rows d1Rows d2Rows.
  assert (Hline : comparisonLine d1Rows d2Rows s =
                  "| " ++ s ++ " | 0.000000 | $0.00 | " ++
                  formatBalance (PositionRow.balance r2) ++ " | " ++
                  formatUSD (PositionRow.usd_balance r2) ++ " | " ++
                  formatUSD (PositionRow.usd_balance r2 - 0) ++ " | N/A |" ++ nl).
  { unfold comparisonLine, usdOf, balanceOf. rewrite H1, H2. cbn [fieldOrZero].
    change (formatBalance 0) with "0.000000". change (formatUSD 0) with "$0.00".
    change (percentChange (PositionRow.usd_balance r2 - 0) 0) with "N/A".
    reflexivity. }
  rewrite <- Hline.
  apply (includes_line (comparisonLine d1Rows d2Rows)). exact Hin.
Qed.

(** SOL bought between the two dates. *)
Lemma formatComparisonTable_token_absent_on_first_date_witness :
  includes
    (formatComparisonTable
       [sampleRow "2025-09-30" "USDC" 5 5; sampleRow "2025-12-31" "SOL" 2 300]
       "2025-09-30" "2025-12-31")
    ("| SOL | 0.000000 | $0.00 | " ++ formatBalance 2 ++ " | " ++ formatUSD 300 ++
     " | " ++ formatUSD (300 - 0) ++ " | N/A |" ++ nl) = true.
Proof.
  apply (formatComparisonTable_token_absent_on_first_date
           [sampleRow "2025-09-30" "USDC" 5 5; sampleRow "2025-12-31" "SOL" 2 300]
           "2025-09-30" "2025-12-31" (sampleRow "2025-12-31" "SOL" 2 300)).
  - intros r [<-|[<-|[]]]; vm_compute; discriminate.
  - reflexivity.
Defined.

Lemma leb_refl (s : string) : (s <=? s) = true.
Proof. now destruct (String.leb_total s s). Qed.

Lemma leb_trans (a b c : string) :
  (a <=? b) = true -> (b <=? c) = true -> (a <=? c) = true.
Proof.
  unfold String.leb. revert b c.
  induction a as [|x a IH]; intros [|y b] [|z c]; simpl; try congruence.
  unfold Ascii.compare.
  destruct (N.compare_spec (N_of_ascii x) (N_of_ascii y)) as [Exy|Lxy|Gxy];
    destruct (N.compare_spec (N_of_ascii y) (N_of_ascii z)) as [Eyz|Lyz|Gyz];
    destruct (N.compare_spec (N_of_ascii x) (N_of_ascii z)) as [Exz|Lxz|Gxz];
    try congruence; try lia.
  apply IH.
Qed.

Lemma sorted_first_least (x : string) (l : list string) :
  Sorted (fun a b => (a <=? b) = true) (x :: l) ->
  forall y, In y (x :: l) -> (x <=? y) = true.
Proof.
  intros H y Hin. apply Sorted_StronglySorted in H.
  - apply StronglySorted_inv in H. destruct H as [_ H].
    destruct Hin as [<-|Hin]; [apply leb_refl|].
    rewrite Forall_forall in H. now apply H.
  - intros a b c. apply leb_trans.
Qed.

Lemma sorted_last_greatest (l : list string) (d : string) :
  Sorted (fun a b => (a <=? b) = true) l ->
  forall y, In y l -> (y <=? last l d) = true.
Proof.
  intros H. apply Sorted_StronglySorted in H; [|intros a b c; apply leb_trans].
  induction l as [|x l IH]; intros y Hin; [contradiction|].
  apply StronglySorted_inv in H. destruct H as [Hl Hx].
  destruct l as [|x' l]; [destruct Hin as [<-|[]]; apply leb_refl|].
  change (last (x :: x' :: l) d) with (last (x' :: l) d).
  destruct Hin as [<-|Hin]; [|now apply IH].
  rewrite Forall_forall in Hx. apply (leb_trans x x'); [apply Hx; now left|].
  apply IH; [exact Hl | now left].
Qed.

Lemma nth_error_last (l : list string) (d : string) :
  l <> [] -> nth_error l (List.length l - 1) = Some (last l d).
Proof.
  induction l as [|x l IH]; [contradiction|]. intros _.
  destruct l as [|x' l]; [reflexivity|].
  change (last (x :: x' :: l) d) with (last (x' :: l) d).
  rewrite <- IH by discriminate. simpl. now rewrite Nat.sub_0_r.
Qed.

Lemma last_In (l : list string) (d : string) : l <> [] -> In (last l d) l.
Proof.
  induction l as [|x l IH]; [contradiction|]. intros _.
  destruct l as [|x' l]; [now left|]. right. apply IH. discriminate.
Qed.

Lemma tables_append (byDate : RowMap) (dates symbols : list string) :
  exists tables, forall md0,
    fold_left (symbolTable byDate dates) symbols md0 = md0 ++ tables.
Proof.
  induction symbols as [|s symbols [t IH]].
  - exists "". intros md0. cbn [fold_left]. now rewrite append_nil_r.
  - exists (("#### " ++ s ++ nl ++ nl ++
             "| Date | Balance | USD Value | Price |" ++ nl ++
             "|------|---------|-----------|-------|" ++ nl ++
             concatLines
               (map (fun e => rangeLine (fst e) (snd e))
                  (flat_map
                     (fun d =>
                        match symbolRow byDate s d with
                        | Some row => [(d, row)]
                        | None => []
                        end) dates)) ++ nl) ++ t).
    intros md0. cbn [fold_left]. rewrite IH. unfold symbolTable.
    rewrite symbolLines_series.
    generalize (concatLines
                  (map (fun e => rangeLine (fst e) (snd e))
                     (flat_map
                        (fun d =>
                           match symbolRow byDate s d with
                           | Some row => [(d, row)]
                           | None => []
                           end) dates))) as lines.
    intros lines. rewrite !append_assoc. reflexivity.
Qed.

(** X20: the range report of a row set that is not empty names in its heading
    the least and the greatest of the normalised dates of the rows, in the
    order of their characters, and closes with the summary of these two
    dates: each of the two values is the sum of the USD values of all rows
    of its date, rows of a symbol already met on that date included, the
    change is their difference, and its percentage is computed when the
    start value is above zero and is N/A otherwise. *)
Theorem formatRangeTable_period_summary
  (row0 : PositionRow.t) (more : list PositionRow.t) :
  let rows := row0 :: more in
  exists first last tables,
    formatRangeTable rows =
    "### Position History for `" ++ shortAddr (PositionRow.address row0) ++ "` (" ++
    first ++ " to " ++ last ++ ")" ++ nl ++ nl ++ tables ++
    summaryText first last (sumUSD (rowsOn first rows)) (sumUSD (rowsOn last rows)) /\
    (exists r, In r rows /\ rowDate r = first) /\
    (exists r, In r rows /\ rowDate r = last) /\
    forall r, In r rows ->
              (first <=? rowDate r) = true /\ (rowDate r <=? last) = true.
Proof.
  intros rows.
  set (dates := sort (Map_keys (groupByDate rows))).
  assert (Hdates : forall d, In d dates <-> exists r, In r rows /\ rowDate r = d).
  { intros d. unfold dates. rewrite <- (keys_groupByDate d rows).
    split; apply Permutation_in; [apply sort_perm | apply Permutation_sym, sort_perm]. }
  assert (Hsorted : Sorted (fun a b => (a <=? b) = true) dates) by apply sort_sorted.
  assert (H0 : In (rowDate row0) dates) by (apply Hdates; exists row0; split; [now left | reflexivity]).
  destruct dates as [|first rest] eqn:Edates; [contradiction|].
  set (last := List.last (first :: rest) first).
  destruct (tables_append (groupByDate rows) (first :: rest)
              (unique (map PositionRow.symbol rows))) as [tables Htables].
  exists first, last, tables. split; [|split; [|split]].
  - unfold formatRangeTable, rows. fold rows. fold dates. rewrite Edates.
    rewrite Htables. unfold periodSummary.
    rewrite (nth_error_last (first :: rest) first) by discriminate. fold last.
    cbn [nth_error]. rewrite !getOrEmpty_groupByDate. cbn [orUndefined].
    unfold summaryText.
    generalize (sumUSD (rowsOn first rows)) as t1.
    generalize (sumUSD (rowsOn last rows)) as t2. intros t2 t1.
    generalize (if (0 <? t1)%float then toFixed ((t2 - t1) / t1 * 100) 2 else "N/A")
      as pct.
    generalize (formatUSD (t2 - t1)), (formatUSD t1), (formatUSD t2),
      (shortAddr (PositionRow.address row0)), dataSource.
    intros. rewrite !append_assoc. reflexivity.
  - apply Hdates. now left.
  - apply Hdates. apply last_In. discriminate.
  - intros r Hr. assert (Hin : In (rowDate r) (first :: rest)) by (apply Hdates; now exists r).
    split.
    + now apply (sorted_first_least first rest).
    + now apply sorted_last_greatest.
Qed.

(** X21: a value below zero is never abbreviated, however large its magnitude:
    both formatters write it in full, with its minus sign first. *)
Theorem negative_value_is_not_abbreviated (value : float) :
  (value <? 0)%float = true ->
  formatUSD value = "$" ++ toFixed value 2 /\
  formatBalance value = toFixed value 6 /\
  (exists digits, toFixed value 2 = "-" ++ digits) /\
  (exists digits, toFixed value 6 = "-" ++ digits).
Proof.
  intros H. rewrite ltb_spec in H.
  unfold formatUSD, formatBalance, toFixed. rewrite !leb_spec.
  change (Prim2SF 0) with (S754_zero false) in H.
  destruct (Prim2SF value) as [s| [|] | |[|] m e]; try discriminate H.
  - repeat split; eexists; reflexivity.
  - repeat split; eexists; reflexivity.
Qed.

(** A loss of two and a half million. *)
Lemma negative_value_is_not_abbreviated_witness :
  formatUSD (-2500000) = "$-2500000.00" /\ formatBalance (-2500000) = "-2500000.000000".
Proof.
  destruct (negative_value_is_not_abbreviated (-2500000) eq_refl) as [H1 [H2 _]].
  split; [rewrite H1 | rewrite H2]; reflexivity.
Defined.

(** ** The query execution client *)

Lemma parseChars_escapeChar (c : ascii) (tail : string) :
  parseChars (escapeChar c ++ tail) =
  match parseChars tail with
  | Some (body, rest) => Some (String c body, rest)
  | None => None
  end.
Proof.
  destruct c as [[] [] [] [] [] [] [] []]; reflexivity.
Qed.

Lemma parseChars_escapeChars (s rest : string) :
  parseChars (escapeChars s ++ String "034" rest) = Some (s, rest).
Proof.
  induction s as [|c s IH]; [reflexivity|].
  cbn [escapeChars]. rewrite append_assoc, parseChars_escapeChar, IH. reflexivity.
Qed.

Lemma JSON_quote_append (s rest : string) :
  JSON_quote s ++ rest = String "034" (escapeChars s ++ String "034" rest).
Proof. unfold JSON_quote, quote. cbn [append]. now rewrite append_assoc. Qed.

(** A string literal at the start of a text. *)
Lemma parseValue_string (f : nat) (s rest : string) :
  parseValue (S f) (JSON_quote s ++ rest) = Some (JString s, rest).
Proof.
  rewrite parseValue_S, JSON_quote_append. cbn [afterChar Ascii.eqb Bool.eqb].
  now rewrite parseChars_escapeChars.
Qed.

(** A member whose key is [k] and whose value is read from [text]. *)
Lemma parseMembers_member (f : nat) (k text : string) (v : JSValue) (rest : string)
  (acc : list (string * JSValue)) :
  skipWs text = text -> parseValue f text = Some (v, rest) ->
  parseMembers (S f) (JSON_quote k ++ String ":" text) acc =
  match afterChar "," (skipWs rest) with
  | Some rest' => parseMembers f rest' (setProp k v acc)
  | None =>
      match afterChar "}" (skipWs rest) with
      | Some rest' => Some (JObject (setProp k v acc), rest')
      | None => None
      end
  end.
Proof.
  intros Hws Hv. rewrite parseMembers_S, JSON_quote_append.
  cbn [skipWs isJsonWs Ascii.eqb Bool.eqb orb afterChar].
  rewrite parseChars_escapeChars.
  cbn [skipWs isJsonWs Ascii.eqb Bool.eqb orb afterChar].
  now rewrite Hws, Hv.
Qed.

(** An object that begins with a member. *)
Lemma parseValue_object (f : nat) (k rest : string) :
  parseValue (S f) (String "{" (JSON_quote k ++ rest)) =
  parseMembers f (JSON_quote k ++ rest) [].
Proof.
  rewrite parseValue_S, JSON_quote_append.
  cbn [skipWs isJsonWs Ascii.eqb Bool.eqb orb afterChar]. reflexivity.
Qed.

Lemma skipWs_quote (s rest : string) : skipWs (JSON_quote s ++ rest) = JSON_quote s ++ rest.
Proof. now rewrite JSON_quote_append. Qed.

Lemma requestBody_text (sql : string) :
  requestBody sql =
  String "{" (JSON_quote "jsonrpc" ++ String ":" (JSON_quote "2.0" ++ String ","
    (JSON_quote "id" ++ String ":" (String "1" (String ","
    (JSON_quote "method" ++ String ":" (JSON_quote "tools/call" ++ String ","
    (JSON_quote "params" ++ String ":" (String "{"
    (JSON_quote "name" ++ String ":" (JSON_quote "explorer_run_sql" ++ String ","
    (JSON_quote "arguments" ++ String ":" (String "{"
    (JSON_quote "sql" ++ String ":" (JSON_quote sql ++ "}}}"))))))))))))))).
Proof. reflexivity. Qed.

Lemma parseValue_one (f : nat) (rest : string) :
  parseValue (S f) (String "1" (String "," rest)) = Some (JNumber "1", String "," rest).
Proof. reflexivity. Qed.

Lemma parseValue_arguments (f : nat) (sql rest : string) :
  parseValue (S (S (S f)))
    (String "{" (JSON_quote "sql" ++ String ":" (JSON_quote sql ++ String "}" rest))) =
  Some (JObject [("sql", JString sql)], rest).
Proof.
  rewrite parseValue_object.
  now rewrite (parseMembers_member _ _ _ (JString sql) _ _ (skipWs_quote _ _)
                 (parseValue_string _ _ _)).
Qed.

Lemma parseValue_params (f : nat) (sql rest : string) :
  parseValue (S (S (S (S (S (S f))))))
    (String "{"
       (JSON_quote "name" ++ String ":" (JSON_quote "explorer_run_sql" ++ String ","
       (JSON_quote "arguments" ++ String ":" (String "{"
       (JSON_quote "sql" ++ String ":" (JSON_quote sql ++ String "}" (String "}" rest)))))))) =
  Some (JObject [("name", JString "explorer_run_sql");
                 ("arguments", JObject [("sql", JString sql)])], rest).
Proof.
  rewrite parseValue_object.
  rewrite (parseMembers_member _ _ _ (JString "explorer_run_sql") _ _ (skipWs_quote _ _)
             (parseValue_string _ _ _)).
  cbn [skipWs isJsonWs Ascii.eqb Bool.eqb orb afterChar].
  now rewrite (parseMembers_member _ _ _ _ _ _ eq_refl (parseValue_arguments _ sql _)).
Qed.

(** X22: the body of the request is the JSON text of the call, and the query
    that it carries is the query that was given, character by character:
    quotes, backslashes, line feeds and the other control characters come
    back from their escapes. *)
Theorem requestBody_round_trip (sql : string) :
  JSON_parse (requestBody sql) = Ok (requestValue sql).
Proof.
  apply (JSON_parse_any_fuel 12 _ _ ""); [|reflexivity].
  rewrite requestBody_text.
  cbn [skipWs isJsonWs Ascii.eqb Bool.eqb orb].
  rewrite parseValue_object.
  rewrite (parseMembers_member _ _ _ (JString "2.0") _ _ (skipWs_quote _ _)
             (parseValue_string _ _ _)).
  cbn [skipWs isJsonWs Ascii.eqb Bool.eqb orb afterChar].
  rewrite (parseMembers_member _ _ _ _ _ _ eq_refl (parseValue_one _ _)).
  cbn [skipWs isJsonWs Ascii.eqb Bool.eqb orb afterChar].
  rewrite (parseMembers_member _ _ _ (JString "tools/call") _ _ (skipWs_quote _ _)
             (parseValue_string _ _ _)).
  cbn [skipWs isJsonWs Ascii.eqb Bool.eqb orb afterChar].
  now rewrite (parseMembers_member _ _ _ _ _ _ eq_refl (parseValue_params _ sql "}")).
Qed.

Lemma split_line (sep : ascii) (x : string) :
  countChar sep x = 0 -> split sep x = [x].
Proof.
  induction x as [|c x IH]; [reflexivity|]. cbn [countChar split].
  destruct (Ascii.eqb c sep); [discriminate|]. simpl. intros H. now rewrite (IH H).
Qed.

Lemma split_append (sep : ascii) (x rest : string) :
  countChar sep x = 0 -> split sep (x ++ String sep rest) = x :: split sep rest.
Proof.
  induction x as [|c x IH].
  - intros _. cbn [append split]. now rewrite Ascii.eqb_refl.
  - cbn [countChar append split]. destruct (Ascii.eqb c sep); [discriminate|].
    simpl. intros H. now rewrite (IH H).
Qed.

(** Splitting the lines that were joined gives the lines back. *)
Lemma split_join (sep : ascii) (lines : list string) :
  lines <> [] -> Forall (fun line => countChar sep line = 0) lines ->
  split sep (join (String sep "") lines) = lines.
Proof.
  unfold join. induction lines as [|x lines IH]; [contradiction|]. intros _ Hall.
  inversion Hall as [|? ? Hx Hrest]; subst.
  destruct lines as [|y lines]; [now apply split_line|].
  change (String.concat (String sep "") (x :: y :: lines))
    with (x ++ String sep (String.concat (String sep "") (y :: lines))).
  rewrite (split_append sep x _ Hx). f_equal. apply IH; [discriminate | exact Hrest].
Qed.

Lemma split_first (sep : ascii) (s : string) :
  exists line lines post, split sep s = line :: lines /\ s = line ++ post.
Proof.
  induction s as [|c s [l [ls [post [E Hs]]]]].
  - now exists "", [], "".
  - cbn [split]. destruct (Ascii.eqb c sep).
    + now exists "", (split sep s), (String c s).
    + rewrite E. exists (String c l), ls, post. split; [reflexivity|].
      simpl. now rewrite <- Hs.
Qed.

(** A line of a text occurs in the text. *)
Lemma split_occurs (sep : ascii) (s line : string) :
  In line (split sep s) -> exists pre post, s = pre ++ line ++ post.
Proof.
  revert line. induction s as [|c s IH]; intros line Hin.
  - destruct Hin as [<-|[]]. now exists "", "".
  - cbn [split] in Hin. destruct (Ascii.eqb c sep).
    + destruct Hin as [<-|Hin]; [now exists "", (String c s)|].
      destruct (IH line Hin) as [pre [post ->]]. now exists (String c pre), post.
    + destruct (split_first sep s) as [l [ls [post [E Hs]]]]. rewrite E in Hin, IH.
      destruct Hin as [<-|Hin].
      * exists "", post. simpl. now rewrite <- Hs.
      * destruct (IH line (or_intror Hin)) as [pre [post' ->]].
        now exists (String c pre), post'.
Qed.

(** X23: a response that is read as server-sent events: the client takes the
    first line that starts with [data: ], whatever lines stand before and
    after it, and goes on with the JSON text of that line. *)
Theorem queryAllium_reads_first_data_line
  (service : AlliumService) (sql apiKey payload : string) (status : nat)
  (before after : list string) :
  ALLIUM_API_KEY service = Some apiKey -> apiKey <> "" ->
  fetch service apiKey (requestBody sql) =
  Ok (HttpResponse.mk true status (join nl (before ++ ("data: " ++ payload) :: after))) ->
  Forall (fun line => countChar "010" line = 0 /\ startsWith line "data: " = false) before ->
  countChar "010" payload = 0 ->
  Forall (fun line => countChar "010" line = 0) after ->
  queryAllium service sql = (rpcResponse <- JSON_parse payload ;; rpcResult rpcResponse).
Proof.
  intros Hkey Hne Hfetch Hbefore Hpayload Hafter.
  unfold queryAllium. rewrite Hkey.
  apply String.eqb_neq in Hne. rewrite Hne, Hfetch.
  cbn [bind HttpResponse.ok HttpResponse.text negb].
  unfold nl. rewrite split_join.
  - rewrite find_append.
    assert (Hnone : find (fun line => startsWith line "data: ") before = None).
    { clear -Hbefore. induction Hbefore as [|x l [_ Hx] _ IH]; [reflexivity|].
      cbn [find]. now rewrite Hx. }
    rewrite Hnone. cbn [find].
    change (startsWith ("data: " ++ payload) "data: ") with true. cbn iota.
    change (sliceFrom 6 ("data: " ++ payload)) with payload. reflexivity.
  - now destruct before.
  - apply Forall_app. split.
    + eapply Forall_impl; [|exact Hbefore]. now intros x [Hx _].
    + constructor; [exact Hpayload | exact Hafter].
Qed.

(** The event stream of the service: an event line, the data line and two empty lines. *)
Lemma queryAllium_reads_first_data_line_witness :
  queryAllium
    (answeringService (join nl ["event: message"; "data: " ++ emptyRowsPayload; ""; ""]))
    "SELECT 1" =
  Ok (JObject [("data", JArray [])]).
Proof.
  rewrite (queryAllium_reads_first_data_line
             (answeringService
                (join nl ["event: message"; "data: " ++ emptyRowsPayload; ""; ""]))
             "SELECT 1" "key" emptyRowsPayload 200 ["event: message"] [""; ""]).
  - vm_compute. reflexivity.
  - reflexivity.
  - discriminate.
  - reflexivity.
  - repeat constructor.
  - reflexivity.
  - repeat constructor.
Defined.

(** X24: a response without the characters [data: ] anywhere in its text, a
    plain JSON body or an event stream that writes [data:] without the
    space, is refused, whatever else it holds. *)
Theorem queryAllium_needs_data_line
  (service : AlliumService) (sql apiKey : string) (res : HttpResponse.t) :
  ALLIUM_API_KEY service = Some apiKey -> apiKey <> "" ->
  fetch service apiKey (requestBody sql) = Ok res ->
  HttpResponse.ok res = true ->
  includes (HttpResponse.text res) "data: " = false ->
  queryAllium service sql = Throw "No data in Allium response".
Proof.
  intros Hkey Hne Hfetch Hok Hno.
  unfold queryAllium. rewrite Hkey.
  apply String.eqb_neq in Hne. rewrite Hne, Hfetch. cbn [bind]. rewrite Hok. cbn [negb].
  destruct (find (fun line => startsWith line "data: ")
              (split "010" (HttpResponse.text res))) as [line|] eqn:E; [|reflexivity].
  exfalso. apply find_some in E. destruct E as [Hin Hstart].
  apply startsWith_spec in Hstart. destruct Hstart as [r ->].
  apply split_occurs in Hin. destruct Hin as [pre [post Hs]].
  assert (Hinc : includes (HttpResponse.text res) "data: " = true).
  { apply includes_spec. exists pre, (r ++ post). rewrite Hs.
    now rewrite !append_assoc. }
  congruence.
Qed.

(** A data line without the space after the colon. *)
Lemma queryAllium_needs_data_line_witness :
  queryAllium (answeringService ("data:" ++ emptyRowsPayload)) "SELECT 1" =
  Throw "No data in Allium response".
Proof.
  apply (queryAllium_needs_data_line
           (answeringService ("data:" ++ emptyRowsPayload)) "SELECT 1" "key"
           (HttpResponse.mk true 200 ("data:" ++ emptyRowsPayload)));
    try reflexivity.
  discriminate.
Defined.

(** X25: the client returns a value only along one path: the credential is set,
    the request was answered with a response that is ok, the text of the
    response has a line that starts with [data: ], what follows on that line
    is a JSON text, the value of that text has no truthy [error], and the
    value returned is what the result of that value yields: every other
    case is an exception. *)
Theorem queryAllium_returns_only (service : AlliumService) (sql : string) (v : JSValue) :
  queryAllium service sql = Ok v ->
  exists apiKey res line rpcResponse,
    ALLIUM_API_KEY service = Some apiKey /\ apiKey <> "" /\
    fetch service apiKey (requestBody sql) = Ok res /\
    HttpResponse.ok res = true /\
    In line (split "010" (HttpResponse.text res)) /\
    startsWith line "data: " = true /\
    JSON_parse (sliceFrom 6 line) = Ok rpcResponse /\
    truthyValue (getProp "error" rpcResponse) = false /\
    rpcResult rpcResponse = Ok v.
Proof.
  unfold queryAllium. intros H.
  destruct (ALLIUM_API_KEY service) as [apiKey|]; [|discriminate].
  destruct (String.eqb_spec apiKey "") as [|Hne]; [discriminate|].
  destruct (fetch service apiKey (requestBody sql)) as [res|err] eqn:Hfetch;
    [|discriminate].
  cbn [bind] in H.
  destruct (HttpResponse.ok res) eqn:Hok; [|discriminate]. cbn [negb] in H.
  destruct (find (fun line => startsWith line "data: ")
              (split "010" (HttpResponse.text res))) as [line|] eqn:E; [|discriminate].
  apply find_some in E. destruct E as [Hin Hstart].
  destruct (JSON_parse (sliceFrom 6 line)) as [rpc|err] eqn:Hparse; [|discriminate].
  cbn [bind] in H.
  exists apiKey, res, line, rpc. repeat (split; [assumption || reflexivity|]).
  split; [|exact H].
  destruct rpc; try reflexivity.
  unfold rpcResult in H.
  destruct (truthyValue (getProp "error" (JObject props))) eqn:Herr; [|reflexivity].
  destruct (templateText _); discriminate.
Qed.

(** The event stream of the service with an empty row set. *)
Lemma queryAllium_returns_only_witness :
  exists apiKey res line rpcResponse,
    ALLIUM_API_KEY
      (answeringService (join nl ["event: message"; "data: " ++ emptyRowsPayload; ""; ""])) =
    Some apiKey /\ apiKey <> "" /\
    fetch (answeringService (join nl ["event: message"; "data: " ++ emptyRowsPayload; ""; ""]))
      apiKey (requestBody "SELECT 1") = Ok res /\
    HttpResponse.ok res = true /\
    In line (split "010" (HttpResponse.text res)) /\
    startsWith line "data: " = true /\
    JSON_parse (sliceFrom 6 line) = Ok rpcResponse /\
    truthyValue (getProp "error" rpcResponse) = false /\
    rpcResult rpcResponse = Ok (JObject [("data", JArray [])]).
Proof.
  apply (queryAllium_returns_only
           (answeringService (join nl ["event: message"; "data: " ++ emptyRowsPayload; ""; ""]))
           "SELECT 1").
  vm_compute. reflexivity.
Defined.

(** ** The CSV export *)

(** *** Reversal and [trim] *)

Lemma reverse_acc (s acc : string) : reverse acc s = reverse "" s ++ acc.
Proof.
  revert acc. induction s as [|c s IH]; intros acc; [reflexivity|].
  cbn [reverse]. rewrite (IH (String c acc)), (IH (String c "")).
  now rewrite append_assoc.
Qed.

Lemma reverse_append (a b : string) :
  reverse "" (a ++ b) = reverse "" b ++ reverse "" a.
Proof.
  induction a as [|c a IH]; [now rewrite append_nil_r|].
  cbn [append reverse]. rewrite (reverse_acc (a ++ b)), (reverse_acc a), IH.
  now rewrite append_assoc.
Qed.

Lemma reverse_involutive (s : string) : reverse "" (reverse "" s) = s.
Proof.
  induction s as [|c s IH]; [reflexivity|].
  cbn [reverse]. rewrite (reverse_acc s), reverse_append, IH. reflexivity.
Qed.

Lemma allChars_reverse (p : ascii -> bool) (s : string) :
  allChars p (reverse "" s) = allChars p s.
Proof.
  induction s as [|c s IH]; [reflexivity|].
  cbn [reverse]. rewrite (reverse_acc s), allChars_append, IH. cbn [allChars].
  rewrite andb_true_r. apply andb_comm.
Qed.

Lemma trimStart_visible (c : ascii) (s : string) :
  isVisible c = true -> trimStart (String c s) = String c s.
Proof.
  intros Hc. destruct c as [[] [] [] [] [] [] [] []]; try discriminate Hc;
    destruct s as [|c2 [|c3 s3]]; reflexivity.
Qed.

Lemma trimStartRev_visible (c : ascii) (r : string) :
  isVisible c = true -> trimStartRev (String c r) = String c r.
Proof.
  intros Hc. cbn [trimStartRev].
  assert (H1 : isAsciiSpace c = false)
    by (destruct c as [[] [] [] [] [] [] [] []]; try discriminate Hc; reflexivity).
  assert (H2 : forall c2, isSpace2 c2 c = false).
  { intros c2. unfold isSpace2.
    destruct c as [[] [] [] [] [] [] [] []]; try discriminate Hc;
      apply andb_false_r. }
  assert (H3 : forall c2 c3, isSpace3 c3 c2 c = false).
  { intros c2 c3. unfold isSpace3.
    destruct c as [[] [] [] [] [] [] [] []]; try discriminate Hc;
      cbn; now rewrite !andb_false_r. }
  rewrite H1. destruct r as [|c2 r2]; [reflexivity|]. rewrite H2.
  destruct r2 as [|c3 r3]; [reflexivity|]. now rewrite H3.
Qed.

(** A text of visible characters between two spaces is trimmed to itself. *)
Lemma trim_visible (s : string) :
  allChars isVisible s = true -> trim (" " ++ s ++ " ") = s.
Proof.
  intros H. unfold trim. change (" " ++ s ++ " ") with (String " " (s ++ " ")).
  cbn [trimStart isAsciiSpace Ascii.eqb Bool.eqb orb].
  destruct s as [|c s]; [reflexivity|].
  pose proof H as Hall. cbn [allChars] in H. apply andb_true_iff in H.
  destruct H as [Hc _].
  change (String c s ++ " ") with (String c (s ++ " ")).
  rewrite (trimStart_visible c _ Hc).
  change (String c (s ++ " ")) with (String c s ++ " ").
  unfold trimEnd. rewrite reverse_append.
  change (reverse "" " ") with " ". change (" " ++ reverse "" (String c s))
    with (String " " (reverse "" (String c s))).
  cbn [trimStartRev isAsciiSpace Ascii.eqb Bool.eqb orb].
  rewrite <- allChars_reverse in Hall.
  destruct (reverse "" (String c s)) as [|l r] eqn:E.
  - apply (f_equal (reverse "")) in E. rewrite reverse_involutive in E. discriminate E.
  - cbn [allChars] in Hall. apply andb_true_iff in Hall. destruct Hall as [Hl _].
    rewrite (trimStartRev_visible l r Hl), <- E. apply reverse_involutive.
Qed.

(** *** The characters of a numeral *)

Lemma allChars_impl (p q : ascii -> bool) (s : string) :
  (forall c, p c = true -> q c = true) -> allChars p s = true -> allChars q s = true.
Proof.
  intros Hpq. induction s as [|c s IH]; [reflexivity|]. cbn [allChars].
  rewrite !andb_true_iff. intros [Hc Hs]. split; [now apply Hpq | now apply IH].
Qed.

Lemma digit_numeral (c : ascii) : isDigit c = true -> isNumeralChar c = true.
Proof. intros H. unfold isNumeralChar. now rewrite H. Qed.

Lemma decimal_numeral (n : Z) : allChars isNumeralChar (decimal n) = true.
Proof.
  apply (allChars_impl isDigit); [apply digit_numeral | apply decimal_digits].
Qed.

Lemma fixedDigits_numeral (f : nat) (n : Z) :
  allChars isNumeralChar (fixedDigits f n) = true.
Proof.
  unfold fixedDigits. destruct f as [|f']; [apply decimal_numeral|].
  set (f := S f').
  set (m := if (String.length (decimal n) <=? f)%nat
            then zeros (f + 1 - String.length (decimal n)) ++ decimal n
            else decimal n).
  assert (Hm : allChars isNumeralChar m = true).
  { unfold m. destruct (String.length (decimal n) <=? f)%nat; [|apply decimal_numeral].
    rewrite allChars_append, decimal_numeral, andb_true_r.
    apply (allChars_impl isDigit); [apply digit_numeral | apply zeros_digits]. }
  destruct (allChars_slices isNumeralChar (String.length m - f) m Hm) as [Ha Hb].
  rewrite !allChars_append, Ha, Hb. reflexivity.
Qed.

Lemma toStringLarge_numeral (m : positive) (e : Z) :
  allChars isNumeralChar (toStringLarge m e) = true.
Proof.
  unfold toStringLarge.
  destruct (shortest m e (map Z.of_nat (seq 1 17))) as [[[s n] k]|]; [|reflexivity].
  rewrite !allChars_append, decimal_numeral.
  destruct (k =? 1)%Z; [now rewrite decimal_numeral|].
  destruct (allChars_slices isNumeralChar 1 (decimal s) (decimal_numeral s)) as [Ha Hb].
  rewrite !allChars_append, Ha, Hb. reflexivity.
Qed.

(** A numeral of [toFixed] is an optional minus sign and characters of a
    numeral. *)
Lemma toFixed_numeral (x : float) (f : nat) :
  exists sign body,
    toFixed x f = sign ++ body /\ (sign = "" \/ sign = "-") /\
    allChars isNumeralChar body = true.
Proof.
  unfold toFixed. destruct (Prim2SF x) as [sg|[|]| |sg m e].
  - exists "", (fixedDigits f 0). split; [reflexivity|]. split; [now left|].
    apply fixedDigits_numeral.
  - exists "-", "Infinity". repeat split. now right.
  - exists "", "Infinity". repeat split. now left.
  - exists "", "NaN". repeat split. now left.
  - exists (if sg then "-" else ""),
      (if atLeast1e21 m e then toStringLarge m e
       else fixedDigits f (roundHalfUp m e f)).
    split; [reflexivity|]. split; [destruct sg; tauto|].
    destruct (atLeast1e21 m e); [apply toStringLarge_numeral | apply fixedDigits_numeral].
Qed.

Lemma figure_of_numeral (dollar suffix : string) (x : float) (f : nat) :
  dollar = "" \/ dollar = "$" ->
  suffix = "" \/ suffix = "M" \/ suffix = "K" \/ suffix = "%" ->
  isFigure (dollar ++ toFixed x f ++ suffix).
Proof.
  intros Hd Hs. destruct (toFixed_numeral x f) as [sign [body [E [Hsign Hbody]]]].
  exists dollar, sign, body, suffix. rewrite E, append_assoc. tauto.
Qed.

Lemma formatUSD_figure (v : float) : isFigure (formatUSD v).
Proof.
  unfold formatUSD.
  destruct (1000000 <=? v)%float; [apply (figure_of_numeral "$" "M"); tauto|].
  destruct (1000 <=? v)%float; [apply (figure_of_numeral "$" "K"); tauto|].
  rewrite <- (append_nil_r (toFixed v 2)). apply (figure_of_numeral "$" ""); tauto.
Qed.

Lemma formatBalance_figure (v : float) : isFigure (formatBalance v).
Proof.
  unfold formatBalance.
  destruct (1000000 <=? v)%float; [apply (figure_of_numeral "" "M"); tauto|].
  destruct (1000 <=? v)%float; [apply (figure_of_numeral "" "K"); tauto|].
  rewrite <- (append_nil_r (toFixed v 6)). apply (figure_of_numeral "" ""); tauto.
Qed.

Lemma price_figure (x : float) : isFigure ("$" ++ toFixed x 4).
Proof.
  rewrite <- (append_nil_r (toFixed x 4)). apply (figure_of_numeral "$" ""); tauto.
Qed.

Lemma includes_countChar (c : ascii) (s t : string) :
  includes s t = true -> countChar c t <= countChar c s.
Proof.
  intros H. apply includes_spec in H. destruct H as [pre [post ->]].
  rewrite !countChar_append. lia.
Qed.

Lemma figure_clean (cell : string) : isFigure cell -> cleanCell cell.
Proof.
  intros [dollar [sign [body [suffix [-> [Hd [Hs [Hb Hx]]]]]]]].
  assert (Hall : allChars isFigureChar (dollar ++ sign ++ body ++ suffix) = true).
  { rewrite !allChars_append.
    assert (H1 : allChars isFigureChar dollar = true) by (destruct Hd as [->| ->]; reflexivity).
    assert (H2 : allChars isFigureChar sign = true) by (destruct Hs as [->| ->]; reflexivity).
    assert (H3 : allChars isFigureChar body = true).
    { apply (allChars_impl isNumeralChar); [|exact Hb].
      intros c Hc. unfold isFigureChar. now rewrite Hc. }
    assert (H4 : allChars isFigureChar suffix = true)
      by (destruct Hx as [->|[->|[->| ->]]]; reflexivity).
    now rewrite H1, H2, H3, H4. }
  assert (Hminus : countChar "-" (dollar ++ sign ++ body ++ suffix) <= 1).
  { rewrite !countChar_append, (countChar_none isNumeralChar "-" body eq_refl Hb).
    assert (countChar "-" dollar = 0) by (destruct Hd as [->| ->]; reflexivity).
    assert (countChar "-" sign <= 1) by (destruct Hs as [->| ->]; simpl; lia).
    assert (countChar "-" suffix = 0)
      by (destruct Hx as [->|[->|[->| ->]]]; reflexivity).
    lia. }
  set (cell := dollar ++ sign ++ body ++ suffix) in *.
  split; [apply (countChar_none isFigureChar); [reflexivity | exact Hall]|].
  split; [apply (countChar_none isFigureChar); [reflexivity | exact Hall]|].
  split.
  - destruct (includes cell "---") eqn:E; [|reflexivity].
    apply (includes_countChar "-") in E. simpl in E. lia.
  - apply trim_visible. apply (allChars_impl isFigureChar); [|exact Hall].
    intros c Hc. destruct c as [[] [] [] [] [] [] [] []]; try discriminate Hc; reflexivity.
Qed.

(** *** A text is not found across a character that it lacks *)

Lemma startsWith_lacks (x : ascii) (t a b : string) :
  countChar x t = 0 -> startsWith (a ++ String x b) t = true -> startsWith a t = true.
Proof.
  revert a. induction t as [|z t IH]; intros a Hx H; [now destruct a|].
  cbn [countChar] in Hx. destruct (Ascii.eqb z x) eqn:Ezx; [lia|].
  destruct a as [|y a]; cbn [append startsWith] in *.
  - apply andb_true_iff in H. destruct H as [H _].
    apply Ascii.eqb_eq in H. subst z. rewrite Ascii.eqb_refl in Ezx. discriminate Ezx.
  - apply andb_true_iff in H. destruct H as [H1 H2]. rewrite H1. cbn [andb].
    apply IH; [lia | exact H2].
Qed.

Lemma includes_across (x : ascii) (t a b : string) :
  countChar x t = 0 -> includes a t = false -> includes b t = false ->
  includes (a ++ String x b) t = false.
Proof.
  intros Hx Ha Hb. induction a as [|y a IH].
  - cbn [append includes]. rewrite Hb, orb_false_r.
    destruct (startsWith (String x b) t) eqn:E; [|reflexivity].
    apply (startsWith_lacks x t "" b Hx) in E. cbn [includes] in Ha.
    rewrite E in Ha. discriminate Ha.
  - cbn [append includes] in *. apply orb_false_iff in Ha. destruct Ha as [Ha1 Ha2].
    rewrite (IH Ha2), orb_false_r.
    destruct (startsWith (String y (a ++ String x b)) t) eqn:E; [|reflexivity].
    apply (startsWith_lacks x t (String y a) b Hx) in E. congruence.
Qed.

(** *** The cells of a table line *)

Lemma tableLine_cons (c : string) (cells : list string) :
  concatLines (map cellText (c :: cells)) =
  (" " ++ c ++ " ") ++ String "|" (concatLines (map cellText cells)).
Proof.
  cbn [map concatLines fold_right]. unfold cellText.
  fold (concatLines (map (fun c0 => " " ++ c0 ++ " |") cells)).
  generalize (concatLines (map (fun c0 => " " ++ c0 ++ " |") cells)) as rest. intros rest.
  rewrite !append_assoc. reflexivity.
Qed.

Lemma split_cells (cells : list string) :
  Forall (fun c => countChar "|" c = 0) cells ->
  split "|" (concatLines (map cellText cells)) =
  app (map (fun c => " " ++ c ++ " ") cells) [""].
Proof.
  induction 1 as [|c cells Hc _ IH]; [reflexivity|].
  rewrite tableLine_cons, split_append, IH; [reflexivity|].
  rewrite !countChar_append, Hc. reflexivity.
Qed.

Lemma csvRow_tableLine (cells : list string) :
  Forall cleanCell cells -> csvRow (tableLine cells) = join "," cells.
Proof.
  intros H. unfold csvRow, tableLine. fold cellText.
  change ("|" ++ concatLines (map cellText cells))
    with (String "|" (concatLines (map cellText cells))).
  cbn [split Ascii.eqb Bool.eqb]. rewrite split_cells.
  - cbn [filter String.eqb negb]. f_equal.
    induction H as [|c cells Hc _ IH]; [reflexivity|].
    cbn [map app filter]. change (" " ++ c ++ " ") with (String " " (c ++ " ")) at 1.
    cbn [String.eqb negb map]. rewrite IH. f_equal.
    destruct Hc as [_ [_ [_ Hc]]]. exact Hc.
  - eapply Forall_impl; [|exact H]. intros c Hc. apply Hc.
Qed.

Lemma tableLine_no_rule (cells : list string) :
  Forall cleanCell cells -> includes (tableLine cells) "---" = false.
Proof.
  intros H. unfold tableLine. fold cellText.
  apply (includes_across "|" "---" ""); [reflexivity | reflexivity|].
  induction H as [|c cells Hc _ IH]; [reflexivity|].
  rewrite tableLine_cons.
  apply (includes_across "|" "---"); [reflexivity | | exact IH].
  apply (includes_across " " "---" ""); [reflexivity | reflexivity|].
  rewrite <- (append_nil_r " ").
  change (c ++ " " ++ "") with (c ++ String " " "").
  apply (includes_across " " "---"); [reflexivity | apply Hc | reflexivity].
Qed.

Lemma tableLine_no_feed (cells : list string) :
  Forall cleanCell cells -> countChar "010" (tableLine cells) = 0.
Proof.
  intros H. unfold tableLine. fold cellText. rewrite countChar_append.
  induction H as [|c cells Hc _ IH]; [reflexivity|].
  rewrite tableLine_cons, !countChar_append. cbn [countChar] in *.
  destruct Hc as [_ [Hc _]]. rewrite Hc. cbn in *. lia.
Qed.

(** *** The lines of a report *)

Lemma concatLines_app (a b : list string) :
  concatLines (a ++ b) = concatLines a ++ concatLines b.
Proof.
  induction a as [|x a IH]; [reflexivity|].
  cbn [app concatLines fold_right]. fold (concatLines (a ++ b)). fold (concatLines a).
  now rewrite IH, append_assoc.
Qed.

Lemma textOf_app (a b : list string) : textOf (a ++ b) = textOf a ++ textOf b.
Proof. unfold textOf. now rewrite map_app, concatLines_app. Qed.

Lemma textOf_cons (l : string) (ls : list string) :
  textOf (l :: ls) = l ++ String "010" (textOf ls).
Proof.
  unfold textOf. cbn [map concatLines fold_right].
  fold (concatLines (map (fun l0 => l0 ++ nl) ls)). unfold nl.
  now rewrite append_assoc.
Qed.

Lemma split_textOf (lines : list string) (rest : string) :
  Forall (fun l => countChar "010" l = 0) lines ->
  split "010" (textOf lines ++ rest) = app lines (split "010" rest).
Proof.
  induction 1 as [|l lines Hl _ IH]; [reflexivity|].
  rewrite textOf_cons, append_assoc. cbn [append].
  rewrite (split_append "010" l _ Hl), IH. reflexivity.
Qed.

Lemma tableRows_app (a b : list string) :
  tableRows (a ++ b) = app (tableRows a) (tableRows b).
Proof. unfold tableRows. now rewrite !filter_app. Qed.

Lemma tableRows_lines (lines : list (list string)) :
  Forall (Forall cleanCell) lines ->
  map csvRow (tableRows (map tableLine lines)) = map (join ",") lines.
Proof.
  unfold tableRows. induction 1 as [|cells lines Hc _ IH]; [reflexivity|].
  cbn [map filter]. change (startsWith (tableLine cells) "|") with true.
  cbn [filter]. rewrite (tableLine_no_rule cells Hc). cbn [negb map].
  now rewrite IH, (csvRow_tableLine cells Hc).
Qed.

Lemma tableLines_no_feed (lines : list (list string)) :
  Forall (Forall cleanCell) lines ->
  Forall (fun l => countChar "010" l = 0) (map tableLine lines).
Proof.
  induction 1 as [|cells lines Hc _ IH]; constructor; [|exact IH].
  now apply tableLine_no_feed.
Qed.

(** *** The heading of a report *)

Lemma countChar_sliceTo (c : ascii) (n : nat) (s : string) :
  countChar c (sliceTo n s) <= countChar c s.
Proof.
  revert n. induction s as [|x s IH]; intros [|n]; cbn [sliceTo countChar]; try lia.
  specialize (IH n). lia.
Qed.

Lemma countChar_sliceFrom (c : ascii) (n : nat) (s : string) :
  countChar c (sliceFrom n s) <= countChar c s.
Proof.
  revert n. induction s as [|x s IH]; intros [|n]; cbn [sliceFrom countChar]; try lia.
  specialize (IH n). lia.
Qed.

Lemma countChar_splitHead (c sep : ascii) (s : string) :
  countChar c (splitHead sep s) <= countChar c s.
Proof.
  induction s as [|x s IH]; cbn [splitHead countChar]; [lia|].
  destruct (Ascii.eqb x sep); cbn [countChar]; lia.
Qed.

Lemma shortAddr_no_feed (address : string) :
  countChar "010" address = 0 -> countChar "010" (shortAddr address) = 0.
Proof.
  intros H. unfold shortAddr, sliceLast. rewrite !countChar_append.
  pose proof (countChar_sliceTo "010" 4 address).
  pose proof (countChar_sliceFrom "010" (String.length address - 4) address).
  cbn [countChar Ascii.eqb Bool.eqb]. lia.
Qed.

Lemma formatDate_no_feed (date : string) :
  countChar "010" date = 0 -> countChar "010" (formatDate date) = 0.
Proof.
  intros H. unfold formatDate. pose proof (countChar_splitHead "010" "T" date). lia.
Qed.

(** *** The snapshot report *)

Lemma positionLine_cells (row : PositionRow.t) :
  positionLine row = tableLine (positionCells row) ++ nl.
Proof.
  unfold positionLine, tableLine, positionCells.
  cbn [map concatLines fold_right].
  generalize (PositionRow.symbol row), (PositionRow.project row),
    (PositionRow.protocol row), (formatBalance (PositionRow.balance row)),
    (formatUSD (PositionRow.usd_balance row)),
    (toFixed (PositionRow.usd_exchange_rate row) 4).
  intros. rewrite !append_assoc. reflexivity.
Qed.

Lemma positionLines_text (rows : list PositionRow.t) :
  concatLines (map positionLine rows) = textOf (map tableLine (map positionCells rows)).
Proof.
  unfold textOf. rewrite !map_map. f_equal. apply map_ext. apply positionLine_cells.
Qed.

Lemma formatPositionTable_lines (row0 : PositionRow.t) (more : list PositionRow.t) :
  formatPositionTable (row0 :: more) =
  textOf
    ([snapshotTitle row0; ""; "| Token | Protocol | Balance | USD Value | Price |";
      "|-------|----------|---------|-----------|-------|"] ++
     map tableLine (map positionCells (row0 :: more)) ++
     [""; "**Total Portfolio Value: " ++ formatUSD (sumUSD (row0 :: more)) ++ "**"; ""]) ++
  sourceLine.
Proof.
  unfold formatPositionTable. rewrite fold_left_append, positionLines_text.
  rewrite !textOf_app.
  generalize (textOf (map tableLine (map positionCells (row0 :: more)))) as lines.
  intros lines. rewrite !textOf_cons. unfold snapshotTitle, dataSource, sourceLine, textOf.
  cbn [map concatLines fold_right].
  generalize (shortAddr (PositionRow.address row0)),
    (formatDate (PositionRow.date row0)), (formatUSD (sumUSD (row0 :: more))).
  intros. unfold nl. repeat (progress (cbn [append]; rewrite ?append_assoc)).
  reflexivity.
Qed.

Lemma positionCells_clean (row : PositionRow.t) :
  cleanCell (PositionRow.symbol row) ->
  cleanCell (PositionRow.project row ++ " (" ++ PositionRow.protocol row ++ ")") ->
  Forall cleanCell (positionCells row).
Proof.
  intros Hs Hp. unfold positionCells.
  apply Forall_cons; [exact Hs|]. apply Forall_cons; [exact Hp|].
  apply Forall_cons; [apply figure_clean, formatBalance_figure|].
  apply Forall_cons; [apply figure_clean, formatUSD_figure|].
  apply Forall_cons; [apply figure_clean, price_figure | apply Forall_nil].
Qed.

(** X27: the file of a snapshot report is the line of the column titles and
    one line for each row of the row set, in the order of the rows, with the
    cells of the row as the report shows them (figures abbreviated and with
    their dollar sign); the rule under the titles, the heading, the total
    and the data source are not in the file.  The symbols and the
    project-and-protocol cells are assumed clean, the address and the date
    of the first row without a line feed. *)
Theorem handleExportCsv_of_snapshot_report
  (messages : list Message.t) (msgIndex : nat) (msg : Message.t)
  (row0 : PositionRow.t) (more : list PositionRow.t) :
  nth_error messages msgIndex = Some msg ->
  Message.content msg = formatPositionTable (row0 :: more) ->
  countChar "010" (PositionRow.address row0) = 0 ->
  countChar "010" (PositionRow.date row0) = 0 ->
  Forall (fun r => cleanCell (PositionRow.symbol r) /\
                   cleanCell (PositionRow.project r ++ " (" ++
                              PositionRow.protocol r ++ ")"))
    (row0 :: more) ->
  handleExportCsv messages msgIndex =
  Some (join nl ("Token,Protocol,Balance,USD Value,Price" ::
                 map (fun r => join "," (positionCells r)) (row0 :: more))).
Proof.
  intros Hmsg Hcontent Haddress Hdate Hrows.
  set (rows := row0 :: more) in *.
  assert (Hcells : Forall (Forall cleanCell) (map positionCells rows)).
  { apply Forall_map. eapply Forall_impl; [|exact Hrows].
    intros r [Hs Hp]. now apply positionCells_clean. }
  unfold handleExportCsv. rewrite Hmsg, Hcontent.
  unfold rows. rewrite !formatPositionTable_lines. fold rows.
  destruct (textOf _ ++ sourceLine =? "") eqn:Eempty.
  { apply String.eqb_eq in Eempty. rewrite textOf_app, textOf_cons in Eempty.
    unfold snapshotTitle in Eempty. discriminate Eempty. }
  rewrite split_textOf.
  2:{ apply Forall_app. split.
      - repeat constructor.
        unfold snapshotTitle. rewrite !countChar_append.
        rewrite (shortAddr_no_feed _ Haddress), (formatDate_no_feed _ Hdate). reflexivity.
      - apply Forall_app. split; [now apply tableLines_no_feed|].
        repeat constructor. rewrite !countChar_append.
        destruct (figure_clean _ (formatUSD_figure (sumUSD rows))) as [_ [H _]].
        rewrite H. reflexivity. }
  rewrite (split_line "010" sourceLine eq_refl).
  rewrite <- !app_assoc, !filter_app.
  change (filter (fun l => startsWith l "|")
            [snapshotTitle row0; ""; "| Token | Protocol | Balance | USD Value | Price |";
             "|-------|----------|---------|-----------|-------|"])
    with ["| Token | Protocol | Balance | USD Value | Price |";
          "|-------|----------|---------|-----------|-------|"].
  change (filter (fun l => startsWith l "|")
            [""; "**Total Portfolio Value: " ++ formatUSD (sumUSD rows) ++ "**"; ""])
    with (@nil string).
  change (filter (fun l => startsWith l "|") [sourceLine]) with (@nil string).
  rewrite !app_nil_r.
  cbn [app List.length Nat.ltb Nat.leb]. cbn [filter].
  change (negb (includes "| Token | Protocol | Balance | USD Value | Price |" "---"))
    with true.
  change (negb (includes "|-------|----------|---------|-----------|-------|" "---"))
    with false.
  cbv iota. fold (tableRows (map tableLine (map positionCells rows))).
  cbn [app map]. rewrite (tableRows_lines _ Hcells), map_map.
  change (csvRow "| Token | Protocol | Balance | USD Value | Price |")
    with "Token,Protocol,Balance,USD Value,Price".
  reflexivity.
Qed.

(** *** The range report *)

Lemma rangeLine_cells (e : string * PositionRow.t) :
  rangeLine (fst e) (snd e) = tableLine (rangeCells e) ++ nl.
Proof.
  unfold rangeLine, tableLine, rangeCells.
  cbn [map concatLines fold_right].
  generalize (fst e), (formatBalance (PositionRow.balance (snd e))),
    (formatUSD (PositionRow.usd_balance (snd e))),
    (toFixed (PositionRow.usd_exchange_rate (snd e)) 4).
  intros. rewrite !append_assoc. reflexivity.
Qed.

Lemma symbolSection_text (rows : list PositionRow.t) (s : string) :
  tableHead s ++
  concatLines (map (fun e => rangeLine (fst e) (snd e)) (rangeSeries rows s)) ++ nl =
  textOf (symbolSection rows s).
Proof.
  unfold symbolSection. rewrite !textOf_app.
  replace (concatLines (map (fun e => rangeLine (fst e) (snd e)) (rangeSeries rows s)))
    with (textOf (map tableLine (map rangeCells (rangeSeries rows s)))).
  - generalize (textOf (map tableLine (map rangeCells (rangeSeries rows s)))) as lines.
    intros lines. unfold tableHead. rewrite !textOf_cons. unfold textOf, nl.
    cbn [map concatLines fold_right].
    repeat (progress (cbn [append]; rewrite ?append_assoc)). reflexivity.
  - unfold textOf. rewrite !map_map. f_equal. apply map_ext. intros e.
    symmetry. apply rangeLine_cells.
Qed.

Lemma symbolTables_text (rows : list PositionRow.t) (symbols : list string) (md0 : string) :
  fold_left (symbolTable (groupByDate rows) (sort (Map_keys (groupByDate rows))))
    symbols md0 =
  md0 ++ textOf (flat_map (symbolSection rows) symbols).
Proof.
  revert md0. induction symbols as [|s symbols IH]; intros md0.
  - cbn [fold_left flat_map]. now rewrite append_nil_r.
  - cbn [fold_left flat_map]. rewrite IH, symbolTable_series, textOf_app.
    rewrite <- symbolSection_text.
    generalize (concatLines
                  (map (fun e => rangeLine (fst e) (snd e)) (rangeSeries rows s))).
    intros. rewrite !append_assoc. reflexivity.
Qed.

Lemma formatRangeTable_lines (row0 : PositionRow.t) (more : list PositionRow.t) :
  let rows := row0 :: more in
  let dates := sort (Map_keys (groupByDate rows)) in
  formatRangeTable rows =
  textOf
    ([rangeTitle row0 dates; ""] ++
     flat_map (symbolSection rows) (unique (map PositionRow.symbol rows)) ++
     summaryLines (groupByDate rows) dates) ++
  sourceLine.
Proof.
  intros rows dates. unfold formatRangeTable, rows. fold rows. fold dates.
  unfold dates at 3. rewrite symbolTables_text. fold dates.
  rewrite !textOf_app.
  generalize (textOf (flat_map (symbolSection rows)
                        (unique (map PositionRow.symbol rows)))) as tables.
  intros tables. unfold periodSummary, summaryLines, rangeTitle.
  rewrite !textOf_cons. unfold dataSource, sourceLine, textOf, nl.
  cbn [map concatLines fold_right].
  generalize (shortAddr (PositionRow.address row0)),
    (orUndefined (nth_error dates 0)),
    (orUndefined (nth_error dates (List.length dates - 1))),
    (formatUSD (sumUSD (getOrEmpty (nth_error dates 0) (groupByDate rows)))),
    (formatUSD
       (sumUSD (getOrEmpty (nth_error dates (List.length dates - 1)) (groupByDate rows)))).
  intros a d1 d2 t1 t2.
  generalize (formatUSD
                (sumUSD (getOrEmpty (nth_error dates (List.length dates - 1))
                           (groupByDate rows)) -
                 sumUSD (getOrEmpty (nth_error dates 0) (groupByDate rows)))).
  intros change.
  match goal with
  | |- context [if ?c then ?x else "N/A"] => generalize (if c then x else "N/A")
  end.
  intros pct. repeat (progress (cbn [append]; rewrite ?append_assoc)). reflexivity.
Qed.

(** The export of a text whose lines are known. *)
Lemma handleExportCsv_lines
  (messages : list Message.t) (msgIndex : nat) (msg : Message.t)
  (lines : list string) (last : string) :
  nth_error messages msgIndex = Some msg ->
  Message.content msg = textOf lines ++ last ->
  Forall (fun l => countChar "010" l = 0) lines ->
  countChar "010" last = 0 ->
  startsWith last "|" = false ->
  2 <= List.length (filter (fun l => startsWith l "|") lines) ->
  handleExportCsv messages msgIndex = Some (join nl (map csvRow (tableRows lines))).
Proof.
  intros Hmsg Hcontent Hlines Hlast Hbar Htwo.
  unfold handleExportCsv. rewrite Hmsg, Hcontent.
  destruct (textOf lines ++ last =? "") eqn:Eempty.
  { apply String.eqb_eq in Eempty. destruct lines as [|l lines]; [simpl in Htwo; lia|].
    rewrite textOf_cons in Eempty. destruct l; discriminate Eempty. }
  rewrite (split_textOf lines last Hlines), (split_line "010" last Hlast).
  rewrite filter_app. cbn [filter]. rewrite Hbar, app_nil_r.
  destruct (Nat.ltb_spec (List.length (filter (fun l => startsWith l "|") lines)) 2) as [H|_];
    [lia | reflexivity].
Qed.

Lemma toFixed_no_feed (x : float) (f : nat) : countChar "010" (toFixed x f) = 0.
Proof.
  destruct (toFixed_numeral x f) as [sign [body [-> [Hs Hb]]]].
  rewrite countChar_append, (countChar_none isNumeralChar "010" body eq_refl Hb).
  destruct Hs as [->| ->]; reflexivity.
Qed.

Lemma formatUSD_no_feed (v : float) : countChar "010" (formatUSD v) = 0.
Proof. apply (figure_clean _ (formatUSD_figure v)). Qed.

Lemma orUndefined_no_feed (dates : list string) (n : nat) :
  Forall cleanCell dates -> countChar "010" (orUndefined (nth_error dates n)) = 0.
Proof.
  intros H. destruct (nth_error dates n) as [d|] eqn:E; [|reflexivity].
  apply nth_error_In in E. rewrite Forall_forall in H. apply (H d E).
Qed.

Lemma rangeSeries_dates (rows : list PositionRow.t) (s : string) (e : string * PositionRow.t) :
  In e (rangeSeries rows s) -> exists r, In r rows /\ rowDate r = fst e.
Proof.
  unfold rangeSeries. intros H. apply in_flat_map in H. destruct H as [d [Hd He]].
  destruct (symbolRow (groupByDate rows) s d) as [row|]; [|contradiction].
  destruct He as [<-|[]]. cbn [fst].
  apply (Permutation_in _ (sort_perm _)) in Hd. now apply keys_groupByDate in Hd.
Qed.

Lemma tableRows_flat_map {A : Type} (f : A -> list string) (l : list A) :
  tableRows (flat_map f l) = flat_map (fun x => tableRows (f x)) l.
Proof.
  induction l as [|x l IH]; [reflexivity|].
  cbn [flat_map]. now rewrite tableRows_app, IH.
Qed.

Lemma map_flat_map {A B C : Type} (g : B -> C) (f : A -> list B) (l : list A) :
  map g (flat_map f l) = flat_map (fun x => map g (f x)) l.
Proof.
  induction l as [|x l IH]; [reflexivity|].
  cbn [flat_map]. now rewrite map_app, IH.
Qed.

Lemma symbolSection_rows (rows : list PositionRow.t) (s : string) :
  Forall (fun r => cleanCell (rowDate r)) rows ->
  map csvRow (tableRows (symbolSection rows s)) =
  "Date,Balance,USD Value,Price" ::
  map (fun e => join "," (rangeCells e)) (rangeSeries rows s).
Proof.
  intros Hrows. unfold symbolSection. rewrite !tableRows_app.
  change (tableRows ["#### " ++ s; ""; "| Date | Balance | USD Value | Price |";
                     "|------|---------|-----------|-------|"])
    with ["| Date | Balance | USD Value | Price |"].
  change (tableRows [""]) with (@nil string). rewrite app_nil_r.
  cbn [app map]. rewrite tableRows_lines, map_map; [reflexivity|].
  apply Forall_map. apply Forall_forall. intros e He.
  destruct (rangeSeries_dates rows s e He) as [r [Hr Hd]].
  rewrite Forall_forall in Hrows. specialize (Hrows r Hr). rewrite Hd in Hrows.
  unfold rangeCells.
  apply Forall_cons; [exact Hrows|].
  apply Forall_cons; [apply figure_clean, formatBalance_figure|].
  apply Forall_cons; [apply figure_clean, formatUSD_figure|].
  apply Forall_cons; [apply figure_clean, price_figure | apply Forall_nil].
Qed.

(** X28: the file of a range report holds, for each symbol in turn, the line
    [Date,Balance,USD Value,Price] and the lines of the series of that
    symbol: the column titles are repeated once for each symbol, and the
    symbol itself, which the report shows in a heading above its table, is
    in no line of the file, nor are the summary of the period and the data
    source.  The dates of the rows are assumed clean, the symbols and the
    address of the first row without a line feed. *)
Theorem handleExportCsv_of_range_report
  (messages : list Message.t) (msgIndex : nat) (msg : Message.t)
  (row0 : PositionRow.t) (more : list PositionRow.t) :
  let rows := row0 :: more in
  nth_error messages msgIndex = Some msg ->
  Message.content msg = formatRangeTable rows ->
  countChar "010" (PositionRow.address row0) = 0 ->
  Forall (fun r => countChar "010" (PositionRow.symbol r) = 0 /\ cleanCell (rowDate r))
    rows ->
  handleExportCsv messages msgIndex =
  Some (join nl
          (flat_map
             (fun symbol =>
                "Date,Balance,USD Value,Price" ::
                map (fun e => join "," (rangeCells e)) (rangeSeries rows symbol))
             (unique (map PositionRow.symbol rows)))).
Proof.
  intros rows Hmsg Hcontent Haddress Hrows.
  set (dates := sort (Map_keys (groupByDate rows))).
  set (symbols := unique (map PositionRow.symbol rows)).
  assert (Hclean : Forall (fun r => cleanCell (rowDate r)) rows).
  { eapply Forall_impl; [|exact Hrows]. intros r Hr. apply Hr. }
  assert (Hdates : Forall cleanCell dates).
  { apply Forall_forall. intros d Hd. unfold dates in Hd.
    apply (Permutation_in _ (sort_perm _)) in Hd. apply keys_groupByDate in Hd.
    destruct Hd as [r [Hr <-]]. rewrite Forall_forall in Hclean. apply (Hclean r Hr). }
  assert (Hsymbols : Forall (fun s => countChar "010" s = 0) symbols).
  { apply Forall_forall. intros s Hs. unfold symbols in Hs. apply (proj1 (unique_In _ _)) in Hs.
    apply in_map_iff in Hs. destruct Hs as [r [<- Hr]].
    rewrite Forall_forall in Hrows. apply (Hrows r Hr). }
  assert (Hsections : forall s,
            Forall (Forall cleanCell) (map rangeCells (rangeSeries rows s))).
  { intros s. apply Forall_map. apply Forall_forall. intros e He.
    destruct (rangeSeries_dates rows s e He) as [r [Hr Hd]].
    rewrite Forall_forall in Hclean. specialize (Hclean r Hr). rewrite Hd in Hclean.
    unfold rangeCells.
    apply Forall_cons; [exact Hclean|].
    apply Forall_cons; [apply figure_clean, formatBalance_figure|].
    apply Forall_cons; [apply figure_clean, formatUSD_figure|].
    apply Forall_cons; [apply figure_clean, price_figure | apply Forall_nil]. }
  rewrite (handleExportCsv_lines messages msgIndex msg
             ([rangeTitle row0 dates; ""] ++
              flat_map (symbolSection rows) symbols ++
              summaryLines (groupByDate rows) dates)
             sourceLine Hmsg).
  - f_equal. f_equal. rewrite !tableRows_app.
    change (tableRows [rangeTitle row0 dates; ""]) with (@nil string).
    change (tableRows (summaryLines (groupByDate rows) dates)) with (@nil string).
    rewrite app_nil_r. cbn [app]. rewrite tableRows_flat_map, map_flat_map.
    apply flat_map_ext. intros s. now apply symbolSection_rows.
  - rewrite Hcontent. apply formatRangeTable_lines.
  - apply Forall_app. split; [|apply Forall_app; split].
    + apply Forall_cons; [|repeat constructor].
      unfold rangeTitle. rewrite !countChar_append.
      rewrite (shortAddr_no_feed _ Haddress), !(orUndefined_no_feed dates _ Hdates).
      reflexivity.
    + apply Forall_flat_map. eapply Forall_impl; [|exact Hsymbols].
      intros s Hs. unfold symbolSection. apply Forall_app. split.
      * apply Forall_cons; [|repeat constructor].
        rewrite countChar_append, Hs. reflexivity.
      * apply Forall_app. split; [apply tableLines_no_feed, Hsections|].
        repeat constructor.
    + unfold summaryLines.
      apply Forall_cons; [reflexivity|].
      apply Forall_cons.
      { rewrite !countChar_append, formatUSD_no_feed, (orUndefined_no_feed dates _ Hdates).
        reflexivity. }
      apply Forall_cons.
      { rewrite !countChar_append, formatUSD_no_feed, (orUndefined_no_feed dates _ Hdates).
        reflexivity. }
      apply Forall_cons; [|repeat constructor].
      rewrite !countChar_append, formatUSD_no_feed.
      match goal with
      | |- context [if ?c then _ else _] => destruct c
      end; [rewrite toFixed_no_feed|]; reflexivity.
  - reflexivity.
  - reflexivity.
  - rewrite !filter_app.
    change (filter (fun l => startsWith l "|") [rangeTitle row0 dates; ""])
      with (@nil string).
    cbn [app]. rewrite length_app.
    assert (Hin : In (PositionRow.symbol row0) symbols).
    { apply (proj2 (unique_In _ _)). now left. }
    destruct symbols as [|s symbols']; [contradiction|].
    cbn [flat_map]. rewrite filter_app, length_app. unfold symbolSection at 1.
    rewrite filter_app, length_app.
    change (filter (fun l => startsWith l "|")
              ["#### " ++ s; ""; "| Date | Balance | USD Value | Price |";
               "|------|---------|-----------|-------|"])
      with ["| Date | Balance | USD Value | Price |";
            "|------|---------|-----------|-------|"].
    cbn [List.length]. lia.
Qed.

(** *** The comparison report *)

(** A text between two spaces is trimmed to itself when its first and its
    last character are visible ones. *)
Lemma trim_between (c l : ascii) (mid : string) :
  isVisible c = true -> isVisible l = true ->
  trim (" " ++ String c (mid ++ String l "") ++ " ") = String c (mid ++ String l "").
Proof.
  intros Hc Hl. unfold trim.
  change (" " ++ String c (mid ++ String l "") ++ " ")
    with (String " " (String c ((mid ++ String l "") ++ " "))).
  remember (String c ((mid ++ String l "") ++ " ")) as text eqn:Etext.
  cbn [trimStart isAsciiSpace Ascii.eqb Bool.eqb orb]. subst text.
  rewrite (trimStart_visible c _ Hc).
  change (String c ((mid ++ String l "") ++ " "))
    with ((String c mid ++ String l "") ++ " ").
  unfold trimEnd. rewrite !reverse_append.
  change (reverse "" " ") with " ". change (reverse "" (String l "")) with (String l "").
  change (" " ++ String l "" ++ reverse "" (String c mid))
    with (String " " (String l (reverse "" (String c mid)))).
  remember (String l (reverse "" (String c mid))) as text eqn:Etext.
  cbn [trimStartRev isAsciiSpace Ascii.eqb Bool.eqb orb]. subst text.
  rewrite (trimStartRev_visible l _ Hl).
  change (String l (reverse "" (String c mid)))
    with (reverse "" (String l "") ++ reverse "" (String c mid)).
  rewrite <- reverse_append, reverse_involutive. reflexivity.
Qed.

Lemma labelled_clean (c : ascii) (label date : string) :
  isVisible c = true ->
  countChar "|" (String c label) = 0 -> countChar "010" (String c label) = 0 ->
  includes (String c label) "---" = false ->
  cleanCell date -> cleanCell (String c label ++ "(" ++ date ++ ")").
Proof.
  intros Hc Hbar Hfeed Hrule [Hd1 [Hd2 [Hd3 _]]].
  split; [|split; [|split]].
  - rewrite !countChar_append, Hbar, Hd1. reflexivity.
  - rewrite !countChar_append, Hfeed, Hd2. reflexivity.
  - change (String c label ++ "(" ++ date ++ ")")
      with (String c label ++ String "(" (date ++ String ")" "")).
    apply (includes_across "(" "---"); [reflexivity | exact Hrule|].
    apply (includes_across ")" "---"); [reflexivity | exact Hd3 | reflexivity].
  - replace (String c label ++ "(" ++ date ++ ")")
      with (String c ((label ++ "(" ++ date) ++ String ")" ""));
      [now apply trim_between|].
    cbn [append]. f_equal. rewrite append_assoc. reflexivity.
Qed.

Lemma comparisonHeader_clean (date1 date2 : string) :
  cleanCell date1 -> cleanCell date2 -> Forall cleanCell (comparisonHeader date1 date2).
Proof.
  intros H1 H2. unfold comparisonHeader.
  apply Forall_cons; [repeat split|].
  apply Forall_cons; [now apply (labelled_clean "B" "alance ")|].
  apply Forall_cons; [now apply (labelled_clean "U" "SD ")|].
  apply Forall_cons; [now apply (labelled_clean "B" "alance ")|].
  apply Forall_cons; [now apply (labelled_clean "U" "SD ")|].
  apply Forall_cons; [repeat split|].
  apply Forall_cons; [repeat split | apply Forall_nil].
Qed.

Lemma percentChange_clean (change base : float) : cleanCell (percentChange change base).
Proof.
  unfold percentChange. destruct (0 <? base)%float; [|repeat split].
  apply figure_clean. apply (figure_of_numeral "" "%"); tauto.
Qed.

Lemma comparisonCells_clean (d1Rows d2Rows : list PositionRow.t) (symbol : string) :
  cleanCell symbol -> Forall cleanCell (comparisonCells d1Rows d2Rows symbol).
Proof.
  intros H. unfold comparisonCells.
  apply Forall_cons; [exact H|].
  apply Forall_cons; [apply figure_clean, formatBalance_figure|].
  apply Forall_cons; [apply figure_clean, formatUSD_figure|].
  apply Forall_cons; [apply figure_clean, formatBalance_figure|].
  apply Forall_cons; [apply figure_clean, formatUSD_figure|].
  apply Forall_cons; [apply figure_clean, formatUSD_figure|].
  apply Forall_cons; [apply percentChange_clean | apply Forall_nil].
Qed.

Lemma comparisonLine_cells (d1Rows d2Rows : list PositionRow.t) (symbol : string) :
  comparisonLine d1Rows d2Rows symbol =
  tableLine (comparisonCells d1Rows d2Rows symbol) ++ nl.
Proof.
  unfold comparisonLine, tableLine, comparisonCells.
  cbn [map concatLines fold_right].
  generalize (formatBalance (balanceOf symbol d1Rows)), (formatUSD (usdOf symbol d1Rows)),
    (formatBalance (balanceOf symbol d2Rows)), (formatUSD (usdOf symbol d2Rows)),
    (formatUSD (usdOf symbol d2Rows - usdOf symbol d1Rows)),
    (percentChange (usdOf symbol d2Rows - usdOf symbol d1Rows) (usdOf symbol d1Rows)).
  intros. rewrite !append_assoc. reflexivity.
Qed.

Lemma formatComparisonTable_text (row0 : PositionRow.t) (more : list PositionRow.t)
  (date1 date2 : string) :
  let rows := row0 :: more in
  let d1Rows := rowsOn date1 rows in
  let d2Rows := rowsOn date2 rows in
  let symbols :=
    unique (map PositionRow.symbol d1Rows ++ map PositionRow.symbol d2Rows)%list in
  formatComparisonTable rows date1 date2 =
  textOf
    ([comparisonTitle row0 date1 date2; ""; tableLine (comparisonHeader date1 date2);
      "|-------|------------------|----------------|------------------|----------------|--------|----------|"] ++
     map tableLine (map (comparisonCells d1Rows d2Rows) symbols) ++
     totalLines date1 date2
       (sumOver symbols (fun s => usdOf s d1Rows))
       (sumOver symbols (fun s => usdOf s d2Rows))) ++
  sourceLine.
Proof.
  intros rows d1Rows d2Rows symbols. unfold rows, d1Rows, d2Rows, symbols.
  rewrite comparison_parts. fold rows. fold d1Rows d2Rows. fold symbols.
  replace (concatLines (map (comparisonLine d1Rows d2Rows) symbols))
    with (textOf (map tableLine (map (comparisonCells d1Rows d2Rows) symbols))).
  2:{ unfold textOf. rewrite !map_map. f_equal. apply map_ext. intros s.
      symmetry. apply comparisonLine_cells. }
  rewrite !textOf_app.
  generalize (textOf (map tableLine (map (comparisonCells d1Rows d2Rows) symbols)))
    as lines.
  intros lines.
  unfold comparisonHead, comparisonTotals, totalLines, comparisonTitle, comparisonHeader,
    tableLine.
  rewrite !textOf_cons. unfold dataSource, sourceLine, textOf, nl.
  cbn [map concatLines fold_right].
  generalize (sumOver symbols (fun s => usdOf s d1Rows)) as t1.
  generalize (sumOver symbols (fun s => usdOf s d2Rows)) as t2.
  intros t2 t1.
  generalize (percentChange (t2 - t1) t1), (formatUSD (t2 - t1)), (formatUSD t1),
    (formatUSD t2), (shortAddr (PositionRow.address row0)).
  intros. repeat (progress (cbn [append]; rewrite ?append_assoc)). reflexivity.
Qed.

(** X29: the file of a comparison report is the line of the seven column
    titles, the two dates inside them, and one line for each symbol of the
    report with its seven cells, in the order of the report; the rule, the
    heading, the totals and the data source are not in the file.  The two
    dates and the symbols are assumed clean, the address of the first row
    without a line feed. *)
Theorem handleExportCsv_of_comparison_report
  (messages : list Message.t) (msgIndex : nat) (msg : Message.t)
  (row0 : PositionRow.t) (more : list PositionRow.t) (date1 date2 : string) :
  let rows := row0 :: more in
  let d1Rows := rowsOn date1 rows in
  let d2Rows := rowsOn date2 rows in
  let symbols :=
    unique (map PositionRow.symbol d1Rows ++ map PositionRow.symbol d2Rows)%list in
  nth_error messages msgIndex = Some msg ->
  Message.content msg = formatComparisonTable rows date1 date2 ->
  countChar "010" (PositionRow.address row0) = 0 ->
  cleanCell date1 -> cleanCell date2 ->
  Forall (fun r => cleanCell (PositionRow.symbol r)) rows ->
  handleExportCsv messages msgIndex =
  Some (join nl
          (join "," (comparisonHeader date1 date2) ::
           map (fun symbol => join "," (comparisonCells d1Rows d2Rows symbol)) symbols)).
Proof.
  intros rows d1Rows d2Rows symbols Hmsg Hcontent Haddress Hdate1 Hdate2 Hrows.
  assert (Hsymbols : Forall cleanCell symbols).
  { apply Forall_forall. intros s Hs. unfold symbols in Hs.
    apply (proj1 (unique_In _ _)) in Hs. rewrite Forall_forall in Hrows.
    apply in_app_or in Hs.
    destruct Hs as [Hs|Hs]; apply in_map_iff in Hs; destruct Hs as [r [<- Hr]];
      apply filter_In in Hr; apply Hrows, Hr. }
  assert (Hcells : Forall (Forall cleanCell) (map (comparisonCells d1Rows d2Rows) symbols)).
  { apply Forall_map. eapply Forall_impl; [|exact Hsymbols].
    intros s Hs. now apply comparisonCells_clean. }
  pose proof (comparisonHeader_clean date1 date2 Hdate1 Hdate2) as Hheader.
  set (rule := "|-------|------------------|----------------|------------------|----------------|--------|----------|").
  set (totals := totalLines date1 date2 (sumOver symbols (fun s => usdOf s d1Rows))
                   (sumOver symbols (fun s => usdOf s d2Rows))).
  rewrite (handleExportCsv_lines messages msgIndex msg
             ([comparisonTitle row0 date1 date2; "";
               tableLine (comparisonHeader date1 date2); rule] ++
              map tableLine (map (comparisonCells d1Rows d2Rows) symbols) ++ totals)
             sourceLine Hmsg).
  - f_equal. f_equal. rewrite !tableRows_app.
    change (tableRows totals) with (@nil string). rewrite app_nil_r.
    replace (tableRows [comparisonTitle row0 date1 date2; "";
                        tableLine (comparisonHeader date1 date2); rule])
      with [tableLine (comparisonHeader date1 date2)].
    + cbn [app map]. rewrite (tableRows_lines _ Hcells), map_map.
      now rewrite (csvRow_tableLine _ Hheader).
    + unfold tableRows. cbn [filter].
      change (startsWith (comparisonTitle row0 date1 date2) "|") with false.
      change (startsWith (tableLine (comparisonHeader date1 date2)) "|") with true.
      change (startsWith "" "|") with false. change (startsWith rule "|") with true.
      cbn [filter]. rewrite (tableLine_no_rule _ Hheader).
      change (includes rule "---") with true. reflexivity.
  - rewrite Hcontent. apply formatComparisonTable_text.
  - destruct Hdate1 as [_ [Hd1 _]]. destruct Hdate2 as [_ [Hd2 _]].
    apply Forall_app. split; [|apply Forall_app; split].
    + apply Forall_cons.
      { unfold comparisonTitle. rewrite !countChar_append.
        rewrite (shortAddr_no_feed _ Haddress), Hd1, Hd2. reflexivity. }
      apply Forall_cons; [reflexivity|].
      apply Forall_cons; [now apply tableLine_no_feed|].
      apply Forall_cons; [reflexivity | apply Forall_nil].
    + now apply tableLines_no_feed.
    + unfold totals, totalLines.
      apply Forall_cons; [reflexivity|]. apply Forall_cons; [reflexivity|].
      apply Forall_cons; [rewrite !countChar_append, formatUSD_no_feed, Hd1; reflexivity|].
      apply Forall_cons; [rewrite !countChar_append, formatUSD_no_feed, Hd2; reflexivity|].
      apply Forall_cons; [|repeat constructor].
      rewrite !countChar_append, formatUSD_no_feed.
      destruct (percentChange_clean
                  (sumOver symbols (fun s => usdOf s d2Rows) -
                   sumOver symbols (fun s => usdOf s d1Rows))
                  (sumOver symbols (fun s => usdOf s d1Rows))) as [_ [H _]].
      rewrite H. reflexivity.
  - reflexivity.
  - reflexivity.
  - rewrite filter_app. cbn [filter].
    change (startsWith (comparisonTitle row0 date1 date2) "|") with false.
    change (startsWith (tableLine (comparisonHeader date1 date2)) "|") with true.
    change (startsWith "" "|") with false. change (startsWith rule "|") with true.
    cbn [filter app List.length]. lia.
Qed.

(** *** The export, report by report *)

(** X26: a table line whose cells are clean ones comes back from the export
    as its cells with commas between them, in their order: the line starts
    with a bar, it is not taken for a rule, and the bars and the spaces
    around the cells are removed.  A comma inside a cell is kept as it is,
    with no quotes around the cell. *)
Theorem csvRow_returns_cells (cells : list string) :
  Forall cleanCell cells ->
  startsWith (tableLine cells) "|" = true /\
  includes (tableLine cells) "---" = false /\
  csvRow (tableLine cells) = join "," cells.
Proof.
  intros H. split; [reflexivity|]. split.
  - now apply tableLine_no_rule.
  - now apply csvRow_tableLine.
Qed.

(** A line with a symbol, a figure with a comma in it and an empty cell. *)
Lemma csvRow_returns_cells_witness :
  startsWith (tableLine ["SOL"; "1,250.5"; ""]) "|" = true /\
  includes (tableLine ["SOL"; "1,250.5"; ""]) "---" = false /\
  csvRow (tableLine ["SOL"; "1,250.5"; ""]) = join "," ["SOL"; "1,250.5"; ""].
Proof.
  apply (csvRow_returns_cells ["SOL"; "1,250.5"; ""]).
  repeat constructor.
Defined.

(** Two positions of one day. *)
Lemma handleExportCsv_of_snapshot_report_witness :
  handleExportCsv
    [answer
       (formatPositionTable
          [sampleRow "2025-12-31T00:00:00" "SOL" 1500 250000;
           sampleRow "2025-12-31" "USDC" 12.5 12.5])] 0 =
  Some (join nl
          ["Token,Protocol,Balance,USD Value,Price";
           "SOL,kamino (kvault),1.5000K,$250.00K,$1.0000";
           "USDC,kamino (kvault),12.500000,$12.50,$1.0000"]).
Proof.
  apply (handleExportCsv_of_snapshot_report
           [answer
              (formatPositionTable
                 [sampleRow "2025-12-31T00:00:00" "SOL" 1500 250000;
                  sampleRow "2025-12-31" "USDC" 12.5 12.5])] 0
           (answer
              (formatPositionTable
                 [sampleRow "2025-12-31T00:00:00" "SOL" 1500 250000;
                  sampleRow "2025-12-31" "USDC" 12.5 12.5]))
           (sampleRow "2025-12-31T00:00:00" "SOL" 1500 250000)
           [sampleRow "2025-12-31" "USDC" 12.5 12.5]);
    [reflexivity | reflexivity | reflexivity | reflexivity | repeat constructor].
Defined.

(** Two symbols over two days, the second symbol on the first day only. *)
Lemma handleExportCsv_of_range_report_witness :
  handleExportCsv
    [answer
       (formatRangeTable
          [sampleRow "2025-12-01" "SOL" 1500 250000;
           sampleRow "2025-12-01" "USDC" 12.5 12.5;
           sampleRow "2025-12-31" "SOL" 1000 150000])] 0 =
  Some (join nl
          ["Date,Balance,USD Value,Price";
           "2025-12-01,1.5000K,$250.00K,$1.0000";
           "2025-12-31,1.0000K,$150.00K,$1.0000";
           "Date,Balance,USD Value,Price";
           "2025-12-01,12.500000,$12.50,$1.0000"]).
Proof.
  apply (handleExportCsv_of_range_report
           [answer
              (formatRangeTable
                 [sampleRow "2025-12-01" "SOL" 1500 250000;
                  sampleRow "2025-12-01" "USDC" 12.5 12.5;
                  sampleRow "2025-12-31" "SOL" 1000 150000])] 0
           (answer
              (formatRangeTable
                 [sampleRow "2025-12-01" "SOL" 1500 250000;
                  sampleRow "2025-12-01" "USDC" 12.5 12.5;
                  sampleRow "2025-12-31" "SOL" 1000 150000]))
           (sampleRow "2025-12-01" "SOL" 1500 250000)
           [sampleRow "2025-12-01" "USDC" 12.5 12.5;
            sampleRow "2025-12-31" "SOL" 1000 150000]);
    [reflexivity | reflexivity | reflexivity | repeat constructor].
Defined.

(** The same rows compared on their two days. *)
Lemma handleExportCsv_of_comparison_report_witness :
  handleExportCsv
    [answer
       (formatComparisonTable
          [sampleRow "2025-12-01" "SOL" 1500 250000;
           sampleRow "2025-12-01" "USDC" 12.5 12.5;
           sampleRow "2025-12-31" "SOL" 1000 150000] "2025-12-01" "2025-12-31")] 0 =
  Some (join nl
          ["Token,Balance (2025-12-01),USD (2025-12-01),Balance (2025-12-31),USD (2025-12-31),Change,% Change";
           "SOL,1.5000K,$250.00K,1.0000K,$150.00K,$-100000.00,-40.00%";
           "USDC,12.500000,$12.50,0.000000,$0.00,$-12.50,-100.00%"]).
Proof.
  apply (handleExportCsv_of_comparison_report
           [answer
              (formatComparisonTable
                 [sampleRow "2025-12-01" "SOL" 1500 250000;
                  sampleRow "2025-12-01" "USDC" 12.5 12.5;
                  sampleRow "2025-12-31" "SOL" 1000 150000] "2025-12-01" "2025-12-31")] 0
           (answer
              (formatComparisonTable
                 [sampleRow "2025-12-01" "SOL" 1500 250000;
                  sampleRow "2025-12-01" "USDC" 12.5 12.5;
                  sampleRow "2025-12-31" "SOL" 1000 150000] "2025-12-01" "2025-12-31"))
           (sampleRow "2025-12-01" "SOL" 1500 250000)
           [sampleRow "2025-12-01" "USDC" 12.5 12.5;
            sampleRow "2025-12-31" "SOL" 1000 150000]
           "2025-12-01" "2025-12-31");
    [reflexivity | reflexivity | reflexivity | repeat constructor
     | repeat constructor | repeat constructor].
Defined.

(** ** The range report, line by line *)

(** The text before the last bar of a text, and the text after it. *)
Lemma last_bar_unique (a a' x x' : string) :
  countChar "|" x = 0 -> countChar "|" x' = 0 ->
  a ++ String "|" x = a' ++ String "|" x' -> a = a' /\ x = x'.
Proof.
  intros Hx Hx'. revert a'. induction a as [|c a IH]; intros [|c' a'] H;
    cbn [append] in H.
  - injection H as ->. now split.
  - injection H as _ H. rewrite H, countChar_append in Hx. cbn in Hx. lia.
  - injection H as _ H. rewrite <- H, countChar_append in Hx'. cbn in Hx'. lia.
  - injection H as -> H. destruct (IH a' H) as [-> ->]. now split.
Qed.

Lemma append_cancel_r (a b c : string) : a ++ c = b ++ c -> a = b.
Proof.
  intros H. apply (f_equal (reverse "")) in H. rewrite !reverse_append in H.
  assert (Hrev : reverse "" a = reverse "" b).
  { revert H. generalize (reverse "" a), (reverse "" b).
    induction (reverse "" c) as [|x r IH]; intros u v H; [exact H|].
    cbn [append] in H. injection H as H. now apply IH. }
  apply (f_equal (reverse "")) in Hrev. now rewrite !reverse_involutive in Hrev.
Qed.

Lemma rangeCells_line (e : string * PositionRow.t) :
  tableLine (rangeCells e) =
  "| " ++
  ((((fst e ++ " ") ++
     String "|" (" " ++ formatBalance (PositionRow.balance (snd e)) ++ " ")) ++
    String "|" (" " ++ formatUSD (PositionRow.usd_balance (snd e)) ++ " ")) ++
   String "|" (" $" ++ toFixed (PositionRow.usd_exchange_rate (snd e)) 4 ++ " ")) ++
  String "|" "".
Proof.
  unfold tableLine, rangeCells. cbn [map concatLines fold_right].
  generalize (fst e), (formatBalance (PositionRow.balance (snd e))),
    (formatUSD (PositionRow.usd_balance (snd e))),
    (toFixed (PositionRow.usd_exchange_rate (snd e)) 4).
  intros. repeat (progress (cbn [append]; rewrite ?append_assoc)). reflexivity.
Qed.

Lemma padded_no_bar (cell : string) :
  cleanCell cell -> countChar "|" (" " ++ cell ++ " ") = 0.
Proof. intros [H _]. rewrite !countChar_append, H. reflexivity. Qed.

(** Two lines of a series that are the same text are lines of the same
    date, with the same three figures. *)
Lemma rangeCells_line_inj (e e' : string * PositionRow.t) :
  tableLine (rangeCells e) = tableLine (rangeCells e') ->
  fst e = fst e' /\
  "$" ++ toFixed (PositionRow.usd_exchange_rate (snd e)) 4 =
  "$" ++ toFixed (PositionRow.usd_exchange_rate (snd e')) 4.
Proof.
  rewrite !rangeCells_line. intros H. cbn [append] in H. injection H as H.
  apply last_bar_unique in H; [|reflexivity | reflexivity]. destruct H as [H _].
  pose proof (padded_no_bar _ (figure_clean _ (price_figure
                (PositionRow.usd_exchange_rate (snd e))))) as P1.
  pose proof (padded_no_bar _ (figure_clean _ (price_figure
                (PositionRow.usd_exchange_rate (snd e'))))) as P2.
  apply last_bar_unique in H; [|exact P1 | exact P2]. destruct H as [H Hp].
  apply last_bar_unique in H;
    [|apply padded_no_bar, figure_clean, formatUSD_figure
     |apply padded_no_bar, figure_clean, formatUSD_figure].
  destruct H as [H _].
  apply last_bar_unique in H;
    [|apply padded_no_bar, figure_clean, formatBalance_figure
     |apply padded_no_bar, figure_clean, formatBalance_figure].
  destruct H as [H _]. split; [now apply append_cancel_r in H|].
  cbn [append] in Hp. injection Hp as Hp. apply append_cancel_r in Hp.
  now rewrite Hp.
Qed.

(** A line of a series is none of the four lines above it, nor the empty
    line below it. *)
Lemma symbolSection_row (rows : list PositionRow.t) (symbol : string)
  (e : string * PositionRow.t) :
  In (tableLine (rangeCells e)) (symbolSection rows symbol) ->
  exists e', In e' (rangeSeries rows symbol) /\
             tableLine (rangeCells e') = tableLine (rangeCells e).
Proof.
  unfold symbolSection. intros H. apply in_app_or in H. destruct H as [H|H].
  - exfalso. rewrite rangeCells_line in H.
    destruct H as [H|[H|[H|[H|[]]]]].
    + discriminate H.
    + discriminate H.
    + cbn [append] in H. injection H as H.
      apply (last_bar_unique "Date | Balance | USD Value | Price " _ "" "") in H;
        [|reflexivity | reflexivity].
      destruct H as [H _].
      apply (last_bar_unique "Date | Balance | USD Value " _ " Price " _) in H;
        [|reflexivity
         |apply (padded_no_bar _ (figure_clean _ (price_figure
                   (PositionRow.usd_exchange_rate (snd e)))))].
      destruct H as [_ H]. discriminate H.
    + discriminate H.
  - apply in_app_or in H. destruct H as [H|[H|[]]].
    + apply in_map_iff in H. destruct H as [cells [Hline H]].
      apply in_map_iff in H. destruct H as [e' [<- He']]. now exists e'.
    + rewrite rangeCells_line in H. discriminate H.
Qed.

Lemma rangeSeries_first (rows : list PositionRow.t) (symbol d : string) (r : PositionRow.t) :
  In (d, r) (rangeSeries rows symbol) ->
  find (fun x => PositionRow.symbol x =? symbol) (rowsOn d rows) = Some r.
Proof.
  unfold rangeSeries. intros Hin. apply in_flat_map in Hin. destruct Hin as [x [Hx Hin]].
  rewrite symbolRow_groupByDate in Hin.
  destruct (find _ (rowsOn x rows)) as [r0|] eqn:Hf; [|contradiction].
  destruct Hin as [Heq|[]]. injection Heq as -> ->. exact Hf.
Qed.

Lemma rangeSeries_date_iff (rows : list PositionRow.t) (symbol d : string) :
  In d (map fst (rangeSeries rows symbol)) <->
  exists r, In r rows /\ formatDate (PositionRow.date r) = d /\
            PositionRow.symbol r = symbol.
Proof.
  rewrite in_map_iff. split.
  - intros [[d' r] [Hd Hin]]. simpl in Hd. subst d'.
    apply rangeSeries_first in Hin. apply find_some in Hin. destruct Hin as [Hin Hs].
    unfold rowsOn in Hin. apply filter_In in Hin. exists r. repeat split; [tauto | | ].
    + now apply String.eqb_eq.
    + now apply String.eqb_eq.
  - intros [r [Hin [Hd Hs]]].
    assert (Hex : exists x,
              find (fun x => PositionRow.symbol x =? symbol) (rowsOn d rows) = Some x).
    { apply find_some_iff. exists r. split; [|now apply String.eqb_eq].
      apply filter_In. split; [exact Hin | now apply String.eqb_eq]. }
    destruct Hex as [r0 Hr0]. exists (d, r0). split; [reflexivity|].
    unfold rangeSeries. apply in_flat_map. exists d. split.
    + apply (Permutation_in _ (Permutation_sym (sort_perm _))).
      apply keys_groupByDate. now exists r.
    + rewrite symbolRow_groupByDate, Hr0. now left.
Qed.

Lemma rangeSeries_NoDup (rows : list PositionRow.t) (symbol : string) :
  NoDup (map fst (rangeSeries rows symbol)).
Proof.
  unfold rangeSeries.
  assert (Hnodup : NoDup (sort (Map_keys (groupByDate rows)))).
  { apply Permutation_NoDup with (l := Map_keys (groupByDate rows)).
    - apply Permutation_sym, sort_perm.
    - apply groupByDate_keys_NoDup. }
  induction (sort (Map_keys (groupByDate rows))) as [|x dates' IH]; simpl; [constructor|].
  inversion Hnodup as [|? ? Hnot Hnd]; subst.
  destruct (symbolRow (groupByDate rows) symbol x) as [row|]; simpl; [|now apply IH].
  constructor; [|now apply IH].
  intros Hin. apply Hnot. apply in_map_iff in Hin.
  destruct Hin as [[d' r'] [Hd Hin]]. simpl in Hd. subst d'.
  apply in_flat_map in Hin. destruct Hin as [y [Hy Hin]].
  destruct (symbolRow (groupByDate rows) symbol y); [|contradiction].
  destruct Hin as [Heq|[]]. injection Heq as -> _. exact Hy.
Qed.

(** C7: the range report is, line by line, its heading, one table for each
    symbol of the row set and the period summary.  The table of a symbol has
    a line for a date, the line [| date | balance | USD value | price |],
    exactly when the row set has a row of that (normalised) date and that
    symbol; such a line shows the figures of the first row of that date and
    symbol in the row set, so that no figure of the table is made up, and no
    date has two lines. *)
Theorem formatRangeTable_rows_present_iff
  (row0 : PositionRow.t) (more : list PositionRow.t) :
  let rows := row0 :: more in
  let dates := sort (Map_keys (groupByDate rows)) in
  formatRangeTable rows =
  textOf
    ([rangeTitle row0 dates; ""] ++
     flat_map
       (fun symbol =>
          ([("#### " ++ symbol)%string; ""; "| Date | Balance | USD Value | Price |";
            "|------|---------|-----------|-------|"] ++
           map (fun e => tableLine (rangeCells e)) (rangeSeries rows symbol) ++
           [""])%list)
       (unique (map PositionRow.symbol rows)) ++
     summaryLines (groupByDate rows) dates) ++
  sourceLine /\
  (forall symbol,
     In symbol (unique (map PositionRow.symbol rows)) <->
     exists r, In r rows /\ PositionRow.symbol r = symbol) /\
  forall symbol d,
    let table :=
      ([("#### " ++ symbol)%string; ""; "| Date | Balance | USD Value | Price |";
        "|------|---------|-----------|-------|"] ++
       map (fun e => tableLine (rangeCells e)) (rangeSeries rows symbol) ++
       [""])%list in
    ((exists r, In (tableLine (rangeCells (d, r))) table) <->
     exists r, In r rows /\ formatDate (PositionRow.date r) = d /\
               PositionRow.symbol r = symbol) /\
    (forall r, In (tableLine (rangeCells (d, r))) table ->
               exists first,
                 find (fun x => PositionRow.symbol x =? symbol) (rowsOn d rows) =
                 Some first /\
                 tableLine (rangeCells (d, r)) = tableLine (rangeCells (d, first))) /\
    (In d (map fst (rangeSeries rows symbol)) <->
     exists r, In r rows /\ formatDate (PositionRow.date r) = d /\
               PositionRow.symbol r = symbol) /\
    (forall r, In (d, r) (rangeSeries rows symbol) ->
               find (fun x => PositionRow.symbol x =? symbol) (rowsOn d rows) = Some r) /\
    NoDup (map fst (rangeSeries rows symbol)).
Proof.
  intros rows dates. split; [|split].
  - rewrite (flat_map_ext _ (symbolSection rows)).
    + apply (formatRangeTable_lines row0 more).
    + intros symbol. unfold symbolSection. now rewrite map_map.
  - intros symbol. rewrite unique_In, in_map_iff. split; intros [r H]; exists r; tauto.
  - intros symbol d table.
    assert (Htable : table = symbolSection rows symbol).
    { unfold table, symbolSection. now rewrite map_map. }
    split; [|split; [|split; [|split]]].
    + split.
      * intros [r H]. rewrite Htable in H. apply symbolSection_row in H.
        destruct H as [e' [He' Hline]]. apply rangeCells_line_inj in Hline.
        destruct Hline as [Hd _]. cbn [fst] in Hd.
        apply rangeSeries_date_iff. apply in_map_iff. now exists e'.
      * intros H. apply rangeSeries_date_iff in H. apply in_map_iff in H.
        destruct H as [[d' r] [Hd Hin]]. cbn [fst] in Hd. subst d'.
        exists r. unfold table. apply in_or_app. right. apply in_or_app. left.
        apply in_map_iff. now exists (d, r).
    + intros r H. rewrite Htable in H. apply symbolSection_row in H.
      destruct H as [[d' first] [He' Hline]]. pose proof Hline as Hinj.
      apply rangeCells_line_inj in Hinj. destruct Hinj as [Hd _]. cbn [fst] in Hd.
      subst d'. exists first. split; [now apply rangeSeries_first | now symmetry].
    + apply rangeSeries_date_iff.
    + intros r. apply rangeSeries_first.
    + apply rangeSeries_NoDup.
Qed.

(** The row set of the three dates: the table of SOL has the lines of the
    first and of the third date, and no line for the second. *)
Lemma formatRangeTable_rows_present_iff_witness :
  formatRangeTable threeDates =
  textOf
    ["### Position History for `7xKX...gAsU` (2025-10-01 to 2025-10-03)"; "";
     "#### USDC"; "";
     "| Date | Balance | USD Value | Price |";
     "|------|---------|-----------|-------|";
     "| 2025-10-01 | 10.000000 | $10.00 | $1.0000 |";
     "| 2025-10-02 | 12.000000 | $12.00 | $1.0000 |";
     "| 2025-10-03 | 15.000000 | $15.00 | $1.0000 |"; "";
     "#### SOL"; "";
     "| Date | Balance | USD Value | Price |";
     "|------|---------|-----------|-------|";
     "| 2025-10-01 | 2.000000 | $300.00 | $1.0000 |";
     "| 2025-10-03 | 3.000000 | $450.00 | $1.0000 |"; "";
     "**Period Summary:**";
     "- Start value (2025-10-01): $310.00";
     "- End value (2025-10-03): $465.00";
     "- Change: $155.00 (50.00%)"; ""] ++
  sourceLine /\
  ~ (exists r,
       In (tableLine (rangeCells ("2025-10-02", r)))
         (["#### SOL"; ""; "| Date | Balance | USD Value | Price |";
           "|------|---------|-----------|-------|"] ++
          map (fun e => tableLine (rangeCells e)) (rangeSeries threeDates "SOL") ++
          [""])%list).
Proof.
  split.
  - exact (proj1 (formatRangeTable_rows_present_iff
                    (sampleRow "2025-10-01" "USDC" 10 10)
                    [sampleRow "2025-10-01" "SOL" 2 300;
                     sampleRow "2025-10-02" "USDC" 12 12;
                     sampleRow "2025-10-03" "USDC" 15 15;
                     sampleRow "2025-10-03" "SOL" 3 450])).
  - intros H.
    apply (proj1 (proj1 (proj2 (proj2 (formatRangeTable_rows_present_iff
                    (sampleRow "2025-10-01" "USDC" 10 10)
                    [sampleRow "2025-10-01" "SOL" 2 300;
                     sampleRow "2025-10-02" "USDC" 12 12;
                     sampleRow "2025-10-03" "USDC" 15 15;
                     sampleRow "2025-10-03" "SOL" 3 450])) "SOL" "2025-10-02"))) in H.
    destruct H as [r [Hin [Hd Hs]]].
    destruct Hin as [<-|[<-|[<-|[<-|[<-|[]]]]]]; discriminate.
Defined.
